(** * kustomize-action: discovery and build orchestration

    A shallow embedding of the Go sources of the action
    (builder.go, the change enumeration and the [Run] driver) together
    with the properties the specification states about them.

    Go strings are byte sequences and are modelled by [string]; the
    functions of Go's [strings] package that the sources call are defined
    first, byte by byte, the way the Go library implements them for ASCII
    arguments. *)

From Stdlib Require Import Bool Arith NArith Lia List Ascii String DecimalString.
From Stdlib.Strings Require Byte.
Import ListNotations.

Local Open Scope string_scope.
Local Open Scope bool_scope.

(* ================================================================= *)
(** ** Go's [strings] package *)

Module strings.

(** [s[n:]] *)
Fixpoint drop (n : nat) (s : string) : string :=
  match n, s with
  | O, _ => s
  | S _, EmptyString => EmptyString
  | S k, String _ s' => drop k s'
  end.

(** [s[:n]] *)
Fixpoint take (n : nat) (s : string) : string :=
  match n, s with
  | O, _ => EmptyString
  | S _, EmptyString => EmptyString
  | S k, String c s' => String c (take k s')
  end.

(** [len(s) >= len(prefix) && s[:len(prefix)] == prefix] *)
Definition HasPrefix (s pre : string) : bool :=
  (length pre <=? length s)%nat && (take (length pre) s =? pre).

(** [len(s) >= len(suffix) && s[len(s)-len(suffix):] == suffix] *)
Definition HasSuffix (s suf : string) : bool :=
  (length suf <=? length s)%nat && (drop (length s - length suf) s =? suf).

Definition TrimPrefix (s pre : string) : string :=
  if HasPrefix s pre then drop (length pre) s else s.

Definition TrimSuffix (s suf : string) : string :=
  if HasSuffix s suf then take (length s - length suf) s else s.

(** Membership of a byte in an ASCII cutset. *)
Fixpoint inCutset (c : ascii) (cutset : string) : bool :=
  match cutset with
  | EmptyString => false
  | String d rest => (c =? d)%char || inCutset c rest
  end.

Fixpoint trimLeftASCII (s cutset : string) : string :=
  match s with
  | EmptyString => EmptyString
  | String c s' => if inCutset c cutset then trimLeftASCII s' cutset else s
  end.

Fixpoint trimRightASCII (s cutset : string) : string :=
  match s with
  | EmptyString => EmptyString
  | String c s' =>
      match trimRightASCII s' cutset with
      | EmptyString => if inCutset c cutset then EmptyString else String c EmptyString
      | r => String c r
      end
  end.

(** [strings.Trim]: every leading and trailing byte that belongs to the
    cutset is removed (the cutset is a set of bytes, not a prefix). *)
Definition Trim (s cutset : string) : string :=
  trimLeftASCII (trimRightASCII s cutset) cutset.

(** The ASCII white space of [unicode.IsSpace]. *)
Definition isSpace (c : ascii) : bool :=
  let n := nat_of_ascii c in
  ((n =? 9) || (n =? 10) || (n =? 11) || (n =? 12) || (n =? 13) || (n =? 32))%nat.

Fixpoint trimLeftSpace (s : string) : string :=
  match s with
  | EmptyString => EmptyString
  | String c s' => if isSpace c then trimLeftSpace s' else s
  end.

Fixpoint trimRightSpace (s : string) : string :=
  match s with
  | EmptyString => EmptyString
  | String c s' =>
      match trimRightSpace s' with
      | EmptyString => if isSpace c then EmptyString else String c EmptyString
      | r => String c r
      end
  end.

Definition TrimSpace (s : string) : string :=
  trimLeftSpace (trimRightSpace s).

(** [strings.ReplaceAll]: non-overlapping occurrences of [old], left to
    right.  [skip] counts the bytes of an occurrence still to be
    dropped. *)
Fixpoint replaceFrom (old new : string) (skip : nat) (s : string) : string :=
  match s with
  | EmptyString => EmptyString
  | String c s' =>
      match skip with
      | S k => replaceFrom old new k s'
      | O =>
          if HasPrefix s old
          then new ++ replaceFrom old new (length old - 1) s'
          else String c (replaceFrom old new 0 s')
      end
  end.

(** With an empty [old], [new] is inserted before every byte and at the
    end (Go inserts at rune boundaries; the two agree on ASCII). *)
Fixpoint insertAround (new s : string) : string :=
  match s with
  | EmptyString => new
  | String c s' => new ++ String c (insertAround new s')
  end.

Definition ReplaceAll (s old new : string) : string :=
  match old with
  | EmptyString => insertAround new s
  | _ => replaceFrom old new 0 s
  end.

(** [strings.Contains] *)
Fixpoint Contains (s substr : string) : bool :=
  HasPrefix s substr ||
  match s with
  | EmptyString => false
  | String _ s' => Contains s' substr
  end.

(** [strings.Join] *)
Fixpoint Join (elems : list string) (sep : string) : string :=
  match elems with
  | [] => EmptyString
  | [e] => e
  | e :: rest => e ++ sep ++ Join rest sep
  end.

(** [strings.Split] for a one-byte separator (the sources split on a
    line feed and on a comma only). *)
Fixpoint splitByte (s : string) (sep : ascii) (cur : string) : list string :=
  match s with
  | EmptyString => [cur]
  | String c s' =>
      if (c =? sep)%char then cur :: splitByte s' sep EmptyString
      else splitByte s' sep (cur ++ String c EmptyString)
  end.

Definition Split (s : string) (sep : ascii) : list string :=
  splitByte s sep EmptyString.

(** The byte-wise image of a string. *)
Fixpoint mapBytes (f : ascii -> ascii) (s : string) : string :=
  match s with
  | EmptyString => EmptyString
  | String c s' => String (f c) (mapBytes f s')
  end.

(** [strings.ToLower] and [strings.ToUpper] on ASCII: the letters change
    case, every other byte is kept. *)
Definition toLowerByte (c : ascii) : ascii :=
  let n := nat_of_ascii c in
  if ((65 <=? n) && (n <=? 90))%nat then ascii_of_nat (n + 32) else c.

Definition toUpperByte (c : ascii) : ascii :=
  let n := nat_of_ascii c in
  if ((97 <=? n) && (n <=? 122))%nat then ascii_of_nat (n - 32) else c.

Definition ToLower (s : string) : string := mapBytes toLowerByte s.

Definition ToUpper (s : string) : string := mapBytes toUpperByte s.


End strings.

(* ================================================================= *)
(** ** Go's [path/filepath] package (Unix) *)

Module filepath.

(** [filepath.Separator] on the platform of the action's container image
    (the Dockerfile builds with GOOS=linux). *)
Definition Separator : string := "/".

(** The element pass of [filepath.Clean]: empty and [.] elements are
    dropped, [..] removes the element before it when there is one to
    remove, is dropped at the top of a rooted path and is kept otherwise.
    [stack] holds the elements kept so far, last one first. *)
Fixpoint cleanElems (rooted : bool) (elems stack : list string) : list string :=
  match elems with
  | [] => rev stack
  | e :: rest =>
      if (e =? "") || (e =? ".") then cleanElems rooted rest stack
      else if e =? ".." then
        match stack with
        | top :: below =>
            if top =? ".." then cleanElems rooted rest (e :: stack)
            else cleanElems rooted rest below
        | [] =>
            if rooted then cleanElems rooted rest []
            else cleanElems rooted rest [e]
        end
      else cleanElems rooted rest (e :: stack)
  end.

Definition Clean (path : string) : string :=
  let rooted := strings.HasPrefix path "/" in
  let body := strings.Join (cleanElems rooted (strings.Split path "/"%char) []) "/" in
  let out := if rooted then "/" ++ body else body in
  if out =? "" then "." else out.

(** [filepath.Join]: leading empty elements are ignored, the rest is
    joined with the separator and cleaned. *)
Fixpoint Join (elem : list string) : string :=
  match elem with
  | [] => ""
  | e :: rest => if e =? "" then Join rest else Clean (strings.Join elem "/")
  end.

(** The bytes after the last separator. *)
Fixpoint lastElem (s cur : string) : string :=
  match s with
  | EmptyString => cur
  | String c s' =>
      if (c =? "/")%char then lastElem s' "" else lastElem s' (cur ++ String c "")
  end.

(** [filepath.Base]: the last element of the path, trailing separators
    removed first; [.] for the empty path and [/] for a path of
    separators only. *)
Definition Base (path : string) : string :=
  if path =? "" then "."
  else
    let path := lastElem (strings.trimRightASCII path "/") "" in
    if path =? "" then "/" else path.


End filepath.

(* ================================================================= *)
(** ** Errors, configuration and the file system *)

(** The error values the sources create or compare: [context.Canceled]
    and the string errors of [fmt.Errorf] and [errors.New]. *)
Inductive error : Type :=
| context_Canceled
| errorString (msg : string).

(** [err.Error()] *)
Definition Error (e : error) : string :=
  match e with
  | context_Canceled => "context canceled"
  | errorString msg => msg
  end.

(** [errors.Is(err, context.Canceled)] (a nil error is [None]). *)
Definition is_Canceled (err : option error) : bool :=
  match err with
  | Some context_Canceled => true
  | _ => false
  end.

(** [err != nil] *)
Definition notNil (err : option error) : bool :=
  match err with
  | Some _ => true
  | None => false
  end.

(** config.go *)
Record Config : Type := {
  OutputDir : string;
  KustomizeVersion : string;
  KustomizeSHA256 : string;
  EnableHelm : bool;
  LoadRestrictor : string;
  WorkingDir : string;
  BuildAll : bool;
  ChangedOnly : bool;
  FailOnError : bool;
  FailFast : bool;
  IgnoreDirs : list string
}.

(** The file system: the content found at a path, if the path exists. *)
Definition FS : Type := string -> option string.

(** What [os.WriteFile] does not control: for a path, the error of a
    write that fails. *)
Definition WriteOracle : Type := string -> option string.

(** [os.WriteFile(name, data, 0o644)]; a write that fails leaves the
    file system as it was. *)
Definition WriteFile (wo : WriteOracle) (fs : FS) (name data : string)
  : FS * option error :=
  match wo name with
  | Some msg => (fs, Some (errorString msg))
  | None => (fun p => if p =? name then Some data else fs p, None)
  end.

(** builder.go, [fileExists]: [os.Stat(p)] returns no error. *)
Definition fileExists (fs : FS) (p : string) : bool :=
  match fs p with
  | Some _ => true
  | None => false
  end.

(* ================================================================= *)
(** ** builder.go *)

Record Summary : Type := {
  Success : nat;
  Failed : nat;
  Canceled : nat;
  Roots : nat;
  FailedRoots : list string;
  CanceledRoots : list string
}.

(** What a call of a [runCommandFunc] leaves behind: the error it returns
    and the bytes it wrote to the two writers. *)
Record runResult : Type := {
  run_err : option error;
  run_stdout : string;
  run_stderr : string
}.

(** A [runCommandFunc] ([defaultRunCommand] or the one passed in), as a
    function of the command name and its arguments. *)
Definition runCommandFunc : Type := string -> list string -> runResult.

Definition sanitizeOutName (dir : string) : string :=
  let dir := strings.Trim dir "./" in
  let dir := strings.TrimPrefix dir "/" in
  let dir := strings.ReplaceAll dir filepath.Separator "/" in
  let dir := strings.ReplaceAll dir "/" "_" in
  if dir =? "" then "root" else dir.

Definition newline : string := String "010"%char "".

(** [dropCR] of bufio: one carriage return at the end of a line is not
    part of the token. *)
Definition dropCR (line : string) : string :=
  strings.TrimSuffix line (String "013"%char "").

(** [bufio.MaxScanTokenSize], the largest buffer of a [bufio.Scanner]
    that is given none. *)
Definition MaxScanTokenSize : N := 65536.

(** The tokens a [bufio.Scanner] with [bufio.ScanLines] yields on [s]:
    the lines without their end-of-line marker; a final empty line is
    not a token.  The scanner stops for good ([ErrTooLong], an error
    [tail] does not look at) when its buffer is full of bytes of one
    line and holds no line feed, that is at the first line of
    [MaxScanTokenSize] bytes or more before its line feed: the lines
    before that one are all it yields.  [cur] holds the bytes of the
    line read so far. *)
Fixpoint scanLines (s cur : string) : list string :=
  match s with
  | EmptyString => if cur =? "" then [] else [dropCR cur]
  | String c s' =>
      if (c =? "010")%char then dropCR cur :: scanLines s' ""
      else if (MaxScanTokenSize <=? N.of_nat (length (cur ++ String c "")))%N
      then []
      else scanLines s' (cur ++ String c "")
  end.

Definition tail (s : string) (lines : nat) : string :=
  let keep (buf : list string) (line : string) :=
    let buf := (buf ++ [line])%list in
    if (lines <? List.length buf)%nat then tl buf else buf in
  strings.Join (fold_left keep (scanLines s "") []) newline.

(** What one call of [buildKustomization] did, besides its two results:
    the file system it leaves, the runner calls it made and the paths it
    passed to [os.WriteFile], in order. *)
Record buildResult : Type := {
  b_log : string;
  b_err : option error;
  b_fs : FS;
  b_invoked : list (string * list string);
  b_written : list string
}.

(** [buildKustomization], lines 125-139: the directory handed to the
    build tool and the configuration file found there, if any. *)
Definition buildDirOf (dir : string) : string :=
  if dir =? "" then "." else dir.

Definition findConfig (fs : FS) (buildDir : string) : option string :=
  if fileExists fs (filepath.Join [buildDir; "kustomization.yaml"])
  then Some "kustomization.yaml"
  else if fileExists fs (filepath.Join [buildDir; "kustomization.yml"])
  then Some "kustomization.yml"
  else None.

(** Lines 141-148. *)
Definition outNameOf (dir fileName : string) : string :=
  sanitizeOutName dir ++ "_" ++ fileName.

Definition buildArgs (buildDir loadRestrictor : string) (enableHelm : bool)
  : list string :=
  let args := ["build"; buildDir; "--load-restrictor=" ++ loadRestrictor] in
  if enableHelm then app args ["--enable-helm"] else args.

(** Lines 157-163: the name of the error file. *)
Definition errOutOf (outName : string) : string :=
  let errOut := strings.TrimSuffix outName ".yaml" in
  let errOut := strings.TrimSuffix errOut ".yml" in
  if strings.HasSuffix outName ".yaml"
  then errOut ++ "-err.yaml"
  else errOut ++ "-err.yml".

(** Lines 152-172: what [buildKustomization] does once the runner has
    returned [r]; [ctxErr] is the value of [ctx.Err()] at that moment. *)
Definition afterRunner (wo : WriteOracle) (ctxErr : option error)
    (dir outputDir fileName : string) (r : runResult) (fs : FS)
  : buildResult :=
  let outName := outNameOf dir fileName in
  let outPath := filepath.Join [outputDir; outName] in
  match run_err r with
  | Some err =>
      if is_Canceled ctxErr then
        {| b_log := "⏭️ Canceled: " ++ dir;
           b_err := Some context_Canceled;
           b_fs := fs; b_invoked := []; b_written := [] |}
      else
        let errPath := filepath.Join [outputDir; errOutOf outName] in
        let (fs', _) := WriteFile wo fs errPath (run_stderr r) in
        {| b_log := "❌ Failed: " ++ dir ++ newline
                      ++ tail (run_stderr r) 20 ++ newline
                      ++ "Error: " ++ Error err;
           b_err := Some (errorString "build failed");
           b_fs := fs'; b_invoked := []; b_written := [errPath] |}
  | None =>
      match WriteFile wo fs outPath (run_stdout r) with
      | (fs', Some err) =>
          {| b_log := "❌ Failed to write output for " ++ dir ++ ": " ++ Error err;
             b_err := Some (errorString ("write failed: " ++ Error err));
             b_fs := fs'; b_invoked := []; b_written := [outPath] |}
      | (fs', None) =>
          {| b_log := "✅ Built " ++ dir;
             b_err := None;
             b_fs := fs'; b_invoked := []; b_written := [outPath] |}
      end
  end.

(** [buildKustomization] as one sequential call. *)
Definition buildKustomization (wo : WriteOracle) (ctxErr : option error)
    (dir outputDir loadRestrictor : string) (enableHelm : bool)
    (kustomizePath : string) (runner : runCommandFunc) (fs : FS)
  : buildResult :=
  let buildDir := buildDirOf dir in
  match findConfig fs buildDir with
  | None =>
      {| b_log := ""; b_err := None; b_fs := fs;
         b_invoked := []; b_written := [] |}
  | Some fileName =>
      let args := buildArgs buildDir loadRestrictor enableHelm in
      let res := afterRunner wo ctxErr dir outputDir fileName
                   (runner kustomizePath args) fs in
      {| b_log := b_log res; b_err := b_err res; b_fs := b_fs res;
         b_invoked := [(kustomizePath, args)];
         b_written := b_written res |}
  end.

(* ================================================================= *)
(** ** builder.go, [buildKustomizations]: the goroutines as a
       transition system

    The main goroutine runs the dispatch loop; every dispatched root is a
    goroutine that waits for one of the four slots of [sem], calls
    [buildKustomization] and then updates the summary under [mu].  A run
    is a sequence of events, one per stretch of a goroutine between two
    points where the others matter: taking a slot (with the reads of
    lines 70, 132 and 135, which look at the signal and at files the run
    does not write), the return of the runner (with the read of the
    signal at line 153 and the write that follows), and the critical
    section.  The scheduler and the runner (when it returns and what)
    are free. *)

(** The three counters a task can be counted under. *)
Inductive BuildOutcome : Type := OutSuccess | OutFailed | OutCanceled.

(** What a task did, in the order it did it (a history of the run; the
    code keeps no such record). *)
Inductive obs : Type :=
| ObsCanceledBeforeStart                       (* line 70 held *)
| ObsSkipped                                   (* line 137 *)
| ObsInvoked (name : string) (args : list string)   (* line 152, call *)
| ObsReturned (r : runResult) (signal : bool)  (* line 152, return; [signal]: the context is canceled *)
| ObsWrote (path : string)                     (* lines 164 and 169 *)
| ObsRecorded (o : BuildOutcome).              (* lines 72, 92, 96, 102 *)

Inductive taskState : Type :=
| Queued                                        (* blocked on [sem <- struct{}{}] *)
| Running (fileName : string)                   (* inside the runner call *)
| Returned (logMsg : string) (err : option error) (* before [mu.Lock()], line 81 *)
| Finished.

Record task : Type := { t_dir : string; t_state : taskState }.

Record state : Type := {
  pending : list string;        (* roots the loop has not reached *)
  dispatching : bool;           (* the loop of line 60 is still running *)
  tasks : list task;            (* the goroutines, in launch order *)
  ctxErr : option error;        (* [ctx.Err()] *)
  summary : Summary;
  files : FS;
  console : list string;        (* the lines printed *)
  trace : list (nat * obs)      (* task index, observation *)
}.

Inductive event : Type :=
| Dispatch                                (* one turn of the loop, or its end *)
| Acquire (i : nat)                       (* task [i] takes a slot and runs to the runner call *)
| RunnerReturns (i : nat) (r : runResult) (* the runner of task [i] returns [r] *)
| Commit (i : nat).                       (* task [i] runs lines 81-103 and frees its slot *)

(** The capacity of [sem]. *)
Definition poolWidth : nat := 4.

Definition holdsSlot (t : task) : bool :=
  match t_state t with
  | Running _ | Returned _ _ => true
  | Queued | Finished => false
  end.

Definition slotsHeld (ts : list task) : nat :=
  List.length (filter holdsSlot ts).

Definition isFinished (t : task) : bool :=
  match t_state t with
  | Finished => true
  | _ => false
  end.

Fixpoint setTask (i : nat) (t : task) (ts : list task) : list task :=
  match ts, i with
  | [], _ => []
  | _ :: rest, O => t :: rest
  | x :: rest, S k => x :: setTask k t rest
  end.

Definition recordSuccess (s : Summary) : Summary :=
  {| Success := S (Success s); Failed := Failed s; Canceled := Canceled s;
     Roots := Roots s; FailedRoots := FailedRoots s;
     CanceledRoots := CanceledRoots s |}.

Definition recordFailed (s : Summary) (d : string) : Summary :=
  {| Success := Success s; Failed := S (Failed s); Canceled := Canceled s;
     Roots := Roots s; FailedRoots := (FailedRoots s ++ [d])%list;
     CanceledRoots := CanceledRoots s |}.

Definition recordCanceled (s : Summary) (d : string) : Summary :=
  {| Success := Success s; Failed := Failed s; Canceled := S (Canceled s);
     Roots := Roots s; FailedRoots := FailedRoots s;
     CanceledRoots := (CanceledRoots s ++ [d])%list |}.

(** [cancel()]: the first call sets the error of the context. *)
Definition cancel (ctxErr : option error) : option error :=
  match ctxErr with
  | None => Some context_Canceled
  | Some e => Some e
  end.

(** Lines 84-88. *)
Definition groupLines (d logMsg : string) : list string :=
  app (("::group::Building " ++ d) :: (if logMsg =? "" then [] else [logMsg]))
      ["::endgroup::"].

Section Orchestrator.

Variable conf : Config.
Variable kustomizePath : string.
Variable wo : WriteOracle.

(** [conf.FailFast && ctx.Err() != nil] *)
Definition stopRequested (st : state) : bool :=
  FailFast conf && notNil (ctxErr st).

Definition withTask (st : state) (i : nat) (t : task)
    (obss : list obs) : state :=
  {| pending := pending st; dispatching := dispatching st;
     tasks := setTask i t (tasks st); ctxErr := ctxErr st;
     summary := summary st; files := files st; console := console st;
     trace := app (trace st) (map (fun o => (i, o)) obss) |}.

(** Lines 60-64: one turn of the loop. *)
Definition dispatch (st : state) : option state :=
  if dispatching st then
    match pending st with
    | [] =>
        Some {| pending := []; dispatching := false; tasks := tasks st;
                ctxErr := ctxErr st; summary := summary st;
                files := files st; console := console st;
                trace := trace st |}
    | d :: rest =>
        if stopRequested st then
          Some {| pending := d :: rest; dispatching := false;
                  tasks := tasks st; ctxErr := ctxErr st;
                  summary := summary st; files := files st;
                  console := console st; trace := trace st |}
        else
          Some {| pending := rest; dispatching := true;
                  tasks := app (tasks st) [{| t_dir := d; t_state := Queued |}];
                  ctxErr := ctxErr st; summary := summary st;
                  files := files st; console := console st;
                  trace := trace st |}
    end
  else None.

(** Lines 67-78 and, inside [buildKustomization], lines 121-152 up to
    the call of the runner. *)
Definition acquire (i : nat) (st : state) : option state :=
  match nth_error (tasks st) i with
  | Some {| t_dir := d; t_state := Queued |} =>
      if (slotsHeld (tasks st) <? poolWidth)%nat then
        if stopRequested st then
          Some {| pending := pending st; dispatching := dispatching st;
                  tasks := setTask i {| t_dir := d; t_state := Finished |} (tasks st);
                  ctxErr := ctxErr st;
                  summary := recordCanceled (summary st) d;
                  files := files st; console := console st;
                  trace := app (trace st)
                             [(i, ObsCanceledBeforeStart);
                              (i, ObsRecorded OutCanceled)] |}
        else
          match findConfig (files st) (buildDirOf d) with
          | None =>
              Some (withTask st i {| t_dir := d; t_state := Returned "" None |}
                      [ObsSkipped])
          | Some fileName =>
              Some (withTask st i {| t_dir := d; t_state := Running fileName |}
                      [ObsInvoked kustomizePath
                         (buildArgs (buildDirOf d) (LoadRestrictor conf)
                            (EnableHelm conf))])
          end
      else None
  | _ => None
  end.

(** Lines 152-172 of [buildKustomization], from the return of the
    runner. *)
Definition runnerReturns (i : nat) (r : runResult) (st : state)
  : option state :=
  match nth_error (tasks st) i with
  | Some {| t_dir := d; t_state := Running fileName |} =>
      let res := afterRunner wo (ctxErr st) d (OutputDir conf) fileName r
                   (files st) in
      Some {| pending := pending st; dispatching := dispatching st;
              tasks := setTask i {| t_dir := d;
                                    t_state := Returned (b_log res) (b_err res) |}
                         (tasks st);
              ctxErr := ctxErr st; summary := summary st;
              files := b_fs res; console := console st;
              trace := app (trace st)
                         ((i, ObsReturned r (is_Canceled (ctxErr st)))
                            :: map (fun p => (i, ObsWrote p)) (b_written res)) |}
  | _ => None
  end.

(** Lines 81-103: the critical section. *)
Definition commit (i : nat) (st : state) : option state :=
  match nth_error (tasks st) i with
  | Some {| t_dir := d; t_state := Returned logMsg err |} =>
      let done := setTask i {| t_dir := d; t_state := Finished |} (tasks st) in
      let printed := app (console st) (groupLines d logMsg) in
      match err with
      | Some _ =>
          if is_Canceled err then
            Some {| pending := pending st; dispatching := dispatching st;
                    tasks := done; ctxErr := ctxErr st;
                    summary := recordCanceled (summary st) d;
                    files := files st; console := printed;
                    trace := app (trace st) [(i, ObsRecorded OutCanceled)] |}
          else
            Some {| pending := pending st; dispatching := dispatching st;
                    tasks := done;
                    ctxErr := if FailFast conf then cancel (ctxErr st)
                              else ctxErr st;
                    summary := recordFailed (summary st) d;
                    files := files st; console := printed;
                    trace := app (trace st) [(i, ObsRecorded OutFailed)] |}
      | None =>
          Some {| pending := pending st; dispatching := dispatching st;
                  tasks := done; ctxErr := ctxErr st;
                  summary := recordSuccess (summary st);
                  files := files st; console := printed;
                  trace := app (trace st) [(i, ObsRecorded OutSuccess)] |}
      end
  | _ => None
  end.

Definition step (e : event) (st : state) : option state :=
  match e with
  | Dispatch => dispatch st
  | Acquire i => acquire i st
  | RunnerReturns i r => runnerReturns i r st
  | Commit i => commit i st
  end.

(** A schedule runs from a state when each of its events is enabled in
    turn. *)
Fixpoint exec (sched : list event) (st : state) : option state :=
  match sched with
  | [] => Some st
  | e :: rest =>
      match step e st with
      | Some st' => exec rest st'
      | None => None
      end
  end.

End Orchestrator.

(** Lines 44-58: the state in which [buildKustomizations] enters its
    loop. *)
Definition start (roots : list string) (fs : FS) : state :=
  {| pending := roots; dispatching := true; tasks := []; ctxErr := None;
     summary := {| Success := 0; Failed := 0; Canceled := 0;
                   Roots := List.length roots;
                   FailedRoots := []; CanceledRoots := [] |};
     files := fs; console := []; trace := [] |}.

(** Lines 112-113: [wg.Wait()] returns once the loop has ended and every
    goroutine has finished; the summary is then returned. *)
Definition returned (st : state) : bool :=
  negb (dispatching st) && forallb isFinished (tasks st).

(** [buildKustomizations]: the summaries the call can return, over the
    schedules and over what the runner does. *)
Definition buildKustomizations (roots : list string) (conf : Config)
    (kustomizePath : string) (wo : WriteOracle) (fs : FS) (s : Summary) : Prop :=
  exists sched st,
    exec conf kustomizePath wo sched (start roots fs) = Some st
    /\ returned st = true /\ summary st = s.

(** The observations of task [i], in order. *)
Definition taskTrace (i : nat) (tr : list (nat * obs)) : list obs :=
  map snd (filter (fun x => (fst x =? i)%nat) tr).

(* ================================================================= *)
(** ** Change enumeration (git) *)

(** A Go result pair [(value, error)] with the error nil or not. *)
Inductive result (A : Type) : Type :=
| Ok (a : A)
| Err (e : error).

Arguments Ok {A} a.
Arguments Err {A} e.

(** What running [git] in a directory with some arguments gives:
    [cmd.Run()]'s error and the two captured streams. *)
Definition GitOracle : Type := string -> list string -> runResult.

Fixpoint isPathExcluded (path : string) (exclusions : list string) : bool :=
  match exclusions with
  | [] => false
  | excl :: rest =>
      let excl := strings.TrimSuffix excl "/" in
      if (path =? excl) || strings.HasPrefix path (excl ++ "/") then true
      else isPathExcluded path rest
  end.

Definition gitOutput (git : GitOracle) (dir : string) (args : list string)
  : result string :=
  let r := git dir args in
  match run_err r with
  | Some err =>
      let errMsg := strings.TrimSpace (run_stderr r) in
      if negb (errMsg =? "") then
        Err (errorString ("git " ++ strings.Join args " " ++ " failed: " ++ errMsg))
      else
        Err (errorString ("git " ++ strings.Join args " " ++ " failed: " ++ Error err))
  | None => Ok (run_stdout r)
  end.

Definition gitRepoRoot (git : GitOracle) (startDir : string) : result string :=
  match gitOutput git startDir ["rev-parse"; "--show-toplevel"] with
  | Err err =>
      Err (errorString ("failed to determine git repo root: " ++ Error err))
  | Ok out =>
      let root := strings.TrimSpace out in
      if root =? "" then
        Err (errorString "failed to determine git repo root: empty output")
      else Ok root
  end.

Definition verifyHasParentCommit (git : GitOracle) (repoRoot : string)
  : option error :=
  match gitOutput git repoRoot ["rev-parse"; "--verify"; "--quiet"; "HEAD~1"] with
  | Err err =>
      Some (errorString
              ("cannot determine changed files for last commit: HEAD~1 not available. Ensure actions/checkout uses fetch-depth >= 2 (or fetch-depth: 0). Original error: "
                 ++ Error err))
  | Ok _ => None
  end.

Section ChangedFiles.

(** [normalizeRepoRelativePath] is called by this file and defined in a
    source file that is not at hand. *)
Variable normalizeRepoRelativePath : string -> string.
Variable git : GitOracle.

(** Lines 33-49: [seen] holds the keys of the map of the same name. *)
Definition collectPaths (exclusions : list string) (lines : list string)
  : list string :=
  snd (fold_left
         (fun (acc : list string * list string) (l : string) =>
            let (seen, paths) := acc in
            let p := normalizeRepoRelativePath l in
            if p =? "" then acc
            else if negb (existsb (String.eqb p) seen) then
              if negb (isPathExcluded p exclusions)
              then (p :: seen, app paths [p])
              else acc
            else acc)
         lines ([], [])).

Definition getChangedFilesLastCommitWithExclusions (startDir : string)
    (exclusions : list string) : result (list string) :=
  match gitRepoRoot git startDir with
  | Err err => Err err
  | Ok repoRoot =>
      match verifyHasParentCommit git repoRoot with
      | Some err => Err err
      | None =>
          match gitOutput git repoRoot
                  ["diff"; "--name-only"; "--diff-filter=ACMRD"; "HEAD~1..HEAD"] with
          | Err err => Err err
          | Ok out =>
              let out := strings.TrimSpace out in
              if out =? "" then Ok []
              else Ok (collectPaths exclusions (strings.Split out "010"%char))
          end
      end
  end.

Definition getChangedFilesLastCommit (startDir : string)
  : result (list string) :=
  getChangedFilesLastCommitWithExclusions startDir [].

End ChangedFiles.

(* ================================================================= *)
(** ** The change-set filter *)

(** Modelled from the spec: [selectRootsForChangedFiles] is called by
    [Run] and defined in a source file that is not at hand.  The spec
    (4.2): a root [R] is retained iff some changed path [P] satisfies
    [P == R] or [P] starts with [R + "/"]; the result keeps the order of
    the roots. *)
Definition rootAffectedBy (root changedPath : string) : bool :=
  (changedPath =? root) || strings.HasPrefix changedPath (root ++ "/").

Definition selectRootsForChangedFiles (roots changed : list string)
  : list string :=
  filter (fun root => existsb (rootAffectedBy root) changed) roots.

(* ================================================================= *)
(** ** main.go: [Run] *)

(** What [Run] does to the outside, in order. *)
Inductive effect : Type :=
| Log (line : string)
| MkdirAll (path : string)
| Build (roots : list string) (s : Summary)   (* the builder ran and returned [s] *)
| WriteSummary (path : string) (s : Summary)  (* [s] as indented JSON *)
| PrintSummary (s : Summary)
| SetOutput (name value : string)
| SetOutputRoots (name : string) (roots : list string). (* the roots as a JSON array *)

(** The collaborators of [Run]: the installer, the tree scan and the
    helpers on roots (defined in source files that are not at hand), the
    operating system and git. *)
Record Collaborators : Type := {
  Install : string -> string -> result string;
  CmdRun : string -> list string -> result string;
  findKustomizationFilesWithExclusions : string -> list string -> result (list string);
  kustomizationDirsFromFiles : list string -> string -> list string;
  dedupeTopLevelDirs : list string -> list string;
  mapRootsToRepoRootRelative : string -> list string -> list string;
  normalizeRepoRelativePath : string -> string;
  os_MkdirAll : string -> option error;
  os_WriteSummary : string -> option error;
  countYAMLFiles : string -> nat;
  git : GitOracle
}.

(** [KustomizeBuilder] *)
Definition KustomizeBuilder : Type :=
  list string -> Config -> string -> Summary.

(** [fmt.Sprintf("%d", n)] *)
Definition itoa (n : nat) : string :=
  DecimalString.NilZero.string_of_uint (Nat.to_uint n).

(** Effects so far, and the error that stopped [Run] or a value. *)
Definition M (A : Type) : Type := list effect * result A.

Definition ret {A : Type} (a : A) : M A := ([], Ok a).

Definition bind {A B : Type} (m : M A) (k : A -> M B) : M B :=
  match m with
  | (es, Ok a) => let (es', r) := k a in (app es es', r)
  | (es, Err e) => (es, Err e)
  end.

Definition tell (e : effect) : M unit := ([e], Ok tt).

Definition failWith {A : Type} (msg : string) : M A :=
  ([], Err (errorString msg)).

(** A fallible call whose error [Run] wraps with [fmt.Errorf(prefix + "%v")]. *)
Definition try {A : Type} (prefix : string) (r : result A) : M A :=
  match r with
  | Ok a => ret a
  | Err e => failWith (prefix ++ Error e)
  end.

Declare Scope run_scope.
Delimit Scope run_scope with run.
Notation "x <- c ;; k" := (bind c (fun x => k))
  (at level 61, c at next level, right associativity) : run_scope.
Notation "c ;;; k" := (bind c (fun _ => k))
  (at level 61, right associativity) : run_scope.

Section Run.

Variable world : Collaborators.

Definition logVersions (kustomizePath : string) : M unit :=
  (tell (Log (match CmdRun world kustomizePath ["version"] with
              | Ok out => "ℹ️ Using kustomize version: " ++ strings.TrimSpace out
              | Err err => "⚠️ Failed to get kustomize version: " ++ Error err
              end)) ;;;
   tell (Log (match CmdRun world "helm" ["version"; "--short"] with
              | Ok out => "ℹ️ Using helm version: " ++ strings.TrimSpace out
              | Err err =>
                  "ℹ️ Helm version check failed (helm might not be installed): "
                    ++ Error err
              end)))%run.

(** Lines 51-52. *)
Definition excludedScanDirs (config : Config) : list string :=
  app [".git"; OutputDir config] (IgnoreDirs config).

(** Lines 54-74. *)
Definition collectRoots (config : Config) : M (list string) :=
  let excludedScanDirs := excludedScanDirs config in
  (roots <-
     (if BuildAll config then
        tell (Log "🔍 Scanning for all kustomization files in the working directory...") ;;;
        files <- try "scan error: "
                   (findKustomizationFilesWithExclusions world
                      (WorkingDir config) excludedScanDirs) ;;
        ret (kustomizationDirsFromFiles world files (WorkingDir config))
      else
        tell (Log "🔍 Scanning for root kustomization files in the working directory...") ;;;
        files <- try "scan error: "
                   (findKustomizationFilesWithExclusions world
                      (WorkingDir config) excludedScanDirs) ;;
        let roots := kustomizationDirsFromFiles world files (WorkingDir config) in
        tell (Log ("📂 Found " ++ itoa (List.length roots)
                     ++ " candidate kustomizations (before dedupe).")) ;;;
        ret (dedupeTopLevelDirs world roots)) ;;
   tell (Log ("📦 Keeping " ++ itoa (List.length roots) ++ " kustomization files.")) ;;;
   ret roots)%run.

(** Lines 82-92. *)
Definition selectRoots (config : Config) (roots : list string)
  : M (list string) :=
  let repoRoots := mapRootsToRepoRootRelative world (WorkingDir config) roots in
  (if ChangedOnly config then
     tell (Log "🧮 changed-only=true: determining changed files for last commit...") ;;;
     changed <- try "changed-only mode failed: "
                  (getChangedFilesLastCommit (normalizeRepoRelativePath world)
                     (git world) (WorkingDir config)) ;;
     let filtered := selectRootsForChangedFiles repoRoots changed in
     tell (Log ("🧮 changed-only: " ++ itoa (List.length filtered)
                  ++ " roots selected from " ++ itoa (List.length repoRoots)
                  ++ " discovered.")) ;;;
     ret filtered
   else ret repoRoots)%run.

Definition Run (config : Config) (builder : KustomizeBuilder)
  : list effect * option error :=
  let m :=
    (kustomizePath <- try "failed to install kustomize: "
                        (Install world (KustomizeVersion config)
                           (KustomizeSHA256 config)) ;;
     logVersions kustomizePath ;;;
     roots <- collectRoots config ;;
     tell (MkdirAll (OutputDir config)) ;;;
     match os_MkdirAll world (OutputDir config) with
     | Some err => failWith ("cannot create output dir: " ++ Error err)
     | None =>
         repoRoots <- selectRoots config roots ;;
         let summary := builder repoRoots config kustomizePath in
         let summaryPath := filepath.Join [OutputDir config; "_summary.json"] in
         tell (Build repoRoots summary) ;;;
         tell (WriteSummary summaryPath summary) ;;;
         match os_WriteSummary world summaryPath with
         | Some err => tell (Log ("⚠️ Could not write summary: " ++ Error err))
         | None => ret tt
         end ;;;
         tell (PrintSummary summary) ;;;
         tell (SetOutput "artifact-name" "kustomize-manifests") ;;;
         tell (SetOutput "manifest-count"
                 (itoa (countYAMLFiles world (OutputDir config)))) ;;;
         tell (SetOutput "success-count" (itoa (Success summary))) ;;;
         tell (SetOutput "fail-count" (itoa (Failed summary))) ;;;
         tell (SetOutputRoots "roots-json" repoRoots) ;;;
         if (0 <? Failed summary)%nat && FailOnError config then
           failWith ("kustomize build failed for " ++ itoa (Failed summary)
                       ++ " roots")
         else ret tt
     end)%run in
  match m with
  | (es, Ok _) => (es, None)
  | (es, Err e) => (es, Some e)
  end.

End Run.

(** Modelled from the spec: [main] hands a non-nil error of [Run] to
    [fail], which is defined in a source file that is not at hand; the
    spec (section 7) has the process end with a non-zero completion
    status then, and with zero otherwise. *)
Definition completionStatus (runError : option error) : nat :=
  match runError with
  | Some _ => 1
  | None => 0
  end.

(* ================================================================= *)
(** ** config.go: the inputs of the action *)

Section Inputs.

(** [os.Getenv]: the value of a variable, empty when it is not set. *)
Variable getenv : string -> string.

Definition getInput (name defaultVal : string) : string :=
  let keyHyphen := "INPUT_" ++ strings.ToUpper name in
  if negb (getenv keyHyphen =? "") then getenv keyHyphen
  else
    let keyUnderscore :=
      "INPUT_" ++ strings.ToUpper (strings.ReplaceAll name "-" "_") in
    if negb (getenv keyUnderscore =? "") then getenv keyUnderscore
    else
      let keyLegacy := strings.ToUpper (strings.ReplaceAll name "-" "_") in
      if negb (getenv keyLegacy =? "") then getenv keyLegacy
      else defaultVal.

Definition LoadConfig : Config :=
  {| OutputDir := getInput "output-dir" "kustomize-builds";
     KustomizeVersion := getInput "kustomize-version" "v5.8.0";
     KustomizeSHA256 := getInput "kustomize-sha256" "";
     EnableHelm := strings.ToLower (getInput "enable-helm" "true") =? "true";
     LoadRestrictor := getInput "load-restrictor" "LoadRestrictionsNone";
     WorkingDir := getInput "working-directory" ".";
     BuildAll := strings.ToLower (getInput "build-all" "false") =? "true";
     ChangedOnly := strings.ToLower (getInput "changed-only" "true") =? "true";
     FailOnError := strings.ToLower (getInput "fail-on-error" "false") =? "true";
     FailFast := strings.ToLower (getInput "fail-fast" "false") =? "true";
     IgnoreDirs := strings.Split (getInput "ignore-dirs" "") ","%char |}.

End Inputs.

(* ================================================================= *)
(** ** main.go: the workflow outputs and the manifest count *)

Module main_go.

(** [hex[i]] for the table of [randomHex] (the same as the one of
    [encoding/hex]); the indices used are below sixteen. *)
Definition hextable : string := "0123456789abcdef".

Definition hexAt (i : N) : ascii :=
  match String.get (N.to_nat i) hextable with
  | Some c => c
  | None => "000"%char
  end.

(** Lines 148-153: two digits per byte, [hex[v>>4]] and [hex[v&0x0f]]. *)
Fixpoint hexOf (b : list Byte.byte) : string :=
  match b with
  | [] => ""
  | v :: rest =>
      String (hexAt (N.shiftr (Byte.to_N v) 4))
        (String (hexAt (N.land (Byte.to_N v) 15)) (hexOf rest))
  end.

(** [randomHex]; [randRead n] is [rand.Read] on a buffer of [n] bytes:
    the bytes read, or nothing when it fails. *)
Definition randomHex (randRead : nat -> option (list Byte.byte)) (nBytes : nat)
  : string :=
  match randRead nBytes with
  | None => "fallback"
  | Some b => hexOf b
  end.

(** [writeGitHubOutput]: the text appended to the file. *)
Definition writeGitHubOutput (randRead : nat -> option (list Byte.byte))
    (name value : string) : string :=
  let delim := "GH_OUTPUT_" ++ randomHex randRead 12 in
  let value := strings.TrimSuffix value newline in
  name ++ "<<" ++ delim ++ newline ++ value ++ newline ++ delim ++ newline.

(** Where [setOutput] writes: appended to the file named by
    [GITHUB_OUTPUT], or printed. *)
Inductive written : Type :=
| Appended (path text : string)
| Printed (text : string).

(** [setOutput]; [canOpen path] tells if [os.OpenFile] succeeds. *)
Definition setOutput (getenv : string -> string) (canOpen : string -> bool)
    (randRead : nat -> option (list Byte.byte)) (name value : string) : written :=
  let path := getenv "GITHUB_OUTPUT" in
  if negb (path =? "") && canOpen path
  then Appended path (writeGitHubOutput randRead name value)
  else Printed (name ++ "=" ++ value ++ newline).

(** One call of the function [countYAMLFiles] hands to
    [filepath.WalkDir]: the path, whether the entry is a directory, and
    whether the walk reports an error for it.  The function always
    returns nil, so the walk visits every entry it can reach and ends
    without error. *)
Record visit : Type := { v_path : string; v_isDir : bool; v_err : bool }.

(** Lines 159-171: the entry is counted. *)
Definition counted (v : visit) : bool :=
  if v_err v || v_isDir v then false
  else
    let base := strings.ToLower (filepath.Base (v_path v)) in
    if negb (strings.HasSuffix base ".yaml") && negb (strings.HasSuffix base ".yml")
    then false
    else if strings.Contains base "_kustomization-err." then false
    else true.

(** [countYAMLFiles], over the visits of the walk of [dir]. *)
Definition countYAMLFiles (walk : list visit) : nat :=
  fold_left (fun n v => if counted v then S n else n) walk 0.

End main_go.


(* ================================================================= *)
(** ** installer.go *)

(** [hex.EncodeToString]: two lower-case digits per byte. *)
Module hex.
Definition EncodeToString (b : list Byte.byte) : string := main_go.hexOf b.
End hex.

(** What the installer does to the machine, in order. *)
Inductive act : Type :=
| Ran (name : string) (args : list string)   (* a command was run *)
| Created (path : string)                    (* [os.CreateTemp] *)
| Requested (url : string)                   (* the GET request was sent *)
| Stored (path : string)                     (* the body was copied to the file *)
| Removed (path : string)                    (* the deferred [os.Remove] *)
| MadeDir (path : string)                    (* [os.MkdirTemp] *)
| SetEnv (key value : string)
| Chmodded (path : string)
| Logged (line : string).

(** The response of the server: status code, status line, body. *)
Record response : Type := {
  StatusCode : nat;
  Status : string;
  Body : string
}.

(** The machine the installer runs on. *)
Record Host : Type := {
  sha256_Sum : string -> list Byte.byte;       (* the digest of a content *)
  LookPath : string -> result string;
  CombinedOutput : string -> list string -> string * option error;
  GOOS : string;
  GOARCH : string;
  CreateTemp : result string;                  (* the name of the new file *)
  NewRequest : string -> option error;
  Do : string -> result response;
  OpenFile : string -> option error;
  Copy : string -> string -> option error;     (* [io.Copy] of a body into a file *)
  Close : string -> option error;
  ReadFile : string -> result string;          (* [os.Open] and the read of the whole file *)
  MkdirTemp : result string;
  Getenv : string -> string;
  Setenv : string -> string -> option error;
  Chmod : string -> option error
}.

Section Installer.

Variable h : Host.

Definition verifySHA256 (path expected : string) : option error :=
  let expected := strings.TrimSpace (strings.ToLower expected) in
  if expected =? "" then None
  else
    let expected := strings.TrimPrefix expected "sha256:" in
    let expected := strings.ReplaceAll expected " " "" in
    if negb (String.length expected =? 64)%nat then
      Some (errorString ("invalid kustomize-sha256: expected 64 hex chars, got "
                           ++ itoa (String.length expected)))
    else
      match ReadFile h path with
      | Err err => Some err
      | Ok content =>
          let actual := hex.EncodeToString (sha256_Sum h content) in
          if negb (actual =? expected) then
            Some (errorString ("kustomize tarball sha256 mismatch: expected "
                                 ++ expected ++ ", got " ++ actual))
          else None
      end.

(** Lines 24-31: the binary found on the PATH, when it reports the
    version asked for. *)
Definition installed (version : string) : list act * option string :=
  match LookPath h "kustomize" with
  | Ok path =>
      let (out, err) := CombinedOutput h path ["version"; "--short"] in
      ([Ran path ["version"; "--short"]],
       if negb (notNil err) && strings.Contains out version
       then Some path else None)
  | Err _ => ([], None)
  end.

(** Line 36. *)
Definition downloadURL (version : string) : string :=
  "https://github.com/kubernetes-sigs/kustomize/releases/download/kustomize%2F"
    ++ version ++ "/kustomize_" ++ version ++ "_" ++ GOOS h ++ "_" ++ GOARCH h
    ++ ".tar.gz".

(** Lines 78-111: the archive is unpacked, into [/usr/local/bin] or
    else into a new directory that is put in front of the PATH. *)
Definition extract (tmpPath : string) : list act * result string :=
  let installDir := "/usr/local/bin" in
  let finish (installDir : string) : list act * result string :=
    let bin := filepath.Join [installDir; "kustomize"] in
    match Chmod h bin with
    | Some err => ([], Err err)
    | None => ([Chmodded bin], Ok bin)
    end in
  let tar (dir : string) := ["-xzf"; tmpPath; "-C"; dir] in
  match snd (CombinedOutput h "tar" (tar installDir)) with
  | None =>
      let (acts, r) := finish installDir in
      (Ran "tar" (tar installDir) :: acts, r)
  | Some _ =>
      let attempt :=
        [Ran "tar" (tar installDir);
         Logged ("⚠️ Could not install kustomize to " ++ installDir
                   ++ " (likely permission denied). Falling back to temp dir.")] in
      match MkdirTemp h with
      | Err err =>
          (attempt,
           Err (errorString ("failed to create temp dir for kustomize: "
                               ++ Error err)))
      | Ok tmpBin =>
          let installDir := tmpBin in
          let (output, err) := CombinedOutput h "tar" (tar installDir) in
          match err with
          | Some err =>
              (app attempt [MadeDir tmpBin; Ran "tar" (tar installDir)],
               Err (errorString ("extract failed: " ++ Error err ++ ": "
                                   ++ strings.TrimSpace output)))
          | None =>
              let path := Getenv h "PATH" in
              let newPath := installDir ++ ":" ++ path in
              match Setenv h "PATH" newPath with
              | Some err =>
                  (app attempt [MadeDir tmpBin; Ran "tar" (tar installDir)],
                   Err (errorString ("failed to update PATH: " ++ Error err)))
              | None =>
                  let (acts, r) := finish installDir in
                  (app attempt
                     (app [MadeDir tmpBin; Ran "tar" (tar installDir);
                           SetEnv "PATH" newPath;
                           Logged ("ℹ️ Added " ++ installDir ++ " to PATH")]
                          acts),
                   r)
              end
          end
      end
  end.

(** Lines 46-76 and the extraction: from the request to the installed
    binary. *)
Definition download (url tmpPath expectedSHA256 : string)
  : list act * result string :=
  match NewRequest h url with
  | Some err => ([], Err err)
  | None =>
      match Do h url with
      | Err err => ([Requested url], Err err)
      | Ok resp =>
          if (StatusCode resp <? 200)%nat || (299 <? StatusCode resp)%nat then
            ([Requested url],
             Err (errorString ("download failed: " ++ Status resp)))
          else
            match OpenFile h tmpPath with
            | Some err => ([Requested url], Err err)
            | None =>
                match Copy h tmpPath (Body resp) with
                | Some err => ([Requested url], Err err)
                | None =>
                    match Close h tmpPath with
                    | Some err => ([Requested url; Stored tmpPath], Err err)
                    | None =>
                        match verifySHA256 tmpPath expectedSHA256 with
                        | Some err => ([Requested url; Stored tmpPath], Err err)
                        | None =>
                            let (acts, r) := extract tmpPath in
                            (Requested url :: Stored tmpPath :: acts, r)
                        end
                    end
                end
            end
      end
  end.

Definition ensureKustomize (version expectedSHA256 : string)
  : list act * result string :=
  let version := strings.TrimSpace version in
  if version =? "" then ([], Err (errorString "kustomize version is empty"))
  else
    match installed version with
    | (acts, Some path) => (acts, Ok path)
    | (acts, None) =>
        let url := downloadURL version in
        match CreateTemp h with
        | Err err => (acts, Err err)
        | Ok tmpPath =>
            let (acts', r) := download url tmpPath expectedSHA256 in
            (app acts (app (Created tmpPath :: acts') [Removed tmpPath]), r)
        end
    end.

End Installer.


(* ================================================================= *)
(** ** Vocabulary of the statements *)


(** The first byte of [s], if any, is outside the cutset. *)
Definition headOutside (cutset s : string) : bool :=
  match s with
  | EmptyString => true
  | String c _ => negb (strings.inCutset c cutset)
  end.

(** The last byte of [s], if any, is outside the cutset. *)
Fixpoint lastOutside (cutset s : string) : bool :=
  match s with
  | EmptyString => true
  | String c EmptyString => negb (strings.inCutset c cutset)
  | String _ s' => lastOutside cutset s'
  end.

(** No byte of [s] is [c]. *)
Fixpoint freeOf (c : ascii) (s : string) : bool :=
  match s with
  | EmptyString => true
  | String d s' => negb (d =? c)%char && freeOf c s'
  end.

(** The sanitized root in the words of the spec (4.3, artifact naming):
    leading [./] and [/] trimmed, every remaining separator replaced with
    [_], an empty result replaced by [root]. *)
Definition sanitizedRootSpec (root : string) : string :=
  let r := strings.TrimPrefix (strings.TrimPrefix root "./") "/" in
  let r := strings.ReplaceAll r "/" "_" in
  if r =? "" then "root" else r.

(** The byte [c] with [a] replaced by [b]. *)
Definition swapByte (a b c : ascii) : ascii :=
  if (c =? a)%char then b else c.

Definition slashToUnderscore : ascii -> ascii := swapByte "/" "_".

(** [sanitizeOutName] as compiled for Windows, where
    [filepath.Separator] is a backslash. *)
Definition sanitizeOutNameWindows (dir : string) : string :=
  let dir := strings.Trim dir "./" in
  let dir := strings.TrimPrefix dir "/" in
  let dir := strings.ReplaceAll dir (String "092"%char "") "/" in
  let dir := strings.ReplaceAll dir "/" "_" in
  if dir =? "" then "root" else dir.

(** Both separators to [_]. *)
Definition separatorsToUnderscore (c : ascii) : ascii :=
  slashToUnderscore (swapByte "092"%char "/" c).

(** One list is an order-preserving subsequence of another. *)
Inductive subsequence {A : Type} : list A -> list A -> Prop :=
| subseq_nil : subsequence [] []
| subseq_skip : forall x l1 l2, subsequence l1 l2 -> subsequence l1 (x :: l2)
| subseq_keep : forall x l1 l2, subsequence l1 l2 -> subsequence (x :: l1) (x :: l2).

(** [s] starts with [pre]. *)
Definition startsWith (s pre : string) : Prop :=
  exists rest, s = pre ++ rest.

(** The calls of the builder among the effects of [Run]. *)
Fixpoint builds (es : list effect) : list (list string * Summary) :=
  match es with
  | [] => []
  | Build roots s :: rest => (roots, s) :: builds rest
  | _ :: rest => builds rest
  end.

(** The counter a task is recorded under, from the error of
    [buildKustomization] (lines 90-103). *)
Definition outcomeOf (err : option error) : BuildOutcome :=
  match err with
  | None => OutSuccess
  | Some _ => if is_Canceled err then OutCanceled else OutFailed
  end.

(** The histories a task can have in each of its states. *)
Inductive taskHistory : taskState -> list obs -> Prop :=
| hist_queued : taskHistory Queued []
| hist_running : forall fileName name args,
    taskHistory (Running fileName) [ObsInvoked name args]
| hist_skipped : taskHistory (Returned "" None) [ObsSkipped]
| hist_interrupted : forall name args r logMsg,
    run_err r <> None ->
    taskHistory (Returned logMsg (Some context_Canceled))
      [ObsInvoked name args; ObsReturned r true]
| hist_failed : forall name args r logMsg err path,
    run_err r <> None -> is_Canceled (Some err) = false ->
    taskHistory (Returned logMsg (Some err))
      [ObsInvoked name args; ObsReturned r false; ObsWrote path]
| hist_built : forall name args r signal logMsg err path,
    run_err r = None -> is_Canceled err = false ->
    taskHistory (Returned logMsg err)
      [ObsInvoked name args; ObsReturned r signal; ObsWrote path]
| hist_canceled_early :
    taskHistory Finished [ObsCanceledBeforeStart; ObsRecorded OutCanceled]
| hist_recorded : forall logMsg err h,
    taskHistory (Returned logMsg err) h ->
    taskHistory Finished (h ++ [ObsRecorded (outcomeOf err)])%list.

Definition outcome_eqb (a b : BuildOutcome) : bool :=
  match a, b with
  | OutSuccess, OutSuccess | OutFailed, OutFailed | OutCanceled, OutCanceled => true
  | _, _ => false
  end.

(** The tasks recorded under one counter, in the order of recording. *)
Fixpoint recorded (o : BuildOutcome) (tr : list (nat * obs)) : list nat :=
  match tr with
  | [] => []
  | (i, ObsRecorded o') :: rest =>
      if outcome_eqb o o' then i :: recorded o rest else recorded o rest
  | _ :: rest => recorded o rest
  end.

(** The root of task [i]. *)
Definition dirOf (ts : list task) (i : nat) : string :=
  match nth_error ts i with
  | Some t => t_dir t
  | None => ""
  end.

(** The states a run of [buildKustomizations] over [roots] goes through,
    from the file system [fs]. *)
Definition reachable (conf : Config) (kustomizePath : string) (wo : WriteOracle)
    (roots : list string) (fs : FS) (st : state) : Prop :=
  exists sched, exec conf kustomizePath wo sched (start roots fs) = Some st.

(** Every observation of the trace belongs to a launched task. *)
Definition traceBounded (st : state) : Prop :=
  forall j o, In (j, o) (trace st) -> j < List.length (tasks st).

(** The counters and the loop agree with the roots. *)
Definition accounted (conf : Config) (roots : list string) (st : state) : Prop :=
  Roots (summary st) = List.length roots
  /\ List.length (tasks st) + List.length (pending st) = List.length roots
  /\ Success (summary st) + Failed (summary st) + Canceled (summary st)
     = List.length (filter isFinished (tasks st))
  /\ (FailFast conf = false -> ctxErr st = None)
  /\ (dispatching st = false -> FailFast conf = false -> pending st = []).

(** Every task has one of the histories of its state. *)
Definition historied (st : state) : Prop :=
  forall i t, nth_error (tasks st) i = Some t ->
              taskHistory (t_state t) (taskTrace i (trace st)).

(** The summary holds what the trace says was recorded. *)
Definition summarized (st : state) : Prop :=
  FailedRoots (summary st)
  = map (dirOf (tasks st)) (recorded OutFailed (trace st))
  /\ CanceledRoots (summary st)
     = map (dirOf (tasks st)) (recorded OutCanceled (trace st))
  /\ Failed (summary st) = List.length (recorded OutFailed (trace st))
  /\ Canceled (summary st) = List.length (recorded OutCanceled (trace st))
  /\ Success (summary st) = List.length (recorded OutSuccess (trace st)).

Definition invariant (conf : Config) (roots : list string) (st : state) : Prop :=
  accounted conf roots st /\ traceBounded st /\ historied st /\ summarized st.

(** What is left to do in a state: every step lowers it. *)
Definition weight (t : task) : nat :=
  match t_state t with
  | Queued => 3
  | Running _ => 2
  | Returned _ _ => 1
  | Finished => 0
  end.

Definition workLeft (st : state) : nat :=
  (if dispatching st then 1 + 4 * List.length (pending st) else 0)
  + list_sum (map weight (tasks st)).

(** Three configuration files, and three ways for the runner to return. *)
Definition sampleFS : FS := fun p =>
  if (p =? "app1/kustomization.yaml") || (p =? "app2/kustomization.yaml")
     || (p =? "app3/kustomization.yaml")
  then Some "resources: []" else None.

Definition exitOne : runResult :=
  {| run_err := Some (errorString "exit status 1");
     run_stdout := ""; run_stderr := "boom" |}.

Definition canceledErr : runResult :=
  {| run_err := Some context_Canceled; run_stdout := ""; run_stderr := "" |}.

Definition rendered : runResult :=
  {| run_err := None; run_stdout := "kind: List"; run_stderr := "" |}.

Definition neverDenied : WriteOracle := fun _ => None.

(** The run of the fail-fast scenario of the spec (section 8): three
    roots are started, the second fails, the runners of the other two
    return an error once the signal is raised. *)
Definition failFastRun : list event :=
  [Dispatch; Dispatch; Dispatch; Dispatch; Acquire 0; Acquire 1; Acquire 2;
   RunnerReturns 1 exitOne; Commit 1;
   RunnerReturns 0 canceledErr; RunnerReturns 2 exitOne;
   Commit 0; Commit 2].

Definition stateAfter (conf : Config) (sched : list event)
    (roots : list string) (fs : FS) : state :=
  match exec conf "kustomize" neverDenied sched (start roots fs) with
  | Some st => st
  | None => start roots fs
  end.

(** A world for examples: one configuration file under [apps/a], every
    tool at hand, and a git history of a single commit. *)
Definition sampleGit : GitOracle := fun dir args =>
  match args with
  | ["rev-parse"; "--show-toplevel"] =>
      {| run_err := None; run_stdout := "/repo" ++ newline; run_stderr := "" |}
  | _ =>
      {| run_err := Some (errorString "exit status 1");
         run_stdout := ""; run_stderr := "" |}
  end.

Definition sampleWorld : Collaborators :=
  {| Install := fun _ _ => Ok "/tmp/kustomize";
     CmdRun := fun _ _ => Ok "v5.8.0";
     findKustomizationFilesWithExclusions := fun _ _ => Ok ["apps/a/kustomization.yaml"];
     kustomizationDirsFromFiles := fun _ _ => ["apps/a"];
     dedupeTopLevelDirs := fun roots => roots;
     mapRootsToRepoRootRelative := fun _ roots => roots;
     normalizeRepoRelativePath := fun p => p;
     os_MkdirAll := fun _ => None;
     os_WriteSummary := fun _ => None;
     countYAMLFiles := fun _ => 0;
     git := sampleGit |}.

Definition sampleConfig (changedOnly failOnError failFast : bool) : Config :=
  {| OutputDir := "out"; KustomizeVersion := "v5.8.0"; KustomizeSHA256 := "";
     EnableHelm := false; LoadRestrictor := "LoadRestrictionsNone";
     WorkingDir := "."; BuildAll := false; ChangedOnly := changedOnly;
     FailOnError := failOnError; FailFast := failFast; IgnoreDirs := [""] |}.

(** A builder whose run ended with every root canceled. *)
Definition allCanceled : KustomizeBuilder := fun roots _ _ =>
  {| Success := 0; Failed := 0; Canceled := List.length roots;
     Roots := List.length roots; FailedRoots := []; CanceledRoots := roots |}.

(** The signal is raised exactly when fail-fast is on and a root has
    been recorded as failed; a task that came back canceled, and a root
    counted as canceled, are there only under the signal. *)
Definition cameBackUnderSignal (ctxErr : option error) (t : task) : Prop :=
  match t_state t with
  | Returned _ err => is_Canceled err = true -> notNil ctxErr = true
  | _ => True
  end.

Definition signalled (conf : Config) (st : state) : Prop :=
  notNil (ctxErr st) = FailFast conf && (0 <? Failed (summary st))%nat
  /\ Forall (cameBackUnderSignal (ctxErr st)) (tasks st)
  /\ (0 < Canceled (summary st) -> notNil (ctxErr st) = true).

(** The launched tasks are the first roots, in the order of the input;
    the others are still pending. *)
Definition launchedInOrder (roots : list string) (st : state) : Prop :=
  (map t_dir (tasks st) ++ pending st)%list = roots.

(** The two file names [buildKustomization] looks for (lines 130-135),
    and the paths it can pass to [os.WriteFile] for a root: the rendered
    output and the error file, for each of the two names. *)
Definition configNames : list string :=
  ["kustomization.yaml"; "kustomization.yml"].

Definition artifactsOf (outputDir dir : string) : list string :=
  flat_map (fun fileName =>
              [filepath.Join [outputDir; outNameOf dir fileName];
               filepath.Join [outputDir; errOutOf (outNameOf dir fileName)]])
           configNames.




(** The last [n] elements of a list (all of it when it is shorter). *)
Definition lastN {A : Type} (n : nat) (l : list A) : list A :=
  skipn (List.length l - n) l.

(** A git history of two commits whose last one touched two files (one
    of them listed twice) and a vendored one. *)
Definition historyGit : GitOracle := fun dir args =>
  match args with
  | ["rev-parse"; "--show-toplevel"] =>
      {| run_err := None; run_stdout := "/repo" ++ newline; run_stderr := "" |}
  | ["rev-parse"; "--verify"; "--quiet"; "HEAD~1"] =>
      {| run_err := None; run_stdout := "0a1b2c3" ++ newline; run_stderr := "" |}
  | ["diff"; "--name-only"; "--diff-filter=ACMRD"; "HEAD~1..HEAD"] =>
      {| run_err := None;
         run_stdout := "apps/a/kustomization.yaml" ++ newline
                         ++ "vendor/lib.go" ++ newline
                         ++ "apps/a/kustomization.yaml" ++ newline
                         ++ "README.md" ++ newline;
         run_stderr := "" |}
  | _ =>
      {| run_err := Some (errorString "exit status 1");
         run_stdout := ""; run_stderr := "" |}
  end.

(** The workflow outputs among the effects of [Run]. *)
Definition isOutput (e : effect) : bool :=
  match e with
  | SetOutput _ _ | SetOutputRoots _ _ => true
  | _ => false
  end.

Definition outputs (es : list effect) : list effect := filter isOutput es.

(** The same collaborators with another fate for the write of the
    summary file. *)
Definition withSummaryWrite (world : Collaborators)
    (write : string -> option error) : Collaborators :=
  {| Install := Install world;
     CmdRun := CmdRun world;
     findKustomizationFilesWithExclusions := findKustomizationFilesWithExclusions world;
     kustomizationDirsFromFiles := kustomizationDirsFromFiles world;
     dedupeTopLevelDirs := dedupeTopLevelDirs world;
     mapRootsToRepoRootRelative := mapRootsToRepoRootRelative world;
     normalizeRepoRelativePath := normalizeRepoRelativePath world;
     os_MkdirAll := os_MkdirAll world;
     os_WriteSummary := write;
     countYAMLFiles := countYAMLFiles world;
     git := git world |}.


(** The cutset of [strings.TrimSpace] on ASCII: tab, line feed, vertical
    tab, form feed, carriage return, space. *)
Definition asciiSpace : string :=
  String "009" (String "010" (String "011" (String "012" (String "013" " ")))).

(** The effects of [Run] other than log lines. *)
Definition isLog (e : effect) : bool :=
  match e with
  | Log _ => true
  | _ => false
  end.

Definition actions (es : list effect) : list effect :=
  filter (fun e => negb (isLog e)) es.


(** Every byte of [s] belongs to the cutset. *)
Fixpoint allIn (cutset s : string) : bool :=
  match s with
  | EmptyString => true
  | String c s' => strings.inCutset c cutset && allIn cutset s'
  end.

(** Decoding of lower-case hexadecimal text, two digits per byte (what
    [hex.DecodeString] does on such text). *)
Fixpoint indexIn (c : ascii) (table : string) (i : N) : option N :=
  match table with
  | EmptyString => None
  | String d rest => if (c =? d)%char then Some i else indexIn c rest (N.succ i)
  end.

Fixpoint unhex (s : string) : option (list Byte.byte) :=
  match s with
  | EmptyString => Some []
  | String hi (String lo rest) =>
      match indexIn hi main_go.hextable 0, indexIn lo main_go.hextable 0,
            unhex rest with
      | Some h, Some l, Some bytes =>
          match Byte.of_N (16 * h + l) with
          | Some v => Some (v :: bytes)
          | None => None
          end
      | _, _, _ => None
      end
  | String _ EmptyString => None
  end.

(** A source of random bytes that always gives zeros, and one that
    fails. *)
Definition zeroBytes : nat -> option (list Byte.byte) :=
  fun n => Some (repeat Byte.x00 n).

Definition noBytes : nat -> option (list Byte.byte) := fun _ => None.

(** A regular file met by the walk. *)
Definition regularFile (path : string) : main_go.visit :=
  {| main_go.v_path := path; main_go.v_isDir := false; main_go.v_err := false |}.


(** The first value of a list that is not empty, or the fallback. *)
Fixpoint firstNonEmpty (values : list string) (fallback : string) : string :=
  match values with
  | [] => fallback
  | v :: rest => if v =? "" then firstNonEmpty rest fallback else v
  end.

(** The three environment variables [getInput] looks at for a name, in
    the order it looks at them. *)
Definition inputKeys (name : string) : list string :=
  ["INPUT_" ++ strings.ToUpper name;
   "INPUT_" ++ strings.ToUpper (strings.ReplaceAll name "-" "_");
   strings.ToUpper (strings.ReplaceAll name "-" "_")].

(** The configuration of a run in which no input is set. *)
Definition defaultConfig : Config :=
  {| OutputDir := "kustomize-builds"; KustomizeVersion := "v5.8.0";
     KustomizeSHA256 := ""; EnableHelm := true;
     LoadRestrictor := "LoadRestrictionsNone"; WorkingDir := ".";
     BuildAll := false; ChangedOnly := true; FailOnError := false;
     FailFast := false; IgnoreDirs := [""] |}.


(** The checksum the installer compares with the digest: lower case,
    white space trimmed, the [sha256:] prefix and the spaces removed. *)
Definition normalizedChecksum (expected : string) : string :=
  strings.ReplaceAll
    (strings.TrimPrefix (strings.TrimSpace (strings.ToLower expected)) "sha256:")
    " " "".

(** A machine without the tool, on which every step of the download
    succeeds, and the same machine with the tool on the PATH. *)
Definition sampleHost : Host :=
  {| sha256_Sum := fun _ => repeat Byte.x00 32;
     LookPath := fun _ => Err (errorString "executable file not found in $PATH");
     CombinedOutput := fun _ _ => ("", None);
     GOOS := "linux";
     GOARCH := "amd64";
     CreateTemp := Ok "/tmp/kustomize-1.tar.gz";
     NewRequest := fun _ => None;
     Do := fun _ => Ok {| StatusCode := 200; Status := "200 OK"; Body := "archive" |};
     OpenFile := fun _ => None;
     Copy := fun _ _ => None;
     Close := fun _ => None;
     ReadFile := fun _ => Ok "archive";
     MkdirTemp := Ok "/tmp/kustomize-bin-1";
     Getenv := fun _ => "/usr/bin";
     Setenv := fun _ _ => None;
     Chmod := fun _ => None |}.

Definition hostWithTool : Host :=
  {| sha256_Sum := sha256_Sum sampleHost;
     LookPath := fun _ => Ok "/usr/bin/kustomize";
     CombinedOutput := fun _ _ => ("v5.8.0", None);
     GOOS := "linux";
     GOARCH := "amd64";
     CreateTemp := CreateTemp sampleHost;
     NewRequest := NewRequest sampleHost;
     Do := Do sampleHost;
     OpenFile := OpenFile sampleHost;
     Copy := Copy sampleHost;
     Close := Close sampleHost;
     ReadFile := ReadFile sampleHost;
     MkdirTemp := MkdirTemp sampleHost;
     Getenv := Getenv sampleHost;
     Setenv := Setenv sampleHost;
     Chmod := Chmod sampleHost |}.

(** Sixty-four zeros: the digest on the sample machine. *)
Definition zeroDigest : string :=
  hex.EncodeToString (repeat Byte.x00 32).


(** The observations of one kind in a history. *)
Definition isInvoked (o : obs) : bool :=
  match o with ObsInvoked _ _ => true | _ => false end.

Definition isWrote (o : obs) : bool :=
  match o with ObsWrote _ => true | _ => false end.

Definition isRecorded (o : obs) : bool :=
  match o with ObsRecorded _ => true | _ => false end.

Definition times (kind : obs -> bool) (h : list obs) : nat :=
  List.length (filter kind h).


(** The lines of [s], line feeds removed, whatever their length (a
    final empty line is none); [cur] holds the bytes of the line read
    so far. *)
Fixpoint rawLines (s cur : string) : list string :=
  match s with
  | EmptyString => if cur =? "" then [] else [cur]
  | String c s' =>
      if (c =? "010")%char then cur :: rawLines s' ""
      else rawLines s' (cur ++ String c "")
  end.

(** A line that the buffer of the scanner holds together with its line
    feed. *)
Definition fitsScanner (line : string) : bool :=
  (N.of_nat (String.length line) <? MaxScanTokenSize)%N.

(** The elements of a list before the first one that fails a test. *)
Fixpoint takeWhile {A : Type} (f : A -> bool) (l : list A) : list A :=
  match l with
  | [] => []
  | x :: rest => if f x then x :: takeWhile f rest else []
  end.



(* ================================================================= *)
(** * Properties *)

Ltac conjuncts := repeat match goal with |- _ /\ _ => split end.

(** ** The model on small inputs *)

Example Trim_is_a_cutset : strings.Trim "../a.b/." "./" = "a.b".
Proof. reflexivity. Qed.

Example TrimSpace_line : strings.TrimSpace ("  /repo" ++ newline) = "/repo".
Proof. reflexivity. Qed.

Example Split_lines :
  strings.Split ("a/x" ++ newline ++ "b") "010"%char = ["a/x"; "b"].
Proof. reflexivity. Qed.

Example Clean_lexical : filepath.Clean "a/../b//c/." = "b/c".
Proof. reflexivity. Qed.

Example Clean_above_root : filepath.Clean "/../a/../.." = "/".
Proof. reflexivity. Qed.

Example Join_default_output :
  filepath.Join ["./kustomize-builds"; "apps_a_kustomization.yaml"]
  = "kustomize-builds/apps_a_kustomization.yaml".
Proof. reflexivity. Qed.

Example tail_keeps_last_lines :
  tail ("one" ++ newline ++ "two" ++ newline ++ "three" ++ newline) 2
  = "two" ++ newline ++ "three".
Proof. reflexivity. Qed.

Example sanitize_nested : sanitizeOutName "apps/a" = "apps_a".
Proof. reflexivity. Qed.

Example sanitize_dot_slash : sanitizeOutName "./apps/a" = "apps_a".
Proof. reflexivity. Qed.

Example sanitize_absolute : sanitizeOutName "/tmp/x/app" = "tmp_x_app".
Proof. reflexivity. Qed.

Example sanitize_empty : sanitizeOutName "" = "root".
Proof. reflexivity. Qed.

Example errOut_yaml : errOutOf "apps_a_kustomization.yaml" = "apps_a_kustomization-err.yaml".
Proof. reflexivity. Qed.

Example errOut_yml : errOutOf "root_kustomization.yml" = "root_kustomization-err.yml".
Proof. reflexivity. Qed.

(** The scenario of section 8 of the spec, change filtering. *)
Example filtering_empties_selection :
  selectRootsForChangedFiles ["apps/a"; "apps/b"] ["unrelated/file.txt"] = [].
Proof. reflexivity. Qed.

Example filtering_keeps_touched_root :
  selectRootsForChangedFiles ["apps/a"; "apps/b"; "app"]
    ["apps/b/base/deploy.yaml"; "apple/x"] = ["apps/b"].
Proof. reflexivity. Qed.

(** The scenario of section 8 of the spec, fail-fast cancellation: three
    roots started, one fails; one failed with its error artifact, two
    canceled without artifacts. *)
Example fail_fast_scenario :
  let st := stateAfter (sampleConfig false false true) failFastRun
              ["app1"; "app2"; "app3"] sampleFS in
  returned st = true
  /\ summary st = {| Success := 0; Failed := 1; Canceled := 2; Roots := 3;
                     FailedRoots := ["app2"]; CanceledRoots := ["app1"; "app3"] |}
  /\ files st "out/app2_kustomization-err.yaml" = Some "boom"
  /\ map (fun x => snd x)
         (filter (fun x => match snd x with ObsWrote _ => true | _ => false end)
            (trace st))
     = [ObsWrote "out/app2_kustomization-err.yaml"].
Proof. vm_compute. repeat split. Qed.

(** ** Strings *)

Lemma append_nil_r (s : string) : s ++ "" = s.
Proof. induction s as [|c s IH]; simpl; congruence. Qed.

Lemma append_assoc (a b c : string) : (a ++ b) ++ c = a ++ (b ++ c).
Proof. induction a as [|x a IH]; simpl; congruence. Qed.

Lemma length_append (a b : string) : length (a ++ b) = length a + length b.
Proof. induction a as [|x a IH]; simpl; congruence. Qed.

Lemma take_length_append (a b : string) : strings.take (length a) (a ++ b) = a.
Proof. induction a as [|x a IH]; simpl; [destruct b; reflexivity | congruence]. Qed.

Lemma drop_length_append (a b : string) : strings.drop (length a) (a ++ b) = b.
Proof. induction a as [|x a IH]; simpl; auto. Qed.

Lemma drop_add_append (a b : string) (k : nat) :
  strings.drop (length a + k) (a ++ b) = strings.drop k b.
Proof. induction a as [|x a IH]; simpl; auto. Qed.

Lemma take_drop (n : nat) (s : string) :
  strings.take n s ++ strings.drop n s = s.
Proof.
  revert s; induction n as [|n IH]; intros [|c s]; simpl; try reflexivity.
  now rewrite IH.
Qed.


Lemma HasPrefix_nil (s : string) : strings.HasPrefix s "" = true.
Proof. destruct s; reflexivity. Qed.

Lemma HasPrefix_cons (c d : ascii) (s p : string) :
  strings.HasPrefix (String c s) (String d p)
  = (c =? d)%char && strings.HasPrefix s p.
Proof.
  unfold strings.HasPrefix; simpl.
  destruct (c =? d)%char; [reflexivity|]. apply andb_false_r.
Qed.

Lemma HasPrefix_empty (d : ascii) (p : string) :
  strings.HasPrefix "" (String d p) = false.
Proof. reflexivity. Qed.

Lemma HasPrefix_iff (s p : string) :
  strings.HasPrefix s p = true <-> startsWith s p.
Proof.
  revert s; induction p as [|d p IH]; intros s.
  - rewrite HasPrefix_nil. split; auto. intros _. now exists s.
  - destruct s as [|c s].
    + rewrite HasPrefix_empty. split; [discriminate|].
      intros [r H]; discriminate.
    + rewrite HasPrefix_cons, andb_true_iff, Ascii.eqb_eq, IH.
      split.
      * intros [-> [r ->]]. now exists r.
      * intros [r H]. simpl in H. injection H as -> ->. split; auto.
        now exists r.
Qed.

Lemma HasSuffix_append (s suf : string) :
  strings.HasSuffix (s ++ suf) suf = true.
Proof.
  unfold strings.HasSuffix. rewrite length_append.
  replace (length s + length suf - length suf) with (length s) by lia.
  rewrite drop_length_append, String.eqb_refl, andb_true_r.
  apply Nat.leb_le. lia.
Qed.

Lemma TrimSuffix_append (s suf : string) :
  strings.TrimSuffix (s ++ suf) suf = s.
Proof.
  unfold strings.TrimSuffix. rewrite HasSuffix_append, length_append.
  replace (length s + length suf - length suf) with (length s) by lia.
  apply take_length_append.
Qed.

(** A suffix no longer than the second part is looked for in that part
    alone. *)
Lemma HasSuffix_append_short (s t suf : string) :
  length suf <= length t ->
  strings.HasSuffix (s ++ t) suf = strings.HasSuffix t suf.
Proof.
  intros L. unfold strings.HasSuffix. rewrite length_append.
  replace (length s + length t - length suf)
    with (length s + (length t - length suf)) by lia.
  rewrite drop_add_append.
  replace (length suf <=? length s + length t)%nat with true
    by (symmetry; apply Nat.leb_le; lia).
  replace (length suf <=? length t)%nat with true
    by (symmetry; apply Nat.leb_le; lia).
  reflexivity.
Qed.

Lemma HasSuffix_iff (s suf : string) :
  strings.HasSuffix s suf = true <-> exists front, s = front ++ suf.
Proof.
  split.
  - unfold strings.HasSuffix. rewrite andb_true_iff, String.eqb_eq.
    intros [_ H]. exists (strings.take (length s - length suf) s).
    set (k := length s - length suf) in *.
    rewrite <- H. symmetry. apply take_drop.
  - intros [front ->]. apply HasSuffix_append.
Qed.

(** Replacing one byte by another is a byte-wise map. *)
Lemma ReplaceAll_byte (a b : ascii) (s : string) :
  strings.ReplaceAll s (String a "") (String b "")
  = strings.mapBytes (swapByte a b) s.
Proof.
  unfold strings.ReplaceAll.
  induction s as [|c s IH]; [reflexivity|].
  cbn [strings.replaceFrom strings.mapBytes].
  rewrite HasPrefix_cons, HasPrefix_nil, andb_true_r.
  unfold swapByte at 1. cbn [length Nat.sub].
  destruct (c =? a)%char; cbn; now rewrite IH.
Qed.

Lemma mapBytes_same (a : ascii) (s : string) :
  strings.mapBytes (swapByte a a) s = s.
Proof.
  induction s as [|c s IH]; simpl; [reflexivity|].
  rewrite IH. unfold swapByte.
  destruct (Ascii.eqb_spec c a); congruence.
Qed.

(** ** [strings.Trim] *)

Lemma headOutside_trimLeft (cut s : string) :
  headOutside cut (strings.trimLeftASCII s cut) = true.
Proof.
  induction s as [|c s IH]; simpl; [reflexivity|].
  destruct (strings.inCutset c cut) eqn:E; [assumption|].
  simpl. now rewrite E.
Qed.

Lemma lastOutside_trimRight (cut s : string) :
  lastOutside cut (strings.trimRightASCII s cut) = true.
Proof.
  induction s as [|c s IH]; simpl; [reflexivity|].
  destruct (strings.trimRightASCII s cut) as [|d r] eqn:E.
  - destruct (strings.inCutset c cut) eqn:Ec; simpl; [reflexivity|].
    now rewrite Ec.
  - exact IH.
Qed.

Lemma lastOutside_cons (cut : string) (c : ascii) (s : string) :
  lastOutside cut (String c s) = true -> lastOutside cut s = true.
Proof. destruct s; simpl; auto. Qed.

Lemma lastOutside_trimLeft (cut s : string) :
  lastOutside cut s = true ->
  lastOutside cut (strings.trimLeftASCII s cut) = true.
Proof.
  induction s as [|c s IH]; intros H; [reflexivity|].
  cbn [strings.trimLeftASCII].
  destruct (strings.inCutset c cut); [|assumption].
  apply IH. eapply lastOutside_cons; eassumption.
Qed.

Lemma trimLeft_fixed (cut s : string) :
  headOutside cut s = true -> strings.trimLeftASCII s cut = s.
Proof.
  destruct s as [|c s]; simpl; [reflexivity|].
  now destruct (strings.inCutset c cut).
Qed.

Lemma trimRight_fixed (cut s : string) :
  lastOutside cut s = true -> strings.trimRightASCII s cut = s.
Proof.
  induction s as [|c s IH]; intros H; [reflexivity|].
  cbn [strings.trimRightASCII].
  destruct s as [|d s'].
  - simpl in *. now destruct (strings.inCutset c cut).
  - rewrite IH by (eapply lastOutside_cons; eassumption). reflexivity.
Qed.

Lemma Trim_ends (cut s : string) :
  headOutside cut (strings.Trim s cut) = true
  /\ lastOutside cut (strings.Trim s cut) = true.
Proof.
  unfold strings.Trim. split.
  - apply headOutside_trimLeft.
  - apply lastOutside_trimLeft, lastOutside_trimRight.
Qed.

Lemma Trim_fixed (cut s : string) :
  headOutside cut s = true -> lastOutside cut s = true ->
  strings.Trim s cut = s.
Proof.
  intros Hh Hl. unfold strings.Trim.
  rewrite (trimRight_fixed _ _ Hl). now apply trimLeft_fixed.
Qed.

Lemma Trim_fixed_ends (cut s : string) :
  strings.Trim s cut = s ->
  headOutside cut s = true /\ lastOutside cut s = true.
Proof. intros H. rewrite <- H. apply Trim_ends. Qed.

(** A byte map that sends no byte into the cutset keeps the two ends
    outside of it. *)
Lemma headOutside_mapBytes (cut : string) (f : ascii -> ascii) (s : string) :
  (forall c, strings.inCutset (f c) cut = true -> strings.inCutset c cut = true) ->
  headOutside cut s = true -> headOutside cut (strings.mapBytes f s) = true.
Proof.
  intros Hf. destruct s as [|c s]; simpl; [reflexivity|].
  intros H. destruct (strings.inCutset (f c) cut) eqn:E; [|reflexivity].
  apply Hf in E. now rewrite E in H.
Qed.

Lemma lastOutside_mapBytes (cut : string) (f : ascii -> ascii) (s : string) :
  (forall c, strings.inCutset (f c) cut = true -> strings.inCutset c cut = true) ->
  lastOutside cut s = true -> lastOutside cut (strings.mapBytes f s) = true.
Proof.
  intros Hf. induction s as [|c s IH]; [reflexivity|].
  destruct s as [|d s'].
  - simpl. intros H. destruct (strings.inCutset (f c) cut) eqn:E; [|reflexivity].
    apply Hf in E. now rewrite E in H.
  - intros H. apply IH. exact H.
Qed.

(** ** [sanitizeOutName] *)

Lemma slashToUnderscore_cutset (c : ascii) :
  strings.inCutset (slashToUnderscore c) "./" = true ->
  strings.inCutset c "./" = true.
Proof.
  unfold slashToUnderscore, swapByte.
  destruct (c =? "/")%char eqn:E; [|auto].
  intros _. cbn [strings.inCutset]. rewrite E. now rewrite orb_true_r.
Qed.

Lemma TrimPrefix_slash_fixed (s : string) :
  headOutside "./" s = true -> strings.TrimPrefix s "/" = s.
Proof.
  unfold strings.TrimPrefix. destruct s as [|c s]; [reflexivity|].
  rewrite HasPrefix_cons, HasPrefix_nil, andb_true_r. simpl.
  destruct (c =? "/")%char; [|reflexivity].
  rewrite orb_true_r. discriminate.
Qed.

(** The name, with the two no-op calls removed: the bytes of the cutset
    are trimmed at both ends and every [/] left becomes [_]. *)
Lemma sanitizeOutName_eq (dir : string) :
  sanitizeOutName dir
  = let u := strings.mapBytes slashToUnderscore (strings.Trim dir "./") in
    if u =? "" then "root" else u.
Proof.
  unfold sanitizeOutName, filepath.Separator.
  rewrite TrimPrefix_slash_fixed by apply Trim_ends.
  rewrite (ReplaceAll_byte "/" "/"), mapBytes_same.
  rewrite (ReplaceAll_byte "/" "_"). reflexivity.
Qed.

Lemma sanitizeOutName_trimmed (d : string) :
  strings.Trim d "./" = d ->
  sanitizeOutName d
  = if d =? "" then "root" else strings.mapBytes slashToUnderscore d.
Proof.
  intros H. rewrite sanitizeOutName_eq, H. cbv zeta.
  destruct d; reflexivity.
Qed.


(** A name that is a trimmed path under a byte map is a fixed point of
    the naming, when the map sends no byte into the cutset, is
    idempotent and keeps [root]. *)
Lemma trimmed_map_idempotent (f : ascii -> ascii) (san : string -> string) :
  (forall d, san d
             = let u := strings.mapBytes f (strings.Trim d "./") in
               if u =? "" then "root" else u) ->
  (forall c, strings.inCutset (f c) "./" = true -> strings.inCutset c "./" = true) ->
  (forall c, f (f c) = f c) ->
  strings.mapBytes f "root" = "root" ->
  forall d, san (san d) = san d.
Proof.
  intros Hsan Hcut Hidem Hroot d.
  assert (Hmap : forall s, strings.mapBytes f (strings.mapBytes f s)
                           = strings.mapBytes f s).
  { induction s as [|c s IH]; simpl; [reflexivity|]. now rewrite IH, Hidem. }
  rewrite (Hsan d). cbv zeta.
  set (u := strings.mapBytes f (strings.Trim d "./")).
  destruct (u =? "") eqn:E.
  - rewrite Hsan. cbv zeta.
    replace (strings.Trim "root" "./") with "root" by reflexivity.
    now rewrite Hroot.
  - assert (Hh : headOutside "./" u = true).
    { apply headOutside_mapBytes; [exact Hcut | apply Trim_ends]. }
    assert (Hl : lastOutside "./" u = true).
    { apply lastOutside_mapBytes; [exact Hcut | apply Trim_ends]. }
    rewrite Hsan. cbv zeta. rewrite (Trim_fixed _ _ Hh Hl).
    unfold u at 1 2. rewrite Hmap. fold u. now rewrite E.
Qed.

(** C9: sanitizing an artifact name again gives the same name,
    [sanitizeOutName (sanitizeOutName d) = sanitizeOutName d] for every
    directory string [d]. *)
Theorem sanitizeOutName_idempotent (d : string) :
  sanitizeOutName (sanitizeOutName d) = sanitizeOutName d.
Proof.
  revert d. apply (trimmed_map_idempotent slashToUnderscore).
  - exact sanitizeOutName_eq.
  - exact slashToUnderscore_cutset.
  - intros c. unfold slashToUnderscore, swapByte.
    destruct (Ascii.eqb_spec c "/") as [->|N]; [reflexivity|].
    apply Ascii.eqb_neq in N. now rewrite N.
  - reflexivity.
Qed.

(** The same holds of the name as computed on Windows. *)
Lemma sanitizeOutNameWindows_idempotent (d : string) :
  sanitizeOutNameWindows (sanitizeOutNameWindows d) = sanitizeOutNameWindows d.
Proof.
  revert d. apply (trimmed_map_idempotent separatorsToUnderscore).
  - intros d. unfold sanitizeOutNameWindows.
    rewrite TrimPrefix_slash_fixed by apply Trim_ends.
    rewrite (ReplaceAll_byte "092" "/"), (ReplaceAll_byte "/" "_").
    fold slashToUnderscore. cbv zeta.
    assert (M : forall s, strings.mapBytes slashToUnderscore
                            (strings.mapBytes (swapByte "092" "/") s)
                          = strings.mapBytes separatorsToUnderscore s).
    { induction s as [|c s IH]; simpl; [reflexivity|]. now rewrite IH. }
    now rewrite M.
  - intros c. unfold separatorsToUnderscore, slashToUnderscore, swapByte.
    destruct (Ascii.eqb_spec c "092") as [->|N1]; [discriminate|].
    destruct (Ascii.eqb_spec c "/") as [->|N2]; [reflexivity|]. auto.
  - intros c. unfold separatorsToUnderscore, slashToUnderscore, swapByte.
    destruct (Ascii.eqb_spec c "092") as [->|N1]; [reflexivity|].
    destruct (Ascii.eqb_spec c "/") as [->|N2]; [reflexivity|].
    apply Ascii.eqb_neq in N1, N2. now rewrite N1, N2.
  - reflexivity.
Qed.




(** ** Artifact paths *)

Lemma errOutOf_yaml (x : string) :
  errOutOf (x ++ "_kustomization.yaml") = x ++ "_kustomization-err.yaml".
Proof.
  unfold errOutOf.
  change "_kustomization.yaml" with ("_kustomization" ++ ".yaml").
  rewrite <- append_assoc, TrimSuffix_append, HasSuffix_append.
  unfold strings.TrimSuffix.
  rewrite HasSuffix_append_short by (simpl; lia).
  replace (strings.HasSuffix "_kustomization" ".yml") with false by reflexivity.
  rewrite append_assoc. reflexivity.
Qed.

Lemma errOutOf_yml (x : string) :
  errOutOf (x ++ "_kustomization.yml") = x ++ "_kustomization-err.yml".
Proof.
  unfold errOutOf.
  assert (H1 : strings.HasSuffix (x ++ "_kustomization.yml") ".yaml" = false).
  { rewrite HasSuffix_append_short by (simpl; lia). reflexivity. }
  assert (H2 : strings.TrimSuffix (x ++ "_kustomization.yml") ".yaml"
               = x ++ "_kustomization.yml").
  { unfold strings.TrimSuffix. now rewrite H1. }
  rewrite H1, H2.
  change "_kustomization.yml" with ("_kustomization" ++ ".yml").
  rewrite <- append_assoc, TrimSuffix_append, append_assoc. reflexivity.
Qed.


(** The output of a successful invocation goes to
    [{outputDir}/{sanitizeOutName dir}_{fileName}]. *)
Lemma success_artifact (wo : WriteOracle) (ctxErr : option error)
    (dir outputDir fileName : string) (r : runResult) (fs : FS) :
  run_err r = None ->
  let res := afterRunner wo ctxErr dir outputDir fileName r fs in
  let outPath := filepath.Join [outputDir; sanitizeOutName dir ++ "_" ++ fileName] in
  b_written res = [outPath]
  /\ (wo outPath = None ->
      b_err res = None /\ b_fs res outPath = Some (run_stdout r)).
Proof.
  intros Hr. unfold afterRunner, outNameOf, WriteFile. rewrite Hr. cbv zeta.
  destruct (wo _) eqn:W; cbn.
  - split; [reflexivity | discriminate].
  - split; [reflexivity|]. intros _. now rewrite String.eqb_refl.
Qed.

(** The error stream of a failed invocation goes to the same name with
    [-err] before the extension. *)
Lemma failure_artifact (wo : WriteOracle) (ctxErr : option error)
    (dir outputDir : string) (r : runResult) (fs : FS) (e : error) :
  run_err r = Some e -> is_Canceled ctxErr = false ->
  let yaml := afterRunner wo ctxErr dir outputDir "kustomization.yaml" r fs in
  let yml := afterRunner wo ctxErr dir outputDir "kustomization.yml" r fs in
  let yamlPath :=
    filepath.Join [outputDir; sanitizeOutName dir ++ "_kustomization-err.yaml"] in
  let ymlPath :=
    filepath.Join [outputDir; sanitizeOutName dir ++ "_kustomization-err.yml"] in
  b_written yaml = [yamlPath] /\ b_written yml = [ymlPath]
  /\ (wo yamlPath = None -> b_fs yaml yamlPath = Some (run_stderr r))
  /\ (wo ymlPath = None -> b_fs yml ymlPath = Some (run_stderr r)).
Proof.
  intros Hr Hc. unfold afterRunner, outNameOf. rewrite Hr, Hc. cbv zeta.
  rewrite errOutOf_yaml, errOutOf_yml. unfold WriteFile.
  repeat split.
  - now destruct (wo _).
  - now destruct (wo _).
  - intros ->. cbn. now rewrite String.eqb_refl.
  - intros ->. cbn. now rewrite String.eqb_refl.
Qed.

(** On a root that neither begins nor ends with [.] or [/] the name is
    the one the spec describes. *)
Lemma sanitizeOutName_meets_spec (d : string) :
  strings.Trim d "./" = d -> sanitizeOutName d = sanitizedRootSpec d.
Proof.
  intros H. destruct (Trim_fixed_ends _ _ H) as [Hh _].
  rewrite (sanitizeOutName_trimmed _ H). unfold sanitizedRootSpec.
  assert (P : strings.TrimPrefix d "./" = d).
  { unfold strings.TrimPrefix. destruct d as [|c d]; [reflexivity|].
    rewrite HasPrefix_cons. simpl in Hh.
    destruct (c =? ".")%char; [discriminate | reflexivity]. }
  rewrite P, (TrimPrefix_slash_fixed _ Hh), (ReplaceAll_byte "/" "_").
  fold slashToUnderscore. destruct d; reflexivity.
Qed.

(** C4: the artifact of the hidden directory [.github/app].  The code
    writes [out/github_app_kustomization.yaml] (and, on a failed
    invocation, [out/github_app_kustomization-err.yaml]): [strings.Trim]
    with the cutset [./] drops the dot of the directory name.  Trimming a
    leading [./] and [/], as the spec has it, gives
    [out/.github_app_kustomization.yaml]. *)
Theorem hidden_root_artifact_name :
  let fs : FS := fun p =>
    if p =? ".github/app/kustomization.yaml" then Some "resources: []" else None in
  let ok : runCommandFunc := fun _ _ => rendered in
  let ko : runCommandFunc := fun _ _ => exitOne in
  let build := buildKustomization neverDenied None ".github/app" "out"
                 "LoadRestrictionsNone" false "kustomize" in
  b_written (build ok fs) = ["out/github_app_kustomization.yaml"]
  /\ b_fs (build ok fs) "out/github_app_kustomization.yaml" = Some "kind: List"
  /\ b_fs (build ok fs) "out/.github_app_kustomization.yaml" = None
  /\ b_written (build ko fs) = ["out/github_app_kustomization-err.yaml"]
  /\ b_fs (build ko fs) "out/github_app_kustomization-err.yaml" = Some "boom"
  /\ filepath.Join ["out"; sanitizedRootSpec ".github/app" ++ "_" ++ "kustomization.yaml"]
     = "out/.github_app_kustomization.yaml"
  /\ sanitizeOutName ".github/app" = sanitizeOutName "github/app".
Proof. vm_compute. repeat split. Qed.

(** *** The artifact path, spelled out

    [filepath.Join] cleans the joined path; under an output directory
    that is clean already (and is not [.] or [/]) the artifact is at
    [outputDir + "/" + name]. *)

Lemma splitByte_append (a b : string) (sep : ascii) (cur : string) :
  strings.splitByte (a ++ String sep b) sep cur
  = (strings.splitByte a sep cur ++ strings.splitByte b sep "")%list.
Proof.
  revert cur; induction a as [|c a IH]; intros cur; simpl.
  - now rewrite Ascii.eqb_refl.
  - destruct (c =? sep)%char; simpl; now rewrite IH.
Qed.

Lemma splitByte_free (s : string) (sep : ascii) (cur : string) :
  freeOf sep s = true -> strings.splitByte s sep cur = [cur ++ s].
Proof.
  revert cur; induction s as [|c s IH]; intros cur; simpl.
  - now rewrite append_nil_r.
  - rewrite andb_true_iff, negb_true_iff. intros [-> H].
    rewrite (IH _ H), append_assoc. reflexivity.
Qed.

Lemma cleanElems_app (rooted : bool) (a b stack : list string) :
  filepath.cleanElems rooted (a ++ b) stack
  = filepath.cleanElems rooted b (rev (filepath.cleanElems rooted a stack)).
Proof.
  revert stack; induction a as [|e a IH]; intros stack; simpl.
  - now rewrite rev_involutive.
  - destruct ((e =? "") || (e =? ".")); [apply IH|].
    destruct (e =? ".."); [|apply IH].
    destruct stack as [|top below]; [destruct rooted; apply IH|].
    destruct (top =? ".."); apply IH.
Qed.

Lemma Join_snoc (l : list string) (x sep : string) :
  l <> [] -> strings.Join (l ++ [x]) sep = strings.Join l sep ++ sep ++ x.
Proof.
  induction l as [|e l IH]; [congruence|]. intros _.
  destruct l as [|e' l]; [reflexivity|].
  change (strings.Join ((e :: e' :: l) ++ [x]) sep)
    with (e ++ sep ++ strings.Join ((e' :: l) ++ [x]) sep).
  rewrite IH by discriminate.
  change (strings.Join (e :: e' :: l) sep)
    with (e ++ sep ++ strings.Join (e' :: l) sep).
  now rewrite !append_assoc.
Qed.

Lemma Clean_child (dir name : string) :
  filepath.Clean dir = dir -> dir <> "." -> dir <> "/" ->
  freeOf "/" name = true -> 3 <= length name ->
  filepath.Clean (dir ++ "/" ++ name) = dir ++ "/" ++ name.
Proof.
  intros Hc Hdot Hroot Hfree Hlen.
  assert (Hne : dir <> "").
  { intros ->. now compute in Hc. }
  assert (Hrooted : strings.HasPrefix (dir ++ "/" ++ name) "/"
                    = strings.HasPrefix dir "/").
  { destruct dir as [|c dir]; [congruence|].
    simpl. now rewrite !HasPrefix_cons, !HasPrefix_nil. }
  assert (Hordinary : (name =? "") || (name =? ".") = false /\ (name =? "..") = false).
  { destruct name as [|a [|b [|c name]]]; simpl in Hlen; try lia.
    split; simpl.
    - destruct (a =? ".")%char; reflexivity.
    - destruct (a =? ".")%char; [|reflexivity].
      destruct (b =? ".")%char; reflexivity. }
  destruct Hordinary as [O1 O2].
  unfold filepath.Clean in *. rewrite Hrooted.
  set (rooted := strings.HasPrefix dir "/") in *.
  unfold strings.Split in *. simpl (dir ++ "/" ++ name).
  rewrite splitByte_append, (splitByte_free name "/" "" Hfree), cleanElems_app.
  set (L := filepath.cleanElems rooted (strings.splitByte dir "/" "") []) in *.
  simpl. rewrite O1, O2. simpl. rewrite rev_involutive.
  destruct L as [|e L].
  - exfalso. simpl in Hc. destruct rooted; simpl in Hc; congruence.
  - rewrite Join_snoc by discriminate.
    set (body := strings.Join (e :: L) "/") in *.
    assert (Ho : (if rooted then "/" ++ body else body) = dir).
    { destruct ((if rooted then "/" ++ body else body) =? "") eqn:E;
        [congruence | assumption]. }
    assert (Hout : (if rooted then "/" ++ (body ++ "/" ++ name)
                    else body ++ "/" ++ name) = dir ++ "/" ++ name).
    { rewrite <- Ho. destruct rooted; [|reflexivity].
      now rewrite !append_assoc. }
    simpl in Hout. simpl. rewrite Hout. destruct dir; [congruence | reflexivity].
Qed.

Lemma freeOf_append (c : ascii) (a b : string) :
  freeOf c (a ++ b) = freeOf c a && freeOf c b.
Proof.
  induction a as [|x a IH]; simpl; [reflexivity|].
  now rewrite IH, andb_assoc.
Qed.

Lemma sanitizeOutName_no_slash (dir : string) :
  freeOf "/" (sanitizeOutName dir) = true.
Proof.
  rewrite sanitizeOutName_eq. cbv zeta.
  destruct (_ =? ""); [reflexivity|].
  generalize (strings.Trim dir "./") as s.
  induction s as [|c s IH]; simpl; [reflexivity|].
  rewrite IH, andb_true_r. unfold slashToUnderscore, swapByte.
  destruct (Ascii.eqb_spec c "/") as [->|N]; [reflexivity|].
  apply negb_true_iff. now apply Ascii.eqb_neq.
Qed.

(** Under a clean output directory the four artifacts are at the paths
    of the spec (section 6), with [sanitizeOutName] for the sanitized
    root. *)
Lemma artifact_paths (outputDir dir : string) :
  filepath.Clean outputDir = outputDir -> outputDir <> "." -> outputDir <> "/" ->
  let name := sanitizeOutName dir in
  filepath.Join [outputDir; outNameOf dir "kustomization.yaml"]
  = outputDir ++ "/" ++ name ++ "_kustomization.yaml"
  /\ filepath.Join [outputDir; outNameOf dir "kustomization.yml"]
     = outputDir ++ "/" ++ name ++ "_kustomization.yml"
  /\ filepath.Join [outputDir; errOutOf (outNameOf dir "kustomization.yaml")]
     = outputDir ++ "/" ++ name ++ "_kustomization-err.yaml"
  /\ filepath.Join [outputDir; errOutOf (outNameOf dir "kustomization.yml")]
     = outputDir ++ "/" ++ name ++ "_kustomization-err.yml".
Proof.
  intros Hc Hdot Hroot name.
  assert (Hne : (outputDir =? "") = false).
  { apply String.eqb_neq. intros ->. now compute in Hc. }
  assert (J : forall suffix,
             freeOf "/" suffix = true -> 3 <= length suffix ->
             filepath.Join [outputDir; name ++ suffix]
             = outputDir ++ "/" ++ name ++ suffix).
  { intros suffix Hf Hl. unfold filepath.Join. rewrite Hne.
    change (strings.Join [outputDir; name ++ suffix] "/")
      with (outputDir ++ "/" ++ name ++ suffix).
    apply Clean_child; auto.
    - unfold name. now rewrite freeOf_append, sanitizeOutName_no_slash.
    - rewrite length_append. lia. }
  unfold outNameOf. fold name.
  change ("_" ++ "kustomization.yaml") with "_kustomization.yaml".
  change ("_" ++ "kustomization.yml") with "_kustomization.yml".
  rewrite errOutOf_yaml, errOutOf_yml.
  conjuncts; apply J; try reflexivity; simpl; lia.
Qed.

(** ** Exclusions *)

(** The paths kept by the loop of [getChangedFilesLastCommitWithExclusions]
    are the normalized, non-empty lines that are not excluded. *)
Lemma collectPaths_In (norm : string -> string) (exclusions lines : list string)
    (p : string) :
  In p (collectPaths norm exclusions lines) <->
  p <> "" /\ (exists l, In l lines /\ norm l = p)
  /\ isPathExcluded p exclusions = false.
Proof.
  unfold collectPaths.
  assert (G : forall seen paths,
             (forall x, In x seen <-> In x paths) ->
             In p (snd (fold_left
                          (fun (acc : list string * list string) (l : string) =>
                             let (seen, paths) := acc in
                             let q := norm l in
                             if q =? "" then acc
                             else if negb (existsb (String.eqb q) seen) then
                               if negb (isPathExcluded q exclusions)
                               then (q :: seen, app paths [q])
                               else acc
                             else acc)
                          lines (seen, paths)))
             <-> In p paths
                 \/ (p <> "" /\ (exists l, In l lines /\ norm l = p)
                     /\ isPathExcluded p exclusions = false)).
  { induction lines as [|l lines IH]; intros seen paths Hs; simpl.
    - split; [auto | intros [H|[_ [[l [[] _]] _]]]; exact H].
    - destruct (String.eqb_spec (norm l) "") as [E0|N0].
      { rewrite (IH _ _ Hs). split; intros [H|[H1 [[l' [Hl Hn]] H3]]]; auto.
        - right. conjuncts; eauto.
        - destruct Hl as [<-|Hl]; [congruence|]. right. conjuncts; eauto. }
      destruct (existsb (String.eqb (norm l)) seen) eqn:Ex; simpl.
      { apply existsb_exists in Ex. destruct Ex as [x [Hx Ex]].
        apply String.eqb_eq in Ex. subst x. apply Hs in Hx.
        rewrite (IH _ _ Hs). split; intros [H|[H1 [[l' [Hl Hn]] H3]]]; auto.
        - right. conjuncts; eauto.
        - destruct Hl as [<-|Hl]; [subst p; now left|]. right. conjuncts; eauto. }
      destruct (isPathExcluded (norm l) exclusions) eqn:Xc; simpl.
      { rewrite (IH _ _ Hs). split; intros [H|[H1 [[l' [Hl Hn]] H3]]]; auto.
        - right. conjuncts; eauto.
        - destruct Hl as [<-|Hl]; [congruence|]. right. conjuncts; eauto. }
      rewrite IH.
      + rewrite in_app_iff. simpl.
        split; intros [H|[H1 [[l' [Hl Hn]] H3]]]; auto.
        * destruct H as [H|[<-|[]]]; auto. right. conjuncts; eauto.
        * right. conjuncts; eauto.
        * destruct Hl as [<-|Hl]; [subst p; auto|]. right. conjuncts; eauto.
      + intros x. simpl. rewrite in_app_iff, Hs. simpl. tauto. }
  rewrite G by tauto. simpl. tauto.
Qed.

(** C5: a path is excluded iff some exclusion string, with one trailing
    [/] trimmed, is the path itself or is followed in the path by [/]:
    whole components match, substrings do not.  The exclusion [vendor]
    excludes [vendor/lib.go] and [vendor/dep/lib.go], not
    [vendoring/x.go].  The changed set holds the normalized non-empty
    lines of the diff that are not excluded. *)
Theorem isPathExcluded_iff :
  (forall (P : string) (exclusions : list string),
      isPathExcluded P exclusions = true <->
      exists E, In E exclusions
                /\ (P = strings.TrimSuffix E "/"
                    \/ startsWith P (strings.TrimSuffix E "/" ++ "/")))
  /\ isPathExcluded "vendor/lib.go" ["vendor"] = true
  /\ isPathExcluded "vendor/dep/lib.go" ["vendor"] = true
  /\ isPathExcluded "vendoring/x.go" ["vendor"] = false
  /\ (forall (norm : string -> string) (exclusions lines : list string)
             (P : string),
         In P (collectPaths norm exclusions lines) <->
         P <> "" /\ (exists l, In l lines /\ norm l = P)
         /\ isPathExcluded P exclusions = false).
Proof.
  split; [|conjuncts; try reflexivity; apply collectPaths_In].
  intros P exclusions. induction exclusions as [|E rest IH].
  - simpl. split; [discriminate | intros [E [[] _]]].
  - cbn [isPathExcluded].
    destruct ((P =? strings.TrimSuffix E "/")
              || strings.HasPrefix P (strings.TrimSuffix E "/" ++ "/")) eqn:H.
    + split; [intros _ | reflexivity].
      exists E. split; [now left|].
      apply orb_true_iff in H. destruct H as [H|H].
      * left. now apply String.eqb_eq.
      * right. now apply HasPrefix_iff.
    + rewrite IH. apply orb_false_iff in H. destruct H as [H1 H2].
      split.
      * intros [E' [Hin HE']]. exists E'. split; [now right | assumption].
      * intros [E' [[<-|Hin] HE']].
        -- exfalso. destruct HE' as [->|HE'].
           ++ now rewrite String.eqb_refl in H1.
           ++ apply HasPrefix_iff in HE'. congruence.
        -- exists E'. split; assumption.
Qed.

(** The trimming of an exclusion removes exactly one trailing [/]. *)
Lemma TrimSuffix_slash (E : string) :
  (strings.HasSuffix E "/" = true /\ E = strings.TrimSuffix E "/" ++ "/")
  \/ (strings.HasSuffix E "/" = false /\ strings.TrimSuffix E "/" = E).
Proof.
  destruct (strings.HasSuffix E "/") eqn:H; [left | right]; split; auto.
  - apply HasSuffix_iff in H. destruct H as [front ->].
    now rewrite TrimSuffix_append.
  - unfold strings.TrimSuffix. now rewrite H.
Qed.

(** ** The change-set filter *)

Lemma rootAffectedBy_iff (R P : string) :
  rootAffectedBy R P = true <-> P = R \/ startsWith P (R ++ "/").
Proof.
  unfold rootAffectedBy.
  now rewrite orb_true_iff, String.eqb_eq, HasPrefix_iff.
Qed.

Lemma subsequence_filter {A : Type} (f : A -> bool) (l : list A) :
  subsequence (filter f l) l.
Proof.
  induction l as [|x l IH]; simpl; [constructor|].
  destruct (f x); [now apply subseq_keep | now apply subseq_skip].
Qed.

Lemma subsequence_filter_max {A : Type} (f : A -> bool) (k l : list A) :
  subsequence k l -> forallb f k = true -> subsequence k (filter f l).
Proof.
  induction 1 as [|x k l _ IH|x k l _ IH]; simpl; intros Hk.
  - constructor.
  - destruct (f x); [apply subseq_skip|]; auto.
  - apply andb_true_iff in Hk. destruct Hk as [Hx Hk]. rewrite Hx.
    apply subseq_keep. auto.
Qed.

(** C8: the selected roots are an order-preserving subsequence of the
    roots, hold exactly the roots [R] for which some changed path is [R]
    or starts with [R/] (every one of them: any subsequence of such
    roots is within the selection), and are none when nothing changed. *)
Theorem selectRootsForChangedFiles_spec (roots changed : list string) :
  subsequence (selectRootsForChangedFiles roots changed) roots
  /\ (forall R, In R (selectRootsForChangedFiles roots changed) <->
                In R roots
                /\ exists P, In P changed /\ (P = R \/ startsWith P (R ++ "/")))
  /\ (forall kept, subsequence kept roots ->
                   (forall R, In R kept ->
                              exists P, In P changed
                                        /\ (P = R \/ startsWith P (R ++ "/"))) ->
                   subsequence kept (selectRootsForChangedFiles roots changed))
  /\ selectRootsForChangedFiles roots [] = [].
Proof.
  unfold selectRootsForChangedFiles. repeat split.
  - apply subsequence_filter.
  - now apply filter_In in H.
  - apply filter_In in H. destruct H as [_ H].
    apply existsb_exists in H. destruct H as [P [HP HA]].
    exists P. split; [assumption | now apply rootAffectedBy_iff].
  - intros [Hin [P [HP HA]]]. apply filter_In. split; [assumption|].
    apply existsb_exists. exists P. split; [assumption|].
    now apply rootAffectedBy_iff.
  - intros kept Hsub Hall. apply subsequence_filter_max; [assumption|].
    apply forallb_forall. intros R HR.
    destruct (Hall R HR) as [P [HP HA]].
    apply existsb_exists. exists P. split; [assumption|].
    now apply rootAffectedBy_iff.
  - induction roots as [|R roots IH]; simpl; auto.
Qed.

(** ** [Run] *)

(** When [HEAD~1] cannot be resolved the error names it and the
    [fetch-depth] remedy, whatever git printed. *)
Lemma verifyHasParentCommit_message (git : GitOracle) (repoRoot : string) (e : error) :
  run_err (git repoRoot ["rev-parse"; "--verify"; "--quiet"; "HEAD~1"]) = Some e ->
  exists msg,
    verifyHasParentCommit git repoRoot = Some (errorString msg)
    /\ strings.Contains msg "HEAD~1" = true
    /\ strings.Contains msg "fetch-depth" = true
    /\ strings.Contains ("changed-only mode failed: " ++ msg) "HEAD~1" = true
    /\ strings.Contains ("changed-only mode failed: " ++ msg) "fetch-depth" = true.
Proof.
  intros H. unfold verifyHasParentCommit, gitOutput. rewrite H.
  match goal with
  | |- context [if ?b then Err (errorString ?m1) else Err (errorString ?m2)] =>
      set (inner := if b then m1 else m2);
      replace (if b then Err (errorString m1) else Err (errorString m2))
        with (@Err string (errorString inner)) by (unfold inner; now destruct b)
  end.
  cbn [Error]. eexists. split; [reflexivity|].
  (* the two words stand in the fixed part of the message *)
  repeat split.
Qed.

Lemma getChangedFilesLastCommit_no_parent
    (norm : string -> string) (git : GitOracle) (startDir : string) (e : error) :
  let top := git startDir ["rev-parse"; "--show-toplevel"] in
  let repoRoot := strings.TrimSpace (run_stdout top) in
  run_err top = None -> repoRoot <> "" ->
  run_err (git repoRoot ["rev-parse"; "--verify"; "--quiet"; "HEAD~1"]) = Some e ->
  exists msg,
    getChangedFilesLastCommit norm git startDir = Err (errorString msg)
    /\ strings.Contains msg "HEAD~1" = true
    /\ strings.Contains msg "fetch-depth" = true
    /\ strings.Contains ("changed-only mode failed: " ++ msg) "HEAD~1" = true
    /\ strings.Contains ("changed-only mode failed: " ++ msg) "fetch-depth" = true.
Proof.
  intros top repoRoot Htop Hroot Hparent.
  destruct (verifyHasParentCommit_message git repoRoot e Hparent)
    as [msg [Hv Hmsg]].
  exists msg. split; [|exact Hmsg].
  unfold getChangedFilesLastCommit, getChangedFilesLastCommitWithExclusions,
    gitRepoRoot.
  unfold gitOutput at 1. fold top. rewrite Htop. fold repoRoot.
  apply String.eqb_neq in Hroot. rewrite Hroot, Hv. reflexivity.
Qed.

(** [Run] either stops with an error before the builder is called, or
    calls it once, reports, and fails exactly when a root failed and
    [FailOnError] is set. *)
Lemma Run_outcome (world : Collaborators) (config : Config)
    (builder : KustomizeBuilder) :
  let out := Run world config builder in
  (builds (fst out) = [] /\ snd out <> None)
  \/ (exists kustomizePath roots,
        let s := builder roots config kustomizePath in
        builds (fst out) = [(roots, s)]
        /\ snd out
           = if (0 <? Failed s)%nat && FailOnError config
             then Some (errorString ("kustomize build failed for "
                                       ++ itoa (Failed s) ++ " roots"))
             else None).
Proof.
  unfold Run, collectRoots, selectRoots, logVersions, try, bind, tell, ret,
    failWith.
  destruct (Install world _ _) as [kp|e]; [|left; split; [reflexivity|discriminate]].
  destruct (BuildAll config);
    (destruct (findKustomizationFilesWithExclusions world _ _) as [fl|e];
     [|left; split; [reflexivity|discriminate]]);
    (destruct (os_MkdirAll world _) as [e|];
     [left; split; [reflexivity|discriminate]|]);
    (destruct (ChangedOnly config);
     [destruct (getChangedFilesLastCommit _ _ _) as [ch|e];
      [|left; split; [reflexivity|discriminate]]|]);
    right; eexists; eexists; cbv zeta;
    destruct (os_WriteSummary world _);
    match goal with
    | |- context [(0 <? Failed ?s)%nat && FailOnError config] =>
        destruct ((0 <? Failed s)%nat && FailOnError config) eqn:E
    end; (split; [reflexivity | rewrite E; reflexivity]).
Qed.

(** C6: once the builder has run, the process ends with a non-zero
    status only when a root failed and the fail-on-error policy is set
    (and then it does); with no failed root the status is zero, whatever
    the number of canceled roots. *)
Theorem Run_completion_status (world : Collaborators) (config : Config)
    (builder : KustomizeBuilder) (roots : list string) (s : Summary) :
  builds (fst (Run world config builder)) = [(roots, s)] ->
  let status := completionStatus (snd (Run world config builder)) in
  (status <> 0 <-> 0 < Failed s /\ FailOnError config = true)
  /\ (Failed s = 0 -> status = 0).
Proof.
  intros Hb.
  destruct (Run_outcome world config builder) as [[H0 _]|[kp [rs [H1 H2]]]];
    [congruence|].
  rewrite Hb in H1. injection H1 as -> ->.
  cbv zeta. rewrite H2.
  destruct (0 <? Failed _)%nat eqn:F.
  - apply Nat.ltb_lt in F. destruct (FailOnError config); simpl.
    + repeat split; auto; lia.
    + repeat split; try tauto; try discriminate. intros [_ [=]].
  - apply Nat.ltb_ge in F. simpl. repeat split; try tauto; lia.
Qed.

Lemma Run_completion_status_witness :
  let out := Run sampleWorld (sampleConfig false true true) allCanceled in
  (completionStatus (snd out) <> 0 <->
   0 < Failed (allCanceled ["apps/a"] (sampleConfig false true true) "/tmp/kustomize")
   /\ FailOnError (sampleConfig false true true) = true)
  /\ (Failed (allCanceled ["apps/a"] (sampleConfig false true true) "/tmp/kustomize") = 0 ->
      completionStatus (snd out) = 0).
Proof.
  apply (Run_completion_status sampleWorld (sampleConfig false true true)
           allCanceled ["apps/a"]).
  reflexivity.
Defined.

(** C7: in a repository whose [HEAD~1] cannot be resolved, the change
    enumeration fails with an error that names [HEAD~1] and the
    [fetch-depth] remedy; a run that asks for change filtering ends with
    an error and never calls the builder, and when it gets as far as the
    enumeration its error carries the same two words. *)
Theorem no_parent_commit_is_fatal (world : Collaborators) (config : Config)
    (builder : KustomizeBuilder) (e : error) :
  let top := git world (WorkingDir config) ["rev-parse"; "--show-toplevel"] in
  let repoRoot := strings.TrimSpace (run_stdout top) in
  run_err top = None -> repoRoot <> "" ->
  run_err (git world repoRoot ["rev-parse"; "--verify"; "--quiet"; "HEAD~1"]) = Some e ->
  (exists msg,
      getChangedFilesLastCommit (normalizeRepoRelativePath world) (git world)
        (WorkingDir config) = Err (errorString msg)
      /\ strings.Contains msg "HEAD~1" = true
      /\ strings.Contains msg "fetch-depth" = true)
  /\ (ChangedOnly config = true ->
      let out := Run world config builder in
      builds (fst out) = []
      /\ exists err,
          snd out = Some err
          /\ ((exists kustomizePath,
                  Install world (KustomizeVersion config) (KustomizeSHA256 config)
                  = Ok kustomizePath) ->
              (exists found,
                  findKustomizationFilesWithExclusions world (WorkingDir config)
                    (excludedScanDirs config) = Ok found) ->
              os_MkdirAll world (OutputDir config) = None ->
              strings.Contains (Error err) "HEAD~1" = true
              /\ strings.Contains (Error err) "fetch-depth" = true)).
Proof.
  intros top repoRoot Htop Hroot Hparent.
  destruct (getChangedFilesLastCommit_no_parent (normalizeRepoRelativePath world)
              (git world) (WorkingDir config) e Htop Hroot Hparent)
    as [msg [Hget [M1 [M2 [M3 M4]]]]].
  split; [exists msg; auto|].
  intros Hch.
  unfold Run, collectRoots, selectRoots, logVersions, try, bind, tell, ret,
    failWith.
  rewrite Hch, Hget.
  destruct (Install world _ _) as [kp|e1].
  2:{ split; [reflexivity|]. eexists. split; [reflexivity|].
      intros [kp' [=]]. }
  destruct (BuildAll config);
    (destruct (findKustomizationFilesWithExclusions world _ _) as [fl|e2];
     [|split; [reflexivity|]; eexists; (split; [reflexivity|]);
       intros _ [fl' [=]]]);
    (destruct (os_MkdirAll world _) as [e3|];
     [split; [reflexivity|]; eexists; (split; [reflexivity|]);
      intros _ _ [=] |]);
    (split; [reflexivity|]; eexists; (split; [reflexivity|]);
     intros _ _ _; cbn [Error]; split; assumption).
Qed.

Lemma no_parent_commit_is_fatal_witness :
  (exists msg,
      getChangedFilesLastCommit (fun p => p) sampleGit "." = Err (errorString msg)
      /\ strings.Contains msg "HEAD~1" = true
      /\ strings.Contains msg "fetch-depth" = true)
  /\ builds (fst (Run sampleWorld (sampleConfig true false false) allCanceled)) = [].
Proof.
  destruct (no_parent_commit_is_fatal sampleWorld (sampleConfig true false false)
              allCanceled (errorString "exit status 1"))
    as [H1 H2]; try reflexivity; try discriminate.
  split; [exact H1 | exact (proj1 (H2 eq_refl))].
Defined.

(* ================================================================= *)
(** ** The orchestrator *)

(** *** Lists of tasks and traces *)

Lemma setTask_length (i : nat) (t : task) (ts : list task) :
  List.length (setTask i t ts) = List.length ts.
Proof.
  revert i; induction ts as [|x ts IH]; intros [|i]; simpl; auto.
Qed.

Lemma setTask_same (i : nat) (t x : task) (ts : list task) :
  nth_error ts i = Some x -> nth_error (setTask i t ts) i = Some t.
Proof.
  revert i; induction ts as [|y ts IH]; intros [|i]; simpl; try discriminate; auto.
Qed.

Lemma setTask_other (i j : nat) (t : task) (ts : list task) :
  i <> j -> nth_error (setTask i t ts) j = nth_error ts j.
Proof.
  revert i j; induction ts as [|y ts IH]; intros [|i] [|j] H; simpl; auto.
  congruence.
Qed.

Lemma setTask_finished (i : nat) (t x : task) (ts : list task) :
  nth_error ts i = Some x -> isFinished x = false ->
  List.length (filter isFinished (setTask i t ts))
  = List.length (filter isFinished ts) + (if isFinished t then 1 else 0).
Proof.
  revert i; induction ts as [|y ts IH]; intros [|i]; simpl; try discriminate.
  - intros [= ->] ->. destruct (isFinished t); simpl; lia.
  - intros H1 H2. destruct (isFinished y); simpl; rewrite (IH _ H1 H2); lia.
Qed.

Lemma dirOf_setTask (i : nat) (t x : task) (ts : list task) (j : nat) :
  nth_error ts i = Some x -> t_dir t = t_dir x ->
  dirOf (setTask i t ts) j = dirOf ts j.
Proof.
  intros Hx Hd. unfold dirOf. destruct (Nat.eq_dec i j) as [<-|N].
  - now rewrite (setTask_same _ _ _ _ Hx), Hx.
  - now rewrite setTask_other.
Qed.

Lemma dirOf_launch (ts : list task) (t : task) (j : nat) :
  j < List.length ts -> dirOf (ts ++ [t]) j = dirOf ts j.
Proof. intros H. unfold dirOf. now rewrite nth_error_app1. Qed.

Lemma taskTrace_app (i : nat) (a b : list (nat * obs)) :
  taskTrace i (a ++ b) = (taskTrace i a ++ taskTrace i b)%list.
Proof. unfold taskTrace. now rewrite filter_app, map_app. Qed.

Lemma taskTrace_own (i : nat) (l : list obs) :
  taskTrace i (map (fun o => (i, o)) l) = l.
Proof.
  unfold taskTrace. induction l as [|o l IH]; simpl; [reflexivity|].
  rewrite Nat.eqb_refl. simpl. now rewrite IH.
Qed.

Lemma taskTrace_foreign {i j : nat} (l : list obs) :
  i <> j -> taskTrace j (map (fun o => (i, o)) l) = [].
Proof.
  intros N. unfold taskTrace. induction l as [|o l IH]; simpl; [reflexivity|].
  apply Nat.eqb_neq in N. now rewrite N.
Qed.

Lemma taskTrace_unbounded (j : nat) (tr : list (nat * obs)) :
  (forall o, ~ In (j, o) tr) -> taskTrace j tr = [].
Proof.
  unfold taskTrace. induction tr as [|[k o] tr IH]; intros H; simpl; [reflexivity|].
  destruct (Nat.eqb_spec k j) as [->|N].
  - exfalso. apply (H o). now left.
  - apply IH. intros o' Hin. apply (H o'). now right.
Qed.


Lemma recorded_app (o : BuildOutcome) (a b : list (nat * obs)) :
  recorded o (a ++ b) = (recorded o a ++ recorded o b)%list.
Proof.
  induction a as [|[i x] a IH]; simpl; [reflexivity|].
  destruct x; try assumption.
  destruct (outcome_eqb o o0); simpl; now rewrite IH.
Qed.

Lemma recorded_In (o : BuildOutcome) (i : nat) (tr : list (nat * obs)) :
  In i (recorded o tr) <-> In (i, ObsRecorded o) tr.
Proof.
  induction tr as [|[j x] tr IH]; simpl; [tauto|].
  destruct x; try (rewrite IH; split; [auto | intros [[=]|]; auto]).
  destruct o, o0; simpl; rewrite IH; split;
    try (intros [->|]; auto); try (intros [[=]|]; auto); auto.
Qed.

(** *** The invariant of the runs *)

(** The three ways [buildKustomization] ends once the runner is back. *)
Lemma afterRunner_cases (wo : WriteOracle) (ctxErr : option error)
    (dir outputDir fileName : string) (r : runResult) (fs : FS) :
  let res := afterRunner wo ctxErr dir outputDir fileName r fs in
  (exists e, run_err r = Some e /\ is_Canceled ctxErr = true
             /\ b_err res = Some context_Canceled
             /\ b_written res = [] /\ b_fs res = fs)
  \/ (exists e p, run_err r = Some e /\ is_Canceled ctxErr = false
                  /\ b_err res = Some (errorString "build failed")
                  /\ b_written res = [p])
  \/ (exists p, run_err r = None /\ b_written res = [p]
                /\ is_Canceled (b_err res) = false).
Proof.
  unfold afterRunner, WriteFile.
  destruct (run_err r) as [e|].
  - destruct (is_Canceled ctxErr).
    + left. exists e. auto.
    + right; left. exists e.
      destruct (wo _); cbn; eexists; repeat split; reflexivity.
  - right; right. destruct (wo _); cbn; eexists; repeat split; reflexivity.
Qed.

Section OrchestratorInvariant.

Variable conf : Config.
Variable kustomizePath : string.
Variable wo : WriteOracle.
Variable roots : list string.

Lemma invariant_start (fs : FS) : invariant conf roots (start roots fs).
Proof.
  unfold invariant, accounted, summarized; simpl. conjuncts; auto.
  - discriminate.
  - intros j o [].
  - intros [|i] t H; discriminate.
Qed.

(** One task moves: its state changes, the trace grows by observations
    of that task, the summary by what these observations record. *)
Lemma invariant_task_step (st st' : state) (i : nat) (x t : task) (os : list obs) :
  invariant conf roots st ->
  nth_error (tasks st) i = Some x -> isFinished x = false ->
  t_dir t = t_dir x ->
  pending st' = pending st -> dispatching st' = dispatching st ->
  tasks st' = setTask i t (tasks st) ->
  trace st' = (trace st ++ map (fun o => (i, o)) os)%list ->
  taskHistory (t_state t) (taskTrace i (trace st) ++ os) ->
  (FailFast conf = false -> ctxErr st' = ctxErr st) ->
  Roots (summary st') = Roots (summary st) ->
  Success (summary st') + Failed (summary st') + Canceled (summary st')
  = Success (summary st) + Failed (summary st) + Canceled (summary st)
    + (if isFinished t then 1 else 0) ->
  FailedRoots (summary st')
  = (FailedRoots (summary st)
       ++ map (fun _ => t_dir x) (recorded OutFailed (map (fun o => (i, o)) os)))%list ->
  CanceledRoots (summary st')
  = (CanceledRoots (summary st)
       ++ map (fun _ => t_dir x) (recorded OutCanceled (map (fun o => (i, o)) os)))%list ->
  Failed (summary st')
  = Failed (summary st) + List.length (recorded OutFailed (map (fun o => (i, o)) os)) ->
  Canceled (summary st')
  = Canceled (summary st) + List.length (recorded OutCanceled (map (fun o => (i, o)) os)) ->
  Success (summary st')
  = Success (summary st) + List.length (recorded OutSuccess (map (fun o => (i, o)) os)) ->
  invariant conf roots st'.
Proof.
  intros [[A1 [A2 [A3 [A4 A5]]]] [B [H [S1 [S2 [S3 [S4 S5]]]]]]]
    Hx Hnf Hd Hp Hdisp Ht Htr Hh Hctx HR Hsum HFR HCR HF HC HS.
  assert (Hi : i < List.length (tasks st)).
  { apply nth_error_Some. congruence. }
  assert (Hdir : forall l, map (dirOf (tasks st')) l = map (dirOf (tasks st)) l).
  { intros l. apply map_ext. intros j. rewrite Ht.
    now apply dirOf_setTask with (x := x). }
  assert (Hrec : forall o os',
             map (dirOf (tasks st)) (recorded o (map (fun o => (i, o)) os'))
             = map (fun _ => t_dir x) (recorded o (map (fun o => (i, o)) os'))).
  { intros o os'. apply map_ext_in. intros j Hj.
    apply recorded_In, in_map_iff in Hj. destruct Hj as [o' [[= ->] _]].
    unfold dirOf. now rewrite Hx. }
  unfold invariant, accounted, summarized. conjuncts.
  - congruence.
  - rewrite Ht, setTask_length, Hp. exact A2.
  - rewrite Ht, (setTask_finished _ _ _ _ Hx Hnf), Hsum, A3. reflexivity.
  - intros FF. rewrite (Hctx FF). auto.
  - rewrite Hdisp, Hp. exact A5.
  - intros j o. rewrite Htr, Ht, setTask_length, in_app_iff, in_map_iff.
    intros [Hin|[o' [[= <- _] _]]]; [eauto | assumption].
  - intros j u. rewrite Ht, Htr, taskTrace_app.
    destruct (Nat.eq_dec i j) as [<-|N].
    + rewrite (setTask_same _ _ _ _ Hx). intros [= <-].
      now rewrite taskTrace_own.
    + rewrite setTask_other by assumption. intros Hu.
      rewrite (taskTrace_foreign os N), app_nil_r. now apply H.
  - rewrite Htr, recorded_app, Hdir, map_app, Hrec, HFR, S1. reflexivity.
  - rewrite Htr, recorded_app, Hdir, map_app, Hrec, HCR, S2. reflexivity.
  - rewrite Htr, recorded_app, length_app, HF, S3. reflexivity.
  - rewrite Htr, recorded_app, length_app, HC, S4. reflexivity.
  - rewrite Htr, recorded_app, length_app, HS, S5. reflexivity.
Qed.

Lemma invariant_dispatch (st st' : state) :
  invariant conf roots st -> dispatch conf st = Some st' ->
  invariant conf roots st'.
Proof.
  intros [[A1 [A2 [A3 [A4 A5]]]] [B [H S]]]. unfold dispatch.
  destruct (dispatching st) eqn:D; [|discriminate].
  destruct (pending st) as [|d rest] eqn:P.
  - intros [= <-]. unfold invariant, accounted, summarized; simpl.
    try rewrite P in A2. conjuncts; auto; apply S.
  - destruct (stopRequested conf st) eqn:SR; intros [= <-].
    + unfold invariant, accounted, summarized; simpl.
      try rewrite P in A2. conjuncts; auto; try apply S.
      intros _ FF. unfold stopRequested in SR. now rewrite FF in SR.
    + unfold invariant, accounted, summarized; simpl.
      try rewrite P in A2. simpl in A2.
      assert (Hdir : forall o,
                 map (dirOf (tasks st ++ [{| t_dir := d; t_state := Queued |}]))
                   (recorded o (trace st))
                 = map (dirOf (tasks st)) (recorded o (trace st))).
      { intros o. apply map_ext_in. intros j Hj. apply dirOf_launch.
        apply recorded_In in Hj. eauto. }
      conjuncts; auto; try apply S.
      * rewrite length_app. simpl. lia.
      * rewrite filter_app. simpl. now rewrite app_nil_r.
      * discriminate.
      * intros j o Hin. simpl in *. rewrite length_app. simpl. apply B in Hin. lia.
      * intros j t Hj. simpl in *.
        destruct (Nat.lt_ge_cases j (List.length (tasks st))) as [L|G].
        -- rewrite nth_error_app1 in Hj by assumption. now apply H.
        -- assert (E : taskTrace j (trace st) = []).
           { apply taskTrace_unbounded. intros o Hin. apply B in Hin. lia. }
           rewrite E. rewrite nth_error_app2 in Hj by assumption.
           destruct (j - List.length (tasks st)) as [|k]; simpl in Hj.
           ++ injection Hj as <-. constructor.
           ++ destruct k; discriminate.
      * rewrite Hdir. apply S.
      * rewrite Hdir. apply S.
Qed.

Lemma invariant_acquire (i : nat) (st st' : state) :
  invariant conf roots st -> acquire conf kustomizePath i st = Some st' ->
  invariant conf roots st'.
Proof.
  intros I. unfold acquire.
  destruct (nth_error (tasks st) i) as [[d [| | |]]|] eqn:Hx; try discriminate.
  destruct (slotsHeld (tasks st) <? poolWidth)%nat; [|discriminate].
  assert (Hq : taskTrace i (trace st) = []).
  { destruct I as [_ [_ [H _]]]. specialize (H i _ Hx). now inversion H. }
  destruct (stopRequested conf st) eqn:SR.
  - intros [= <-].
    eapply (invariant_task_step st _ i _ {| t_dir := d; t_state := Finished |}
              [ObsCanceledBeforeStart; ObsRecorded OutCanceled] I Hx);
      try reflexivity; simpl; rewrite ?app_nil_r; try reflexivity; try lia.
    rewrite Hq. constructor.
  - destruct (findConfig (files st) (buildDirOf d)) as [fileName|]; intros [= <-].
    + eapply (invariant_task_step st _ i _ {| t_dir := d; t_state := Running fileName |}
                [ObsInvoked _ _] I Hx);
        try reflexivity; simpl; rewrite ?app_nil_r; try reflexivity; try lia.
      rewrite Hq. constructor.
    + eapply (invariant_task_step st _ i _ {| t_dir := d; t_state := Returned "" None |}
                [ObsSkipped] I Hx);
        try reflexivity; simpl; rewrite ?app_nil_r; try reflexivity; try lia.
      rewrite Hq. constructor.
Qed.

Lemma invariant_runnerReturns (i : nat) (r : runResult) (st st' : state) :
  invariant conf roots st -> runnerReturns conf wo i r st = Some st' ->
  invariant conf roots st'.
Proof.
  intros I. unfold runnerReturns.
  destruct (nth_error (tasks st) i) as [[d [|fileName| |]]|] eqn:Hx;
    try discriminate.
  assert (Hq : exists name args, taskTrace i (trace st) = [ObsInvoked name args]).
  { destruct I as [_ [_ [H _]]]. specialize (H i _ Hx). inversion H. eauto. }
  destruct Hq as [name [args Hq]].
  cbv zeta. intros [= <-].
  set (res := afterRunner wo (ctxErr st) d (OutputDir conf) fileName r (files st)).
  assert (Hh : taskHistory (Returned (b_log res) (b_err res))
                 (taskTrace i (trace st)
                    ++ ObsReturned r (is_Canceled (ctxErr st))
                         :: map ObsWrote (b_written res))
               /\ (b_written res = [] \/ exists p, b_written res = [p])).
  { rewrite Hq.
    destruct (afterRunner_cases wo (ctxErr st) d (OutputDir conf) fileName r (files st))
      as [[e [Hr [Hc [He [Hw _]]]]] | [[e [p [Hr [Hc [He Hw]]]]] | [p [Hr [Hw He]]]]];
      fold res in He, Hw; rewrite Hw; simpl.
    - rewrite Hc, He. split; [constructor; congruence | now left].
    - rewrite Hc, He. split; [constructor; [congruence | reflexivity] | right; eauto].
    - split; [now constructor | right; eauto]. }
  destruct Hh as [Hh Hw].
  assert (Hrec : forall o,
             recorded o (map (fun x => (i, x))
                           (ObsReturned r (is_Canceled (ctxErr st))
                              :: map ObsWrote (b_written res))) = []).
  { intros o. destruct Hw as [->|[p ->]]; reflexivity. }
  eapply (invariant_task_step st _ i _
            {| t_dir := d; t_state := Returned (b_log res) (b_err res) |}
            (ObsReturned r (is_Canceled (ctxErr st)) :: map ObsWrote (b_written res))
            I Hx);
    cbn [pending dispatching tasks ctxErr summary trace t_dir t_state isFinished];
    rewrite ?Hrec; cbn [map List.length]; rewrite ?app_nil_r;
    try reflexivity; try lia; try assumption.
  now rewrite map_map.
Qed.

Lemma invariant_commit (i : nat) (st st' : state) :
  invariant conf roots st -> commit conf i st = Some st' ->
  invariant conf roots st'.
Proof.
  intros I. unfold commit.
  destruct (nth_error (tasks st) i) as [[d [| |logMsg err|]]|] eqn:Hx;
    try discriminate.
  assert (Hq : taskHistory Finished
                 (taskTrace i (trace st) ++ [ObsRecorded (outcomeOf err)])).
  { destruct I as [_ [_ [H _]]]. specialize (H i _ Hx).
    eapply hist_recorded. exact H. }
  destruct err as [e|]; [destruct (is_Canceled (Some e)) eqn:Hc|];
    intros [= <-].
  - eapply (invariant_task_step st _ i _ {| t_dir := d; t_state := Finished |}
              [ObsRecorded OutCanceled] I Hx);
      try reflexivity; simpl; rewrite ?app_nil_r; try reflexivity; try lia.
    unfold outcomeOf in Hq. now rewrite Hc in Hq.
  - eapply (invariant_task_step st _ i _ {| t_dir := d; t_state := Finished |}
              [ObsRecorded OutFailed] I Hx);
      try reflexivity; simpl; rewrite ?app_nil_r; try reflexivity; try lia.
    + unfold outcomeOf in Hq. now rewrite Hc in Hq.
    + now intros ->.
  - eapply (invariant_task_step st _ i _ {| t_dir := d; t_state := Finished |}
              [ObsRecorded OutSuccess] I Hx);
      try reflexivity; simpl; rewrite ?app_nil_r; try reflexivity; try lia.
    exact Hq.
Qed.

Lemma invariant_step (e : event) (st st' : state) :
  invariant conf roots st -> step conf kustomizePath wo e st = Some st' ->
  invariant conf roots st'.
Proof.
  destruct e; simpl.
  - apply invariant_dispatch.
  - apply invariant_acquire.
  - apply invariant_runnerReturns.
  - apply invariant_commit.
Qed.

Lemma invariant_exec (sched : list event) (st st' : state) :
  invariant conf roots st -> exec conf kustomizePath wo sched st = Some st' ->
  invariant conf roots st'.
Proof.
  revert st; induction sched as [|e sched IH]; simpl; intros st I.
  - now intros [= <-].
  - destruct (step conf kustomizePath wo e st) as [st1|] eqn:E; [|discriminate].
    apply IH. eapply invariant_step; eassumption.
Qed.

Lemma invariant_reachable (fs : FS) (st : state) :
  reachable conf kustomizePath wo roots fs st -> invariant conf roots st.
Proof.
  intros [sched H]. eapply invariant_exec; [apply invariant_start | exact H].
Qed.

End OrchestratorInvariant.

(** *** Runs only add to the trace and to the tasks *)

Section OrchestratorRuns.

Variable conf : Config.
Variable kustomizePath : string.
Variable wo : WriteOracle.




End OrchestratorRuns.

(** *** Every run ends and the call returns *)

Lemma holder_or_free (ts : list task) :
  (exists i t, nth_error ts i = Some t /\ holdsSlot t = true)
  \/ slotsHeld ts = 0.
Proof.
  unfold slotsHeld. induction ts as [|x ts IH]; simpl; [now right|].
  destruct (holdsSlot x) eqn:Hx.
  - left. exists 0, x. auto.
  - destruct IH as [[i [t [Hi Ht]]]|IH]; [left | now right].
    exists (S i), t. auto.
Qed.

Lemma queued_or_done (ts : list task) :
  slotsHeld ts = 0 ->
  (exists i d, nth_error ts i = Some {| t_dir := d; t_state := Queued |})
  \/ forallb isFinished ts = true.
Proof.
  unfold slotsHeld. induction ts as [|[d s] ts IH]; simpl; [now right|].
  unfold holdsSlot, isFinished; simpl.
  destruct s; simpl; try discriminate; intros H.
  - left. exists 0, d. reflexivity.
  - destruct (IH H) as [[i [d' Hi]]|Hf]; [left | now right].
    exists (S i), d'. exact Hi.
Qed.

Lemma weight_setTask (i : nat) (t x : task) (ts : list task) :
  nth_error ts i = Some x ->
  list_sum (map weight (setTask i t ts)) + weight x
  = list_sum (map weight ts) + weight t.
Proof.
  revert i; induction ts as [|y ts IH]; intros [|i]; simpl; try discriminate.
  - intros [= ->]. lia.
  - intros H. specialize (IH _ H). lia.
Qed.

Section OrchestratorTermination.

Variable conf : Config.
Variable kustomizePath : string.
Variable wo : WriteOracle.

(** No state is stuck: until the call returns some goroutine can move,
    whatever the runner returns. *)
Lemma progress (r : runResult) (st : state) :
  returned st = false ->
  exists e st', step conf kustomizePath wo e st = Some st'.
Proof.
  intros NR. destruct (holder_or_free (tasks st)) as [[i [[d s] [Hi Hs]]]|Free].
  - destruct s; try discriminate.
    + exists (RunnerReturns i r). simpl. unfold runnerReturns.
      rewrite Hi. eauto.
    + exists (Commit i). simpl. unfold commit. rewrite Hi.
      destruct err as [e|]; [destruct (is_Canceled (Some e))|]; eauto.
  - destruct (queued_or_done _ Free) as [[i [d Hi]]|Done].
    + exists (Acquire i). simpl. unfold acquire. rewrite Hi, Free. simpl.
      destruct (stopRequested conf st); [eauto|].
      destruct (findConfig (files st) (buildDirOf d)); eauto.
    + exists Dispatch. simpl. unfold dispatch.
      unfold returned in NR. rewrite Done, andb_true_r in NR.
      apply negb_false_iff in NR. rewrite NR.
      destruct (pending st); [eauto|].
      destruct (stopRequested conf st); eauto.
Qed.

Lemma step_workLeft (e : event) (st st' : state) :
  step conf kustomizePath wo e st = Some st' -> workLeft st' < workLeft st.
Proof.
  unfold workLeft. destruct e as [|i|i r|i]; simpl.
  - unfold dispatch. destruct (dispatching st); [|discriminate].
    destruct (pending st) as [|d rest]; [|destruct (stopRequested conf st)];
      intros [= <-]; simpl; try lia.
    rewrite map_app, list_sum_app. simpl. lia.
  - unfold acquire.
    destruct (nth_error (tasks st) i) as [[d [| | |]]|] eqn:Hx; try discriminate.
    destruct (slotsHeld (tasks st) <? poolWidth)%nat; [|discriminate].
    destruct (stopRequested conf st);
      [|destruct (findConfig (files st) (buildDirOf d))];
      intros [= <-]; simpl;
      match goal with
      | |- context [setTask i ?t (tasks st)] =>
          pose proof (weight_setTask i t _ (tasks st) Hx) as W
      end; unfold weight in W at 2 4; cbn [t_state] in W; lia.
  - unfold runnerReturns.
    destruct (nth_error (tasks st) i) as [[d [| | |]]|] eqn:Hx; try discriminate.
    cbv zeta. intros [= <-]; simpl.
    match goal with
    | |- context [setTask i ?t (tasks st)] =>
        pose proof (weight_setTask i t _ (tasks st) Hx) as W
    end; unfold weight in W at 2 4; cbn [t_state] in W; lia.
  - unfold commit.
    destruct (nth_error (tasks st) i) as [[d [| |logMsg err|]]|] eqn:Hx;
      try discriminate.
    destruct err as [e|]; [destruct (is_Canceled (Some e))|];
      intros [= <-]; simpl;
      match goal with
      | |- context [setTask i ?t (tasks st)] =>
          pose proof (weight_setTask i t _ (tasks st) Hx) as W
      end; unfold weight in W at 2 4; cbn [t_state] in W; lia.
Qed.


(** From every state the run can be carried on until the call returns,
    whatever the runner returns. *)
Lemma run_finishes (r : runResult) (st : state) :
  exists sched st',
    exec conf kustomizePath wo sched st = Some st' /\ returned st' = true.
Proof.
  remember (workLeft st) as n eqn:Hn. revert st Hn.
  induction n as [n IH] using lt_wf_ind. intros st Hn.
  destruct (returned st) eqn:R.
  - exists [], st. auto.
  - destruct (progress r st R) as [e [st1 E]].
    pose proof (step_workLeft e st st1 E) as L.
    destruct (IH (workLeft st1) ltac:(lia) st1 eq_refl) as [sched [st' [X Y]]].
    exists (e :: sched), st'. simpl. rewrite E. auto.
Qed.

End OrchestratorTermination.

(** *** The pool *)

Lemma slots_setTask (i : nat) (t x : task) (ts : list task) :
  nth_error ts i = Some x ->
  slotsHeld (setTask i t ts) + (if holdsSlot x then 1 else 0)
  = slotsHeld ts + (if holdsSlot t then 1 else 0).
Proof.
  unfold slotsHeld.
  revert i; induction ts as [|y ts IH]; intros [|i]; simpl; try discriminate.
  - intros [= ->]. destruct (holdsSlot x), (holdsSlot t); simpl; lia.
  - intros H. specialize (IH _ H). destruct (holdsSlot y); simpl; lia.
Qed.

(** At most four tasks are between taking a slot and giving it back. *)
Lemma pool_bound (conf : Config) (kustomizePath : string) (wo : WriteOracle)
    (sched : list event) (st st' : state) :
  slotsHeld (tasks st) <= poolWidth ->
  exec conf kustomizePath wo sched st = Some st' ->
  slotsHeld (tasks st') <= poolWidth.
Proof.
  revert st; induction sched as [|e sched IH]; simpl; intros st B.
  - now intros [= <-].
  - destruct (step conf kustomizePath wo e st) as [st1|] eqn:E; [|discriminate].
    apply IH. clear IH. destruct e as [|i|i r|i]; simpl in E.
    + unfold dispatch in E. destruct (dispatching st); [|discriminate].
      destruct (pending st); [|destruct (stopRequested conf st)];
        injection E as <-; simpl; auto.
      unfold slotsHeld in *. rewrite filter_app, length_app. simpl. lia.
    + unfold acquire in E.
      destruct (nth_error (tasks st) i) as [[d [| | |]]|] eqn:Hx; try discriminate.
      destruct (slotsHeld (tasks st) <? poolWidth)%nat eqn:L; [|discriminate].
      apply Nat.ltb_lt in L.
      destruct (stopRequested conf st);
        [|destruct (findConfig (files st) (buildDirOf d))];
        injection E as <-; simpl;
        match goal with
        | |- context [setTask i ?t (tasks st)] =>
            pose proof (slots_setTask i t _ (tasks st) Hx) as W
        end; simpl in W; lia.
    + unfold runnerReturns in E.
      destruct (nth_error (tasks st) i) as [[d [|fileName| |]]|] eqn:Hx;
        try discriminate.
      cbv zeta in E. injection E as <-. simpl.
      match goal with
      | |- context [setTask i ?t (tasks st)] =>
          pose proof (slots_setTask i t _ (tasks st) Hx) as W
      end; simpl in W; lia.
    + unfold commit in E.
      destruct (nth_error (tasks st) i) as [[d [| |logMsg err|]]|] eqn:Hx;
        try discriminate.
      destruct err as [e|]; [destruct (is_Canceled (Some e))|];
        injection E as <-; simpl;
        match goal with
        | |- context [setTask i ?t (tasks st)] =>
            pose proof (slots_setTask i t _ (tasks st) Hx) as W
        end; simpl in W; lia.
Qed.

(** *** The files a run touches *)



(** *** The summary *)

Lemma filter_all {A : Type} (f : A -> bool) (l : list A) :
  forallb f l = true -> filter f l = l.
Proof.
  induction l as [|x l IH]; simpl; [reflexivity|].
  rewrite andb_true_iff. intros [-> H]. now rewrite IH.
Qed.

(** When the call returns, the three counters account for the roots
    that were launched; the roots the loop did not reach are in no
    counter. *)
Lemma summary_accounts (conf : Config) (kustomizePath : string)
    (wo : WriteOracle) (roots : list string) (fs : FS) (st : state) :
  reachable conf kustomizePath wo roots fs st -> returned st = true ->
  Roots (summary st) = List.length roots
  /\ Success (summary st) + Failed (summary st) + Canceled (summary st)
     + List.length (pending st) = Roots (summary st).
Proof.
  intros R F. apply invariant_reachable in R.
  destruct R as [[A1 [A2 [A3 _]]] _].
  unfold returned in F. apply andb_true_iff in F. destruct F as [_ F].
  rewrite (filter_all _ _ F) in A3. split; [assumption | lia].
Qed.

(** Without fail-fast the loop reaches every root and the counters add
    up to [Roots]. *)
Lemma summary_complete_without_fail_fast (conf : Config)
    (kustomizePath : string) (wo : WriteOracle) (roots : list string)
    (fs : FS) (st : state) :
  FailFast conf = false ->
  reachable conf kustomizePath wo roots fs st -> returned st = true ->
  Roots (summary st)
  = Success (summary st) + Failed (summary st) + Canceled (summary st).
Proof.
  intros FF R F. destruct (summary_accounts _ _ _ _ _ _ R F) as [_ H].
  apply invariant_reachable in R. destruct R as [[_ [_ [_ [_ A5]]]] _].
  unfold returned in F. apply andb_true_iff in F. destruct F as [D _].
  apply negb_true_iff in D. rewrite (A5 D FF) in H. simpl in H. lia.
Qed.

(** The call returns, and what it returns accounts for the roots it
    launched: the counters never exceed [Roots], and reach it when
    fail-fast is off. *)
Lemma buildKustomizations_returns (roots : list string) (conf : Config)
    (kustomizePath : string) (wo : WriteOracle) (fs : FS) :
  exists s, buildKustomizations roots conf kustomizePath wo fs s.
Proof.
  destruct (run_finishes conf kustomizePath wo rendered (start roots fs))
    as [sched [st [E R]]].
  exists (summary st), sched, st. auto.
Qed.

Lemma buildKustomizations_accounts (roots : list string) (conf : Config)
    (kustomizePath : string) (wo : WriteOracle) (fs : FS) (s : Summary) :
  buildKustomizations roots conf kustomizePath wo fs s ->
  Roots s = List.length roots
  /\ Success s + Failed s + Canceled s <= Roots s
  /\ (FailFast conf = false -> Roots s = Success s + Failed s + Canceled s).
Proof.
  intros [sched [st [E [R <-]]]].
  assert (Re : reachable conf kustomizePath wo roots fs st) by (exists sched; exact E).
  destruct (summary_accounts _ _ _ _ _ _ Re R) as [H1 H2].
  conjuncts; [assumption | lia |].
  intros FF. now apply (summary_complete_without_fail_fast conf kustomizePath wo roots fs).
Qed.

(** C1: with fail-fast on, a first root that fails before the loop
    takes its next turn stops the loop ([break], line 62); the two roots
    the loop did not reach are counted nowhere (the block of line 108
    that was to count them is empty) and the call returns with
    [Roots = 3] and [Success + Failed + Canceled = 1]. *)
Theorem fail_fast_leaves_roots_uncounted :
  let conf := sampleConfig false false true in
  let sched := [Dispatch; Acquire 0; RunnerReturns 0 exitOne; Commit 0; Dispatch] in
  let roots := ["app1"; "app2"; "app3"] in
  let st := stateAfter conf sched roots sampleFS in
  let s := {| Success := 0; Failed := 1; Canceled := 0; Roots := 3;
              FailedRoots := ["app1"]; CanceledRoots := [] |} in
  exec conf "kustomize" neverDenied sched (start roots sampleFS) = Some st
  /\ returned st = true
  /\ summary st = s
  /\ pending st = ["app2"; "app3"]
  /\ buildKustomizations roots conf "kustomize" neverDenied sampleFS s
  /\ Roots s <> Success s + Failed s + Canceled s.
Proof.
  cbv zeta. conjuncts; try (vm_compute; reflexivity).
  - exists [Dispatch; Acquire 0; RunnerReturns 0 exitOne; Commit 0; Dispatch],
      (stateAfter (sampleConfig false false true)
         [Dispatch; Acquire 0; RunnerReturns 0 exitOne; Commit 0; Dispatch]
         ["app1"; "app2"; "app3"] sampleFS).
    conjuncts; vm_compute; reflexivity.
  - discriminate.
Qed.






(** *** Roots without a configuration file *)





(* ================================================================= *)
(** * Further properties of the code *)

Ltac step_inv E :=
  match type of E with
  | step _ _ _ ?e ?st = Some _ =>
      destruct e as [|?i|?i ?r|?i]; simpl in E;
      [ unfold dispatch in E;
        destruct (dispatching st) eqn:?; [|discriminate];
        destruct (pending st) as [|? ?] eqn:?;
        [|destruct (stopRequested _ st) eqn:?];
        injection E as <-
      | unfold acquire in E;
        destruct (nth_error (tasks st) _) as [[? [| | |]]|] eqn:?;
        try discriminate;
        destruct (slotsHeld (tasks st) <? poolWidth)%nat eqn:?; [|discriminate];
        destruct (stopRequested _ st) eqn:?;
        [|destruct (findConfig (files st) (buildDirOf _)) eqn:?];
        injection E as <-
      | unfold runnerReturns in E;
        destruct (nth_error (tasks st) _) as [[? [|?| |]]|] eqn:?;
        try discriminate;
        cbv zeta in E; injection E as <-
      | unfold commit in E;
        destruct (nth_error (tasks st) _) as [[? [| |? [?|]|]]|] eqn:?;
        try discriminate;
        [ destruct (is_Canceled (Some _)) eqn:? | ];
        injection E as <- ]
  end.

(** An invariant of the steps holds in every state of a run. *)
Lemma exec_invariant (conf : Config) (kustomizePath : string) (wo : WriteOracle)
    (P : state -> Prop) :
  (forall e st st', P st -> step conf kustomizePath wo e st = Some st' -> P st') ->
  forall sched st st',
    P st -> exec conf kustomizePath wo sched st = Some st' -> P st'.
Proof.
  intros Hstep sched. induction sched as [|e sched IH]; simpl; intros st st' H.
  - now intros [= <-].
  - destruct (step conf kustomizePath wo e st) as [st1|] eqn:E; [|discriminate].
    apply IH. eapply Hstep; eassumption.
Qed.

Lemma Forall_setTask (P : task -> Prop) (i : nat) (t : task) (ts : list task) :
  Forall P ts -> P t -> Forall P (setTask i t ts).
Proof.
  intros H Ht. revert i. induction H as [|x ts Hx H IH]; intros [|i]; simpl;
    constructor; auto.
Qed.

Lemma map_dir_setTask (i : nat) (t x : task) (ts : list task) :
  nth_error ts i = Some x -> t_dir t = t_dir x ->
  map t_dir (setTask i t ts) = map t_dir ts.
Proof.
  revert i; induction ts as [|y ts IH]; intros [|i]; simpl; try discriminate.
  - intros [= ->] ->. reflexivity.
  - intros H1 H2. now rewrite (IH _ H1 H2).
Qed.

Lemma launchedInOrder_step (conf : Config) (kustomizePath : string)
    (wo : WriteOracle) (roots : list string) (e : event) (st st' : state) :
  launchedInOrder roots st -> step conf kustomizePath wo e st = Some st' ->
  launchedInOrder roots st'.
Proof.
  unfold launchedInOrder. intros H E. step_inv E; simpl;
    try (erewrite map_dir_setTask by (eassumption || reflexivity); assumption);
    try congruence.
  rewrite map_app, <- app_assoc. simpl. congruence.
Qed.

Lemma cameBack_monotone (c c' : option error) (ts : list task) :
  (notNil c = true -> notNil c' = true) ->
  Forall (cameBackUnderSignal c) ts -> Forall (cameBackUnderSignal c') ts.
Proof.
  intros M. apply Forall_impl. intros t. unfold cameBackUnderSignal.
  destruct (t_state t); auto.
Qed.

Lemma is_Canceled_notNil (c : option error) : is_Canceled c = true -> notNil c = true.
Proof. destruct c as [[|]|]; simpl; congruence. Qed.

Lemma signalled_step (conf : Config) (kustomizePath : string)
    (wo : WriteOracle) (e : event) (st st' : state) :
  signalled conf st -> step conf kustomizePath wo e st = Some st' ->
  signalled conf st'.
Proof.
  intros [S1 [S2 S3]] E. unfold signalled.
  step_inv E; simpl; conjuncts; auto;
    try (apply Forall_setTask;
         [assumption | unfold cameBackUnderSignal; simpl; auto; try discriminate]);
    try (intros _; unfold stopRequested in *;
         match goal with
         | H : _ && notNil _ = true |- _ => apply andb_true_iff in H; tauto
         end).
  - apply Forall_app. split; [assumption|]. repeat constructor.
  - (* the runner is back *)
    match goal with
    | |- is_Canceled (b_err (afterRunner ?w ?c ?d ?o ?f ?r ?fs)) = true -> _ =>
        destruct (afterRunner_cases w c d o f r fs)
          as [[e [_ [Hc _]]] | [[e [p [_ [_ [He _]]]]] | [p [_ [_ He]]]]]
    end.
    + intros _. now apply is_Canceled_notNil.
    + rewrite He. discriminate.
    + rewrite He. discriminate.
  - (* a canceled result is counted *)
    intros _.
    match goal with
    | H : nth_error (tasks st) _ = Some _ |- _ =>
        apply nth_error_In in H; rewrite Forall_forall in S2;
        specialize (S2 _ H); unfold cameBackUnderSignal in S2; simpl in S2
    end. auto.
  - (* a failure is counted *)
    destruct (FailFast conf); simpl in *.
    + now destruct (ctxErr st).
    + exact S1.
  - apply Forall_setTask; [|exact I].
    eapply cameBack_monotone; [|exact S2].
    destruct (FailFast conf); [destruct (ctxErr st); auto | auto].
  - intros H. specialize (S3 H).
    destruct (FailFast conf); [destruct (ctxErr st); auto | auto].
Qed.

Lemma signalled_reachable (conf : Config) (kustomizePath : string)
    (wo : WriteOracle) (roots : list string) (fs : FS) (st : state) :
  reachable conf kustomizePath wo roots fs st -> signalled conf st.
Proof.
  intros [sched E].
  eapply (exec_invariant conf kustomizePath wo (signalled conf)); [| |exact E].
  - intros e s s'. apply signalled_step.
  - unfold signalled; simpl. conjuncts;
      [now rewrite andb_false_r | constructor | intros H; inversion H].
Qed.

Lemma launchedInOrder_reachable (conf : Config) (kustomizePath : string)
    (wo : WriteOracle) (roots : list string) (fs : FS) (st : state) :
  reachable conf kustomizePath wo roots fs st -> launchedInOrder roots st.
Proof.
  intros [sched E].
  eapply (exec_invariant conf kustomizePath wo (launchedInOrder roots)); [| |exact E].
  - intros e s s'. apply launchedInOrder_step.
  - reflexivity.
Qed.

(** ** [buildKustomizations]: the pool, the end of a run, the summary *)

(** X1: [sem] bounds the tasks between taking a slot and giving it back:
    in every state of every run at most four tasks hold one, and while
    four do no other task can start. *)
Theorem at_most_four_slots (conf : Config) (kustomizePath : string)
    (wo : WriteOracle) (roots : list string) (fs : FS) (st : state) :
  reachable conf kustomizePath wo roots fs st ->
  slotsHeld (tasks st) <= 4
  /\ (slotsHeld (tasks st) = 4 ->
      forall i, acquire conf kustomizePath i st = None).
Proof.
  intros [sched E]. split.
  - eapply (pool_bound conf kustomizePath wo sched (start roots fs)); [|exact E].
    unfold slotsHeld, poolWidth. simpl. lia.
  - intros Full i. unfold acquire.
    destruct (nth_error (tasks st) i) as [[d [| | |]]|]; try reflexivity.
    now rewrite Full.
Qed.

Lemma at_most_four_slots_witness :
  let conf := sampleConfig false false false in
  let st := stateAfter conf
              [Dispatch; Dispatch; Dispatch; Dispatch; Dispatch;
               Acquire 0; Acquire 1; Acquire 2; Acquire 3]
              ["app1"; "app2"; "app3"; "docs"; "lib"] sampleFS in
  slotsHeld (tasks st) = 4
  /\ nth_error (tasks st) 4 = Some {| t_dir := "lib"; t_state := Queued |}
  /\ acquire conf "kustomize" 4 st = None.
Proof.
  intros conf st.
  destruct (at_most_four_slots conf "kustomize" neverDenied
              ["app1"; "app2"; "app3"; "docs"; "lib"] sampleFS st) as [_ H].
  - exists [Dispatch; Dispatch; Dispatch; Dispatch; Dispatch;
            Acquire 0; Acquire 1; Acquire 2; Acquire 3].
    vm_compute. reflexivity.
  - assert (F : slotsHeld (tasks st) = 4) by (vm_compute; reflexivity).
    split; [exact F|]. split; [vm_compute; reflexivity | exact (H F 4)].
Defined.






Lemma recorded_roots (conf : Config) (kustomizePath : string)
    (wo : WriteOracle) (roots : list string) (fs : FS) (st : state)
    (o : BuildOutcome) :
  reachable conf kustomizePath wo roots fs st ->
  incl (map (dirOf (tasks st)) (recorded o (trace st))) roots.
Proof.
  intros R d Hd. apply in_map_iff in Hd. destruct Hd as [i [<- Hi]].
  pose proof (launchedInOrder_reachable _ _ _ _ _ _ R) as L.
  apply invariant_reachable in R. destruct R as [_ [B _]].
  apply recorded_In, B in Hi. unfold dirOf.
  destruct (nth_error (tasks st) i) as [t|] eqn:E.
  - rewrite <- L. apply in_or_app. left. apply in_map.
    eapply nth_error_In. exact E.
  - apply nth_error_None in E. lia.
Qed.

(** X3: the summary a call returns is consistent: [Roots] is the number
    of roots given, the three counters never add up to more (and to
    exactly that without fail-fast), [Failed] and [Canceled] are the
    lengths of the two lists, and the lists hold roots of the input
    only. *)
Theorem returned_summary_is_consistent (roots : list string) (conf : Config)
    (kustomizePath : string) (wo : WriteOracle) (fs : FS) (s : Summary) :
  buildKustomizations roots conf kustomizePath wo fs s ->
  Roots s = List.length roots
  /\ Success s + Failed s + Canceled s <= Roots s
  /\ (FailFast conf = false -> Success s + Failed s + Canceled s = Roots s)
  /\ Failed s = List.length (FailedRoots s)
  /\ Canceled s = List.length (CanceledRoots s)
  /\ incl (FailedRoots s) roots
  /\ incl (CanceledRoots s) roots.
Proof.
  intros [sched [st [E [Ret <-]]]].
  assert (R : reachable conf kustomizePath wo roots fs st) by (exists sched; exact E).
  destruct (summary_accounts _ _ _ _ _ _ R Ret) as [H1 H2].
  pose proof (invariant_reachable _ _ _ _ _ _ R) as [_ [_ [_ [S1 [S2 [S3 [S4 _]]]]]]].
  conjuncts.
  - exact H1.
  - lia.
  - intros FF.
    symmetry. now apply (summary_complete_without_fail_fast conf kustomizePath wo roots fs).
  - now rewrite S1, length_map.
  - now rewrite S2, length_map.
  - rewrite S1. eapply recorded_roots; eassumption.
  - rewrite S2. eapply recorded_roots; eassumption.
Qed.

Lemma returned_summary_is_consistent_witness :
  let s := summary (stateAfter (sampleConfig false false true) failFastRun
                      ["app1"; "app2"; "app3"] sampleFS) in
  Roots s = 3 /\ Failed s = List.length (FailedRoots s)
  /\ incl (CanceledRoots s) ["app1"; "app2"; "app3"].
Proof.
  intros s.
  destruct (returned_summary_is_consistent ["app1"; "app2"; "app3"]
              (sampleConfig false false true) "kustomize" neverDenied sampleFS s)
    as [H1 [_ [_ [H4 [_ [_ H7]]]]]].
  - exists failFastRun,
      (stateAfter (sampleConfig false false true) failFastRun
         ["app1"; "app2"; "app3"] sampleFS).
    vm_compute. repeat split.
  - exact (conj H1 (conj H4 H7)).
Defined.

(** X4: roots are handed to goroutines in the order of the input: at any
    moment the launched tasks are the first roots, in order, and the
    rest is still to come; without fail-fast every root has been
    launched when the call returns. *)
Theorem tasks_are_launched_in_input_order (conf : Config)
    (kustomizePath : string) (wo : WriteOracle) (roots : list string)
    (fs : FS) (st : state) :
  reachable conf kustomizePath wo roots fs st ->
  (map t_dir (tasks st) ++ pending st)%list = roots
  /\ (FailFast conf = false -> returned st = true ->
      map t_dir (tasks st) = roots).
Proof.
  intros R. pose proof (launchedInOrder_reachable _ _ _ _ _ _ R) as L.
  split; [exact L|]. intros FF Ret.
  apply invariant_reachable in R. destruct R as [[_ [_ [_ [_ A5]]]] _].
  unfold returned in Ret. apply andb_true_iff in Ret. destruct Ret as [D _].
  apply negb_true_iff in D. unfold launchedInOrder in L.
  rewrite (A5 D FF), app_nil_r in L. exact L.
Qed.

Lemma tasks_are_launched_in_input_order_witness :
  let st := stateAfter (sampleConfig false false false)
              [Dispatch; Dispatch; Acquire 1; Acquire 0]
              ["app1"; "app2"; "app3"] sampleFS in
  (map t_dir (tasks st) ++ pending st)%list = ["app1"; "app2"; "app3"]
  /\ pending st = ["app3"].
Proof.
  intros st.
  destruct (tasks_are_launched_in_input_order (sampleConfig false false false)
              "kustomize" neverDenied ["app1"; "app2"; "app3"] sampleFS st)
    as [H _].
  - exists [Dispatch; Dispatch; Acquire 1; Acquire 0]. vm_compute. reflexivity.
  - split; [exact H | vm_compute; reflexivity].
Defined.

(** X5: the shared signal is raised exactly when fail-fast is on and a
    root has been recorded as failed; so a root is counted as canceled
    only under fail-fast and after a failure, and without fail-fast
    [CanceledRoots] stays empty. *)
Theorem signal_follows_first_failure (conf : Config) (kustomizePath : string)
    (wo : WriteOracle) (roots : list string) (fs : FS) (st : state) :
  reachable conf kustomizePath wo roots fs st ->
  notNil (ctxErr st) = FailFast conf && (0 <? Failed (summary st))%nat
  /\ (0 < Canceled (summary st) ->
      FailFast conf = true /\ 0 < Failed (summary st))
  /\ (FailFast conf = false -> CanceledRoots (summary st) = []).
Proof.
  intros R. destruct (signalled_reachable _ _ _ _ _ _ R) as [S1 [_ S3]].
  assert (K : 0 < Canceled (summary st) ->
              FailFast conf = true /\ 0 < Failed (summary st)).
  { intros C. specialize (S3 C). rewrite S1 in S3.
    apply andb_true_iff in S3. destruct S3 as [F L].
    apply Nat.ltb_lt in L. auto. }
  conjuncts; auto.
  intros FF. apply invariant_reachable in R.
  destruct R as [_ [_ [_ [_ [S2 [_ [S4 _]]]]]]].
  destruct (CanceledRoots (summary st)) as [|d l] eqn:E; [reflexivity|].
  exfalso. assert (C : 0 < Canceled (summary st)).
  { rewrite S4. apply (f_equal (@List.length string)) in S2.
    rewrite length_map in S2. simpl in S2. lia. }
  destruct (K C). congruence.
Qed.

Lemma signal_follows_first_failure_witness :
  let st := stateAfter (sampleConfig false false true) failFastRun
              ["app1"; "app2"; "app3"] sampleFS in
  notNil (ctxErr st) = true /\ Failed (summary st) = 1.
Proof.
  intros st.
  destruct (signal_follows_first_failure (sampleConfig false false true)
              "kustomize" neverDenied ["app1"; "app2"; "app3"] sampleFS st)
    as [H _].
  - exists failFastRun. vm_compute. reflexivity.
  - split; [rewrite H|]; vm_compute; reflexivity.
Defined.

(** ** [buildKustomizations]: the files a run writes *)






(** ** [buildKustomization], [sanitizeOutName], [tail] *)

Ltac crack :=
  repeat match goal with
         | |- _ <-> _ => split
         | |- _ -> _ => intro
         | H : _ \/ _ |- _ => destruct H
         | H : _ /\ _ |- _ => destruct H
         | H : exists _, _ |- _ => destruct H
         | H : Some _ = None |- _ => discriminate H
         | H : None = Some _ |- _ => discriminate H
         | H : Some _ = Some _ |- _ => injection H as H; subst
         | H : true = false |- _ => discriminate H
         | H : false = true |- _ => discriminate H
         | H : ?x <> ?x |- _ => contradiction
         end;
  try congruence; try tauto.




(** X8: how a call of [buildKustomization] ends.  It returns no error
    exactly when the root has no configuration file or the runner
    succeeded and the output could be written; it returns
    [context.Canceled] exactly when the runner failed under a canceled
    context, so a runner that succeeds is never reported as canceled;
    the runner is called once when a configuration file exists and not
    at all otherwise; and a call that returns [context.Canceled] writes
    nothing. *)
Theorem buildKustomization_outcomes (wo : WriteOracle) (ctxErr : option error)
    (dir outputDir loadRestrictor : string) (enableHelm : bool)
    (kustomizePath : string) (runner : runCommandFunc) (fs : FS) :
  let res := buildKustomization wo ctxErr dir outputDir loadRestrictor
               enableHelm kustomizePath runner fs in
  let args := buildArgs (buildDirOf dir) loadRestrictor enableHelm in
  let r := runner kustomizePath args in
  (b_err res = None <->
   findConfig fs (buildDirOf dir) = None
   \/ exists fileName,
        findConfig fs (buildDirOf dir) = Some fileName
        /\ run_err r = None
        /\ wo (filepath.Join [outputDir; outNameOf dir fileName]) = None)
  /\ (b_err res = Some context_Canceled <->
      findConfig fs (buildDirOf dir) <> None
      /\ run_err r <> None /\ is_Canceled ctxErr = true)
  /\ (b_invoked res
      = if fileExists fs (filepath.Join [buildDirOf dir; "kustomization.yaml"])
           || fileExists fs (filepath.Join [buildDirOf dir; "kustomization.yml"])
        then [(kustomizePath, args)] else [])
  /\ (b_err res = Some context_Canceled -> b_written res = [] /\ b_fs res = fs).
Proof.
  cbv zeta. unfold buildKustomization.
  set (r := runner kustomizePath _).
  assert (I : b_invoked
                match findConfig fs (buildDirOf dir) with
                | Some fileName =>
                    {| b_log := b_log (afterRunner wo ctxErr dir outputDir fileName r fs);
                       b_err := b_err (afterRunner wo ctxErr dir outputDir fileName r fs);
                       b_fs := b_fs (afterRunner wo ctxErr dir outputDir fileName r fs);
                       b_invoked :=
                         [(kustomizePath,
                           buildArgs (buildDirOf dir) loadRestrictor enableHelm)];
                       b_written :=
                         b_written (afterRunner wo ctxErr dir outputDir fileName r fs) |}
                | None =>
                    {| b_log := ""; b_err := None; b_fs := fs;
                       b_invoked := []; b_written := [] |}
                end
              = if fileExists fs (filepath.Join [buildDirOf dir; "kustomization.yaml"])
                   || fileExists fs (filepath.Join [buildDirOf dir; "kustomization.yml"])
                then [(kustomizePath,
                       buildArgs (buildDirOf dir) loadRestrictor enableHelm)]
                else []).
  { unfold findConfig. now repeat destruct (fileExists fs _). }
  destruct (findConfig fs (buildDirOf dir)) as [fileName|] eqn:F;
    cbn [b_err b_invoked b_written b_fs].
  - unfold afterRunner, WriteFile. cbv zeta.
    generalize (filepath.Join [outputDir; errOutOf (outNameOf dir fileName)])
      as errPath.
    intros errPath.
    destruct (run_err r) as [e|]; [destruct (is_Canceled ctxErr)|].
    + cbn [b_err b_written b_fs]. conjuncts; [| |exact I|]; crack.
      conjuncts; congruence.
    + destruct (wo errPath); cbn [b_err b_written b_fs];
        (conjuncts; [| |exact I|]); crack.
    + destruct (wo _) eqn:W; cbn [b_err b_written b_fs];
        (conjuncts; [| |exact I|]); crack.
      right. exists fileName. auto.
  - conjuncts; [| |exact I|]; crack.
Qed.

(** X9: [sanitizeOutName] always gives a plain file-name component: it is
    never empty, holds no [/], and neither begins nor ends with [.] or
    [/] (so it is never [.] or [..], never hidden, and cannot lead out
    of the output directory). *)
Theorem sanitizeOutName_is_a_plain_component (dir : string) :
  sanitizeOutName dir <> ""
  /\ freeOf "/" (sanitizeOutName dir) = true
  /\ headOutside "./" (sanitizeOutName dir) = true
  /\ lastOutside "./" (sanitizeOutName dir) = true.
Proof.
  split; [|split; [apply sanitizeOutName_no_slash|]].
  - rewrite sanitizeOutName_eq. cbv zeta.
    destruct (String.eqb_spec
                (strings.mapBytes slashToUnderscore (strings.Trim dir "./")) "");
      [discriminate | assumption].
  - rewrite sanitizeOutName_eq. cbv zeta.
    destruct (_ =? ""); [split; reflexivity|].
    pose proof (Trim_ends "./" dir) as [H1 H2].
    split.
    + apply headOutside_mapBytes; [exact slashToUnderscore_cutset | exact H1].
    + apply lastOutside_mapBytes; [exact slashToUnderscore_cutset | exact H2].
Qed.

Lemma keep_last (n : nat) (ls acc : list string) :
  List.length acc <= n ->
  fold_left (fun (buf : list string) (line : string) =>
               if (n <? List.length (buf ++ [line])%list)%nat
               then tl (buf ++ [line])%list else (buf ++ [line])%list)
            ls acc
  = lastN n (acc ++ ls)%list.
Proof.
  unfold lastN. revert acc; induction ls as [|x ls IH]; intros acc Hacc.
  - simpl. rewrite app_nil_r.
    replace (List.length acc - n) with 0 by lia. reflexivity.
  - cbn [fold_left].
    destruct (n <? List.length (acc ++ [x])%list)%nat eqn:E.
    + apply Nat.ltb_lt in E. rewrite length_app in E. cbn [List.length] in E.
      destruct acc as [|a acc]; cbn [app tl List.length] in *.
      * assert (n = 0) by lia. subst n. rewrite (IH []) by (simpl; lia).
        cbn [app]. rewrite !Nat.sub_0_r. reflexivity.
      * rewrite IH by (rewrite length_app; cbn [List.length]; lia).
        rewrite <- app_assoc. cbn [app].
        rewrite !length_app. cbn [List.length].
        replace (S (List.length acc + S (List.length ls)) - n)
          with (S (List.length ls)) by lia.
        replace (List.length acc + S (List.length ls) - n)
          with (List.length ls) by lia.
        reflexivity.
    + apply Nat.ltb_ge in E. rewrite length_app in E. cbn [List.length] in E.
      rewrite IH by (rewrite length_app; cbn [List.length]; lia).
      now rewrite <- app_assoc.
Qed.

Lemma fitsScanner_shorter (a b : string) :
  String.length a <= String.length b -> fitsScanner b = true ->
  fitsScanner a = true.
Proof.
  unfold fitsScanner. intros L H. apply N.ltb_lt in H. apply N.ltb_lt. lia.
Qed.

Lemma rawLines_head (s cur : string) :
  cur <> "" ->
  exists line rest,
    rawLines s cur = line :: rest /\ String.length cur <= String.length line.
Proof.
  revert cur; induction s as [|c s IH]; intros cur Hc; cbn [rawLines].
  - destruct (String.eqb_spec cur ""); [contradiction|]. eauto.
  - destruct (c =? "010")%char; [eauto|].
    destruct (IH (cur ++ String c "")) as [line [rest [E L]]].
    + destruct cur; discriminate.
    + rewrite length_append in L. simpl in L. exists line, rest.
      split; [exact E | lia].
Qed.

Lemma scanLines_rawLines (s cur : string) :
  fitsScanner cur = true ->
  scanLines s cur = map dropCR (takeWhile fitsScanner (rawLines s cur)).
Proof.
  revert cur; induction s as [|c s IH]; intros cur Hc; cbn [scanLines rawLines].
  - destruct (cur =? ""); [reflexivity|]. cbn [takeWhile]. now rewrite Hc.
  - destruct (c =? "010")%char.
    + cbn [takeWhile]. rewrite Hc. cbn [map]. now rewrite (IH "").
    + rewrite N.leb_antisym. fold (fitsScanner (cur ++ String c "")).
      destruct (fitsScanner (cur ++ String c "")) eqn:F; cbn [negb].
      * now apply IH.
      * destruct (rawLines_head s (cur ++ String c "")) as [line [rest [E L]]].
        { destruct cur; discriminate. }
        rewrite E. cbn [takeWhile].
        destruct (fitsScanner line) eqn:Fl; [|reflexivity].
        rewrite (fitsScanner_shorter _ _ L Fl) in F. discriminate.
Qed.

Lemma takeWhile_all {A : Type} (f : A -> bool) (l : list A) :
  forallb f l = true -> takeWhile f l = l.
Proof.
  induction l as [|x l IH]; [reflexivity|]. cbn [forallb takeWhile].
  rewrite andb_true_iff. intros [-> H]. now rewrite IH.
Qed.

(** X10: [tail] gives the last [lines] of the lines its scanner yields,
    joined by line feeds.  The scanner yields the lines of the text
    (carriage return dropped) up to the first line of 65536 bytes or
    more, where it stops; so for a text whose lines are all shorter,
    [tail] is the last [lines] lines of the text, and for any other it
    is the last [lines] of the lines before the first over-long one.
    As many lines are kept as there are, up to [lines], and none for
    [lines = 0]. *)
Theorem tail_is_the_last_lines (s : string) (lines : nat) :
  tail s lines = strings.Join (lastN lines (scanLines s "")) newline
  /\ scanLines s "" = map dropCR (takeWhile fitsScanner (rawLines s ""))
  /\ (forallb fitsScanner (rawLines s "") = true ->
      tail s lines
      = strings.Join (lastN lines (map dropCR (rawLines s ""))) newline)
  /\ List.length (lastN lines (scanLines s ""))
     = Nat.min lines (List.length (scanLines s ""))
  /\ tail s 0 = "".
Proof.
  assert (T : forall n, tail s n = strings.Join (lastN n (scanLines s "")) newline).
  { intros n. unfold tail. cbv zeta.
    now rewrite (keep_last n (scanLines s "") []) by (simpl; lia). }
  assert (R : scanLines s "" = map dropCR (takeWhile fitsScanner (rawLines s ""))).
  { now apply scanLines_rawLines. }
  conjuncts.
  - apply T.
  - exact R.
  - intros H. now rewrite T, R, takeWhile_all.
  - unfold lastN. rewrite length_skipn. lia.
  - rewrite T. unfold lastN. rewrite Nat.sub_0_r, skipn_all. reflexivity.
Qed.

(** ** The change enumeration *)

(** X11: an exclusion covers a whole subtree, and exclusion lists add
    up: whatever lies below an excluded path is excluded, a path is
    excluded by two lists together exactly when one of them excludes
    it, and no list at all excludes nothing. *)
Theorem exclusion_covers_the_subtree (path : string) (exclusions : list string) :
  (forall below,
      isPathExcluded path exclusions = true ->
      isPathExcluded (path ++ "/" ++ below) exclusions = true)
  /\ (forall more,
         isPathExcluded path (exclusions ++ more)
         = isPathExcluded path exclusions || isPathExcluded path more)
  /\ isPathExcluded path [] = false.
Proof.
  conjuncts; [| |reflexivity].
  - intros below. induction exclusions as [|E rest IH]; cbn [isPathExcluded];
      [discriminate|].
    destruct ((path =? strings.TrimSuffix E "/")
              || strings.HasPrefix path (strings.TrimSuffix E "/" ++ "/")) eqn:H.
    + intros _. apply orb_true_iff in H.
      assert (P : strings.HasPrefix (path ++ "/" ++ below)
                    (strings.TrimSuffix E "/" ++ "/") = true).
      { apply HasPrefix_iff. destruct H as [H|H].
        - apply String.eqb_eq in H. subst path. exists below.
          now rewrite append_assoc.
        - apply HasPrefix_iff in H. destruct H as [rest' ->].
          exists (rest' ++ "/" ++ below). now rewrite !append_assoc. }
      rewrite P, orb_true_r. reflexivity.
    + intros H'. rewrite (IH H').
      match goal with |- (if ?c then _ else _) = _ => now destruct c end.
  - intros more. induction exclusions as [|E rest IH];
      cbn [isPathExcluded app]; [reflexivity|].
    match goal with |- (if ?c then _ else _) = _ => destruct c end;
      [reflexivity | exact IH].
Qed.

Lemma subsequence_nil {A : Type} (l : list A) : subsequence [] l.
Proof. induction l; constructor; auto. Qed.

Lemma subsequence_app_keep {A : Type} (a k l : list A) :
  subsequence k l -> subsequence (a ++ k) (a ++ l).
Proof. induction a; simpl; [auto | intros; apply subseq_keep; auto]. Qed.

Lemma collectPaths_ordered (norm : string -> string)
    (exclusions lines : list string) :
  NoDup (collectPaths norm exclusions lines)
  /\ subsequence (collectPaths norm exclusions lines) (map norm lines).
Proof.
  unfold collectPaths.
  assert (G : forall seen paths,
             (forall x, In x seen <-> In x paths) -> NoDup paths ->
             let res :=
               snd (fold_left
                      (fun (acc : list string * list string) (l : string) =>
                         let (seen, paths) := acc in
                         let q := norm l in
                         if q =? "" then acc
                         else if negb (existsb (String.eqb q) seen) then
                           if negb (isPathExcluded q exclusions)
                           then (q :: seen, app paths [q])
                           else acc
                         else acc)
                      lines (seen, paths)) in
             NoDup res
             /\ exists ext, res = (paths ++ ext)%list
                            /\ subsequence ext (map norm lines)).
  { induction lines as [|l lines IH]; intros seen paths Hs Nd; simpl.
    - split; [exact Nd|]. exists []. split; [now rewrite app_nil_r | constructor].
    - assert (Skip : forall res,
                 (NoDup res /\ exists ext, res = (paths ++ ext)%list
                                 /\ subsequence ext (map norm lines)) ->
                 NoDup res /\ exists ext, res = (paths ++ ext)%list
                                 /\ subsequence ext (norm l :: map norm lines)).
      { intros res [N [ext [E S]]]. split; [exact N|].
        exists ext. split; [exact E | now apply subseq_skip]. }
      destruct (norm l =? "") eqn:E0; [apply Skip, IH; assumption|].
      destruct (existsb (String.eqb (norm l)) seen) eqn:Ex; simpl;
        [apply Skip, IH; assumption|].
      destruct (isPathExcluded (norm l) exclusions) eqn:Xc; simpl;
        [apply Skip, IH; assumption|].
      destruct (IH (norm l :: seen) (paths ++ [norm l])%list) as [N [ext [E S]]].
      + intros x. simpl. rewrite in_app_iff, Hs. simpl. tauto.
      + apply NoDup_app; [exact Nd | repeat constructor; simpl; tauto |].
        intros x Hx [<-|[]].
        apply Hs in Hx.
        assert (existsb (String.eqb (norm l)) seen = true); [|congruence].
        apply existsb_exists. exists (norm l). split; [exact Hx|].
        apply String.eqb_refl.
      + split; [exact N|]. exists (norm l :: ext). split.
        * etransitivity; [exact E|]. now rewrite <- app_assoc.
        * now apply subseq_keep. }
  destruct (G [] []) as [N [ext [E S]]]; [tauto | constructor|].
  split; [exact N|]. simpl in E. rewrite E. exact S.
Qed.

Lemma existsb_same {A : Type} (f : A -> bool) (l1 l2 : list A) :
  (forall x, In x l1 <-> In x l2) -> existsb f l1 = existsb f l2.
Proof.
  intros H. apply eq_true_iff_eq. rewrite !existsb_exists.
  split; intros [x [Hx Hf]]; exists x; split; auto; now apply H.
Qed.

(** The loop of lines 36-48, one line further: the path of the line is
    appended exactly when it is not empty, not excluded, and not among
    the paths kept so far. *)
Lemma collectPaths_snoc (norm : string -> string) (exclusions lines : list string)
    (l : string) :
  collectPaths norm exclusions (lines ++ [l])
  = (collectPaths norm exclusions lines
       ++ (if negb (norm l =? "")
              && negb (isPathExcluded (norm l) exclusions)
              && negb (existsb (String.eqb (norm l))
                         (collectPaths norm exclusions lines))
           then [norm l] else []))%list.
Proof.
  unfold collectPaths. rewrite fold_left_app. cbn [fold_left].
  assert (G : forall ls seen paths,
             (forall x, In x seen <-> In x paths) ->
             forall x,
               In x (fst (fold_left
                            (fun (acc : list string * list string) (l : string) =>
                               let (seen, paths) := acc in
                               let p := norm l in
                               if p =? "" then acc
                               else if negb (existsb (String.eqb p) seen) then
                                 if negb (isPathExcluded p exclusions)
                                 then (p :: seen, app paths [p])
                                 else acc
                               else acc)
                            ls (seen, paths)))
               <-> In x (snd (fold_left
                            (fun (acc : list string * list string) (l : string) =>
                               let (seen, paths) := acc in
                               let p := norm l in
                               if p =? "" then acc
                               else if negb (existsb (String.eqb p) seen) then
                                 if negb (isPathExcluded p exclusions)
                                 then (p :: seen, app paths [p])
                                 else acc
                               else acc)
                            ls (seen, paths)))).
  { induction ls as [|y ls IH]; intros seen paths Hs; cbn [fold_left].
    - exact Hs.
    - cbv zeta. destruct (norm y =? ""); [now apply IH|].
      destruct (negb (existsb (String.eqb (norm y)) seen)); [|now apply IH].
      destruct (negb (isPathExcluded (norm y) exclusions)); [|now apply IH].
      apply IH. intros x. simpl. rewrite in_app_iff, Hs. simpl. tauto. }
  specialize (G lines [] [] (fun x => conj (fun H => H) (fun H => H))).
  destruct (fold_left _ lines ([], [])) as [seen paths]. cbn [fst snd] in *.
  cbv zeta. rewrite (existsb_same _ seen paths G).
  destruct (norm l =? ""); cbn [negb andb snd]; [now rewrite app_nil_r|].
  destruct (existsb (String.eqb (norm l)) paths); cbn [negb andb snd];
    [now rewrite andb_false_r, app_nil_r|].
  destruct (isPathExcluded (norm l) exclusions); cbn [negb andb snd];
    [now rewrite app_nil_r | reflexivity].
Qed.

(** X12: what the change enumeration returns.  It succeeds exactly when
    the three git commands succeed (the top-level directory, not blank;
    [HEAD~1]; the diff).  For a diff that is blank once trimmed the
    result is then no path, and no error; for any other it is what the
    loop collects from the lines of the trimmed diff, and the loop is
    pinned down line by line: nothing for no line, and one line more
    appends the normalized path of that line exactly when that path is
    not empty, not excluded and not among the paths collected so far.
    So the paths come in the order of the diff, each at the place of
    its first line, without repetition. *)
Theorem changed_files_are_distinct_and_ordered (norm : string -> string)
    (git : GitOracle) (startDir : string) (exclusions : list string) :
  (forall repoRoot diff,
      gitRepoRoot git startDir = Ok repoRoot ->
      verifyHasParentCommit git repoRoot = None ->
      gitOutput git repoRoot
        ["diff"; "--name-only"; "--diff-filter=ACMRD"; "HEAD~1..HEAD"] = Ok diff ->
      getChangedFilesLastCommitWithExclusions norm git startDir exclusions
      = Ok (if strings.TrimSpace diff =? "" then []
            else collectPaths norm exclusions
                   (strings.Split (strings.TrimSpace diff) "010"%char)))
  /\ (forall paths,
         getChangedFilesLastCommitWithExclusions norm git startDir exclusions
         = Ok paths ->
         exists repoRoot diff,
           gitRepoRoot git startDir = Ok repoRoot
           /\ verifyHasParentCommit git repoRoot = None
           /\ gitOutput git repoRoot
                ["diff"; "--name-only"; "--diff-filter=ACMRD"; "HEAD~1..HEAD"]
              = Ok diff)
  /\ collectPaths norm exclusions [] = []
  /\ (forall lines l,
         collectPaths norm exclusions (lines ++ [l])
         = (collectPaths norm exclusions lines
              ++ (if negb (norm l =? "")
                     && negb (isPathExcluded (norm l) exclusions)
                     && negb (existsb (String.eqb (norm l))
                                (collectPaths norm exclusions lines))
                  then [norm l] else []))%list)
  /\ (forall lines,
         NoDup (collectPaths norm exclusions lines)
         /\ subsequence (collectPaths norm exclusions lines) (map norm lines)).
Proof.
  conjuncts.
  - intros repoRoot diff R V D.
    unfold getChangedFilesLastCommitWithExclusions. rewrite R, V, D. cbv zeta.
    now destruct (strings.TrimSpace diff =? "").
  - intros paths. unfold getChangedFilesLastCommitWithExclusions.
    destruct (gitRepoRoot git startDir) as [repoRoot|e]; [|discriminate].
    destruct (verifyHasParentCommit git repoRoot) as [e|] eqn:V; [discriminate|].
    destruct (gitOutput git repoRoot _) as [diff|e] eqn:D; [|discriminate].
    intros _. exists repoRoot, diff. auto.
  - reflexivity.
  - intros lines l. apply collectPaths_snoc.
  - intros lines. apply collectPaths_ordered.
Qed.

Lemma changed_files_are_distinct_and_ordered_witness :
  getChangedFilesLastCommitWithExclusions (fun p => p) historyGit "." ["vendor/"]
  = Ok ["apps/a/kustomization.yaml"; "README.md"]
  /\ NoDup ["apps/a/kustomization.yaml"; "README.md"].
Proof.
  destruct (changed_files_are_distinct_and_ordered (fun p => p) historyGit "."
              ["vendor/"]) as [H [_ [_ [_ N]]]].
  split.
  - etransitivity.
    + apply (H "/repo"
               ("apps/a/kustomization.yaml" ++ newline ++ "vendor/lib.go" ++ newline
                  ++ "apps/a/kustomization.yaml" ++ newline
                  ++ "README.md" ++ newline)); reflexivity.
    + vm_compute. reflexivity.
  - exact (proj1 (N ["apps/a/kustomization.yaml"; "vendor/lib.go";
                     "apps/a/kustomization.yaml"; "README.md"])).
Defined.

Lemma isSpace_cutset (c : ascii) : strings.isSpace c = strings.inCutset c asciiSpace.
Proof. destruct c as [[] [] [] [] [] [] [] []]; reflexivity. Qed.

Lemma TrimSpace_Trim (s : string) : strings.TrimSpace s = strings.Trim s asciiSpace.
Proof.
  assert (L : forall t, strings.trimLeftSpace t = strings.trimLeftASCII t asciiSpace).
  { induction t as [|c t IH]; [reflexivity|].
    cbn [strings.trimLeftSpace strings.trimLeftASCII].
    now rewrite isSpace_cutset, IH. }
  assert (R : forall t, strings.trimRightSpace t = strings.trimRightASCII t asciiSpace).
  { induction t as [|c t IH]; [reflexivity|].
    cbn [strings.trimRightSpace strings.trimRightASCII].
    now rewrite isSpace_cutset, IH. }
  unfold strings.TrimSpace, strings.Trim. now rewrite R, L.
Qed.

Lemma TrimSpace_idempotent (s : string) :
  strings.TrimSpace (strings.TrimSpace s) = strings.TrimSpace s.
Proof.
  rewrite !TrimSpace_Trim.
  destruct (Trim_ends asciiSpace s) as [H1 H2]. now apply Trim_fixed.
Qed.

(** X13: what the git helpers hand back.  [gitOutput] returns the
    standard output exactly when the command succeeded, and otherwise
    an error that names the command line; [gitRepoRoot] returns the
    trimmed output of [rev-parse --show-toplevel], never a blank one and
    never one with white space around it, and otherwise an error that
    begins with [failed to determine git repo root: ]. *)
Theorem git_helpers_results (git : GitOracle) (dir : string) (args : list string) :
  match gitOutput git dir args with
  | Ok out => run_err (git dir args) = None /\ out = run_stdout (git dir args)
  | Err e =>
      run_err (git dir args) <> None
      /\ startsWith (Error e) ("git " ++ strings.Join args " " ++ " failed: ")
  end
  /\ match gitRepoRoot git dir with
     | Ok root =>
         run_err (git dir ["rev-parse"; "--show-toplevel"]) = None
         /\ root = strings.TrimSpace (run_stdout (git dir ["rev-parse"; "--show-toplevel"]))
         /\ root <> "" /\ strings.TrimSpace root = root
     | Err e => startsWith (Error e) "failed to determine git repo root: "
     end.
Proof.
  split.
  - unfold gitOutput. destruct (run_err (git dir args)) as [e|]; [|auto].
    destruct (negb _); cbn [Error]; (split; [discriminate|]);
      eexists; rewrite !append_assoc; reflexivity.
  - unfold gitRepoRoot, gitOutput.
    destruct (run_err (git dir _)) as [e|].
    + destruct (negb _); cbn [Error]; eexists; reflexivity.
    + destruct (String.eqb_spec
                  (strings.TrimSpace (run_stdout (git dir ["rev-parse"; "--show-toplevel"])))
                  "") as [E|N].
      * cbn [Error]. eexists; reflexivity.
      * conjuncts; auto. apply TrimSpace_idempotent.
Qed.

(** ** [Run]: what is reported *)

Ltac run_cases world config :=
  unfold Run, collectRoots, selectRoots, logVersions, try, bind, tell, ret,
    failWith;
  destruct (Install world _ _) as [?kp|?e] eqn:?;
  [ destruct (BuildAll config) eqn:?;
    (destruct (findKustomizationFilesWithExclusions world _ _) as [?fl|?e] eqn:?;
     [ destruct (os_MkdirAll world _) as [?e|] eqn:?;
       [ | destruct (ChangedOnly config) eqn:?;
           [ destruct (getChangedFilesLastCommit _ _ _) as [?ch|?e] eqn:? | ] ]
     | ])
  | ].

(** X14: the workflow outputs follow the build.  A run that stops
    before the builder is called sets no output; a run that calls the
    builder creates the output directory first and then, whether or not
    it finally fails for the failed roots, writes and prints the
    summary and sets the five outputs in their order, the counts taken
    from the summary the builder returned and [roots-json] holding the
    very roots the builder was given. *)
Theorem outputs_follow_the_build (world : Collaborators) (config : Config)
    (builder : KustomizeBuilder) :
  let out := Run world config builder in
  (builds (fst out) = [] /\ outputs (fst out) = [] /\ snd out <> None)
  \/ (exists kustomizePath roots,
        let s := builder roots config kustomizePath in
        builds (fst out) = [(roots, s)]
        /\ outputs (fst out)
           = [SetOutput "artifact-name" "kustomize-manifests";
              SetOutput "manifest-count"
                (itoa (countYAMLFiles world (OutputDir config)));
              SetOutput "success-count" (itoa (Success s));
              SetOutput "fail-count" (itoa (Failed s));
              SetOutputRoots "roots-json" roots]
        /\ actions (fst out)
           = (MkdirAll (OutputDir config)
                :: Build roots s
                :: WriteSummary (filepath.Join [OutputDir config; "_summary.json"]) s
                :: PrintSummary s
                :: outputs (fst out))%list).
Proof.
  run_cases world config;
    try (left; conjuncts; [reflexivity | reflexivity | discriminate]);
    right; eexists; eexists; cbv zeta;
    destruct (os_WriteSummary world _);
    match goal with
    | |- context [(0 <? Failed ?s)%nat && FailOnError config] =>
        destruct ((0 <? Failed s)%nat && FailOnError config)
    end; conjuncts; reflexivity.
Qed.

(** X15: a summary file that cannot be written does not change the run:
    with any other fate for the write of [_summary.json], [Run] returns
    the same error or none, and does the same things apart from log
    lines. *)
Theorem summary_write_failure_is_not_fatal (world : Collaborators)
    (config : Config) (builder : KustomizeBuilder)
    (write : string -> option error) :
  snd (Run (withSummaryWrite world write) config builder)
  = snd (Run world config builder)
  /\ actions (fst (Run (withSummaryWrite world write) config builder))
     = actions (fst (Run world config builder)).
Proof.
  unfold Run, collectRoots, selectRoots, logVersions, try, bind, tell, ret,
    failWith, withSummaryWrite.
  cbn [Install CmdRun findKustomizationFilesWithExclusions
       kustomizationDirsFromFiles dedupeTopLevelDirs mapRootsToRepoRootRelative
       normalizeRepoRelativePath os_MkdirAll os_WriteSummary countYAMLFiles git].
  destruct (Install world _ _) as [kp|e]; [|split; reflexivity].
  destruct (BuildAll config);
    (destruct (findKustomizationFilesWithExclusions world _ _) as [fl|e];
     [|split; reflexivity]);
    (destruct (os_MkdirAll world _) as [e|]; [split; reflexivity|]);
    (destruct (ChangedOnly config);
     [destruct (getChangedFilesLastCommit _ _ _) as [ch|e];
      [|split; reflexivity]|]);
    destruct (write _); destruct (os_WriteSummary world _);
    match goal with
    | |- context [(0 <? Failed ?s)%nat && FailOnError config] =>
        destruct ((0 <? Failed s)%nat && FailOnError config)
    end; split; reflexivity.
Qed.

(** X16: which roots reach the builder.  When [Run] calls the builder,
    the installer, the scan of the working directory (which leaves out
    [.git], the output directory and the ignored directories) and the
    creation of the output directory all succeeded, the builder is
    given the path the installer returned, and its roots are the
    repo-relative directories of the files found (deduplicated unless
    [BuildAll] is set): all of them without [ChangedOnly], and with it
    what [selectRootsForChangedFiles] keeps of them for the files the
    change enumeration returned, which then succeeded. *)
Theorem builder_gets_the_discovered_roots (world : Collaborators)
    (config : Config) (builder : KustomizeBuilder)
    (roots : list string) (s : Summary) :
  builds (fst (Run world config builder)) = [(roots, s)] ->
  exists kustomizePath files,
    Install world (KustomizeVersion config) (KustomizeSHA256 config)
    = Ok kustomizePath
    /\ findKustomizationFilesWithExclusions world (WorkingDir config)
         (".git" :: OutputDir config :: IgnoreDirs config) = Ok files
    /\ os_MkdirAll world (OutputDir config) = None
    /\ s = builder roots config kustomizePath
    /\ let dirs := kustomizationDirsFromFiles world files (WorkingDir config) in
       let repoRoots :=
         mapRootsToRepoRootRelative world (WorkingDir config)
           (if BuildAll config then dirs else dedupeTopLevelDirs world dirs) in
       if ChangedOnly config then
         exists changed,
           getChangedFilesLastCommit (normalizeRepoRelativePath world)
             (git world) (WorkingDir config) = Ok changed
           /\ roots = selectRootsForChangedFiles repoRoots changed
       else roots = repoRoots.
Proof.
  run_cases world config; try discriminate;
    destruct (os_WriteSummary world _);
    match goal with
    | |- context [(0 <? Failed ?s)%nat && FailOnError config] =>
        destruct ((0 <? Failed s)%nat && FailOnError config)
    end;
    cbn [fst builds app]; intros [= <- <-];
    eexists; eexists;
    (conjuncts; [reflexivity | reflexivity | reflexivity | reflexivity |]);
    cbv zeta; first [reflexivity | eexists; split; reflexivity].
Qed.

Lemma builder_gets_the_discovered_roots_witness :
  let config := sampleConfig false false false in
  builds (fst (Run sampleWorld config allCanceled))
  = [(["apps/a"], allCanceled ["apps/a"] config "/tmp/kustomize")]
  /\ exists kustomizePath files,
       Install sampleWorld "v5.8.0" "" = Ok kustomizePath
       /\ findKustomizationFilesWithExclusions sampleWorld "." [".git"; "out"; ""]
          = Ok files.
Proof.
  intros config.
  assert (E : builds (fst (Run sampleWorld config allCanceled))
              = [(["apps/a"], allCanceled ["apps/a"] config "/tmp/kustomize")])
    by reflexivity.
  split; [exact E|].
  destruct (builder_gets_the_discovered_roots sampleWorld config allCanceled
              ["apps/a"] (allCanceled ["apps/a"] config "/tmp/kustomize") E)
    as [kp [files [H1 [H2 _]]]].
  exists kp, files. split; [exact H1 | exact H2].
Defined.

(** ** main.go: [randomHex], [writeGitHubOutput], [countYAMLFiles] *)

Lemma hex_byte (v : Byte.byte) :
  let hi := main_go.hexAt (N.shiftr (Byte.to_N v) 4) in
  let lo := main_go.hexAt (N.land (Byte.to_N v) 15) in
  match indexIn hi main_go.hextable 0, indexIn lo main_go.hextable 0 with
  | Some h, Some l => Byte.of_N (16 * h + l) = Some v
  | _, _ => False
  end
  /\ strings.inCutset hi main_go.hextable = true
  /\ strings.inCutset lo main_go.hextable = true
  /\ (hi =? "010")%char = false /\ (lo =? "010")%char = false.
Proof. destruct v; vm_compute; auto. Qed.

Lemma unhex_hexOf (b : list Byte.byte) : unhex (main_go.hexOf b) = Some b.
Proof.
  induction b as [|v b IH]; [reflexivity|].
  cbn [main_go.hexOf unhex]. rewrite IH.
  destruct (hex_byte v) as [H _]. cbv zeta in H.
  destruct (indexIn (main_go.hexAt (N.shiftr (Byte.to_N v) 4)) main_go.hextable 0);
    [|contradiction].
  destruct (indexIn (main_go.hexAt (N.land (Byte.to_N v) 15)) main_go.hextable 0);
    [|contradiction].
  now rewrite H.
Qed.

Lemma hexOf_shape (b : list Byte.byte) :
  String.length (main_go.hexOf b) = 2 * List.length b
  /\ allIn main_go.hextable (main_go.hexOf b) = true
  /\ freeOf "010" (main_go.hexOf b) = true.
Proof.
  induction b as [|v b [IH1 [IH2 IH3]]]; [repeat split|].
  destruct (hex_byte v) as [_ [H1 [H2 [H3 H4]]]]. cbv zeta in *.
  cbn [main_go.hexOf allIn freeOf String.length List.length].
  rewrite IH1, IH2, IH3, H1, H2.
  rewrite H3, H4. repeat split. lia.
Qed.

(** X17: [randomHex] writes the bytes it read in lower-case hexadecimal,
    two digits per byte: the text decodes back to the bytes, so
    different bytes give different texts; it has twice as many bytes as
    were read, all of them digits of [0123456789abcdef]; and it is the
    word [fallback] when the random source fails. *)
Theorem randomHex_is_the_hex_of_the_bytes
    (randRead : nat -> option (list Byte.byte)) (nBytes : nat) :
  match randRead nBytes with
  | None => main_go.randomHex randRead nBytes = "fallback"
  | Some b =>
      unhex (main_go.randomHex randRead nBytes) = Some b
      /\ String.length (main_go.randomHex randRead nBytes) = 2 * List.length b
      /\ allIn main_go.hextable (main_go.randomHex randRead nBytes) = true
  end
  /\ (forall b1 b2, main_go.hexOf b1 = main_go.hexOf b2 -> b1 = b2).
Proof.
  split.
  - unfold main_go.randomHex. destruct (randRead nBytes) as [b|]; [|reflexivity].
    destruct (hexOf_shape b) as [H1 [H2 _]]. auto using unhex_hexOf.
  - intros b1 b2 H. apply (f_equal unhex) in H.
    rewrite !unhex_hexOf in H. now injection H.
Qed.

Lemma Split_lines_of (a b : string) :
  strings.Split (a ++ newline ++ b) "010"
  = (strings.Split a "010" ++ strings.Split b "010")%list.
Proof. unfold strings.Split, newline. apply splitByte_append. Qed.

(** X18: the record [writeGitHubOutput] appends frames the value between
    two delimiter lines.  For a name without a line feed, the lines of
    the record are the header [name<<delimiter], then the lines of the
    value (one final line feed of the value dropped), then the
    delimiter alone and the empty rest after the last line feed; the
    delimiter is [GH_OUTPUT_] followed by the random digits and holds
    no line feed. *)
Theorem github_output_record_is_framed
    (randRead : nat -> option (list Byte.byte)) (name value : string) :
  freeOf "010" name = true ->
  let delim := "GH_OUTPUT_" ++ main_go.randomHex randRead 12 in
  strings.Split (main_go.writeGitHubOutput randRead name value) "010"
  = ((name ++ "<<" ++ delim)%string
       :: strings.Split (strings.TrimSuffix value newline) "010"
       ++ [delim; ""])%list
  /\ freeOf "010" delim = true.
Proof.
  intros Hn delim.
  assert (Hd : freeOf "010" delim = true).
  { unfold delim, main_go.randomHex. rewrite freeOf_append.
    destruct (randRead 12) as [b|]; [|reflexivity].
    destruct (hexOf_shape b) as [_ [_ H]]. now rewrite H. }
  split; [|exact Hd].
  unfold main_go.writeGitHubOutput. cbv zeta. fold delim.
  replace (name ++ "<<" ++ delim ++ newline
             ++ strings.TrimSuffix value newline ++ newline ++ delim ++ newline)
    with ((name ++ "<<" ++ delim) ++ newline
            ++ (strings.TrimSuffix value newline ++ newline ++ (delim ++ newline ++ "")))
    by (rewrite !append_assoc; reflexivity).
  assert (F : forall s, freeOf "010" s = true -> strings.Split s "010" = [s]).
  { intros s Hs. unfold strings.Split. now rewrite splitByte_free. }
  rewrite !Split_lines_of.
  rewrite (F (name ++ "<<" ++ delim))
    by (rewrite !freeOf_append, Hn, Hd; reflexivity).
  rewrite (F delim Hd). reflexivity.
Qed.

Lemma github_output_record_is_framed_witness :
  strings.Split
    (main_go.writeGitHubOutput noBytes "roots-json"
       ("a" ++ newline ++ "b" ++ newline)) "010"
  = ["roots-json<<GH_OUTPUT_fallback"; "a"; "b"; "GH_OUTPUT_fallback"; ""].
Proof.
  destruct (github_output_record_is_framed noBytes "roots-json"
              ("a" ++ newline ++ "b" ++ newline)) as [H _];
    [reflexivity|].
  rewrite H. reflexivity.
Defined.

Lemma lastElem_free (s cur : string) :
  freeOf "/" s = true -> filepath.lastElem s cur = cur ++ s.
Proof.
  revert cur; induction s as [|c s IH]; intros cur; simpl.
  - now rewrite append_nil_r.
  - rewrite andb_true_iff, negb_true_iff. intros [-> H].
    rewrite (IH _ H), append_assoc. reflexivity.
Qed.

Lemma lastElem_append (a b cur : string) :
  filepath.lastElem (a ++ "/" ++ b) cur = filepath.lastElem b "".
Proof.
  revert cur; induction a as [|c a IH]; intros cur; simpl; [reflexivity|].
  destruct (c =? "/")%char; apply IH.
Qed.

Lemma lastOutside_append (cut a b : string) :
  b <> "" -> lastOutside cut (a ++ b) = lastOutside cut b.
Proof.
  intros Hb. induction a as [|c a IH]; [reflexivity|].
  cbn [append]. destruct (a ++ b) as [|d r] eqn:E.
  - destruct a; [simpl in E; contradiction | discriminate].
  - cbn [lastOutside]. exact IH.
Qed.

Lemma freeOf_lastOutside (c : ascii) (s : string) :
  freeOf c s = true -> lastOutside (String c "") s = true.
Proof.
  induction s as [|d s IH]; [reflexivity|].
  cbn [freeOf]. rewrite andb_true_iff. intros [Hd Hs].
  destruct s as [|d' s']; [|exact (IH Hs)].
  cbn [lastOutside strings.inCutset]. now rewrite orb_false_r.
Qed.

Lemma Base_child (parent name : string) :
  name <> "" -> freeOf "/" name = true ->
  filepath.Base (parent ++ "/" ++ name) = name.
Proof.
  intros Ne Fr. unfold filepath.Base.
  destruct (String.eqb_spec (parent ++ "/" ++ name) "") as [E|_].
  { apply (f_equal String.length) in E. rewrite !length_append in E.
    simpl in E. lia. }
  cbv zeta. rewrite trimRight_fixed.
  - rewrite lastElem_append, lastElem_free by exact Fr. cbn [append].
    destruct (String.eqb_spec name "") as [E|_]; [contradiction | reflexivity].
  - rewrite <- append_assoc. rewrite lastOutside_append by exact Ne.
    now apply freeOf_lastOutside.
Qed.

Lemma Contains_append (a b sub : string) :
  strings.HasPrefix b sub = true -> strings.Contains (a ++ b) sub = true.
Proof.
  intros H. induction a as [|c a IH]; simpl.
  - destruct b; simpl; now rewrite H.
  - rewrite IH. apply orb_true_r.
Qed.

Lemma mapBytes_append (f : ascii -> ascii) (a b : string) :
  strings.mapBytes f (a ++ b) = strings.mapBytes f a ++ strings.mapBytes f b.
Proof. induction a as [|c a IH]; simpl; [reflexivity | now rewrite IH]. Qed.

Lemma countYAMLFiles_from (walk : list main_go.visit) (n : nat) :
  fold_left (fun n v => if main_go.counted v then S n else n) walk n
  = n + main_go.countYAMLFiles walk.
Proof.
  unfold main_go.countYAMLFiles. revert n.
  induction walk as [|v walk IH]; intros n; simpl; [lia|].
  rewrite IH, (IH (if main_go.counted v then 1 else 0)).
  destruct (main_go.counted v); lia.
Qed.

Lemma countYAMLFiles_app (w1 w2 : list main_go.visit) :
  main_go.countYAMLFiles (w1 ++ w2)
  = main_go.countYAMLFiles w1 + main_go.countYAMLFiles w2.
Proof.
  unfold main_go.countYAMLFiles at 1. rewrite fold_left_app.
  fold (main_go.countYAMLFiles w1). apply countYAMLFiles_from.
Qed.

(** X19: the manifest count leaves out what is not a rendered output.
    Directories and entries the walk reports an error for are never
    counted; under a clean output directory the error file that
    [buildKustomization] writes for a root is never counted, wherever
    the walk meets it; and the count is the number of counted entries,
    so it adds up over the parts of a walk. *)
Theorem error_files_are_not_counted (outputDir dir fileName : string)
    (before after : list main_go.visit) :
  filepath.Clean outputDir = outputDir -> outputDir <> "." -> outputDir <> "/" ->
  In fileName configNames ->
  let errPath := filepath.Join [outputDir; errOutOf (outNameOf dir fileName)] in
  main_go.counted (regularFile errPath) = false
  /\ main_go.countYAMLFiles (before ++ regularFile errPath :: after)
     = main_go.countYAMLFiles before + main_go.countYAMLFiles after
  /\ (forall v, main_go.v_isDir v = true \/ main_go.v_err v = true ->
                main_go.counted v = false).
Proof.
  intros Hc Hdot Hroot Hf errPath.
  assert (C : main_go.counted (regularFile errPath) = false).
  { destruct (artifact_paths outputDir dir Hc Hdot Hroot) as [_ [_ [P3 P4]]].
    assert (G : forall ext,
               freeOf "/" ext = true -> strings.ToLower ext = ext ->
               main_go.counted
                 (regularFile (outputDir ++ "/" ++ sanitizeOutName dir
                                 ++ "_kustomization-err." ++ ext)) = false).
    { intros ext Fe Lo. unfold main_go.counted, regularFile.
      cbn [main_go.v_err main_go.v_isDir main_go.v_path orb].
      assert (B : filepath.Base (outputDir ++ "/" ++ sanitizeOutName dir
                                   ++ "_kustomization-err." ++ ext)
                  = sanitizeOutName dir ++ "_kustomization-err." ++ ext).
      { apply Base_child.
        - intros E. apply (f_equal String.length) in E.
          rewrite !length_append in E. simpl in E. lia.
        - rewrite !freeOf_append, sanitizeOutName_no_slash, Fe. reflexivity. }
      rewrite B. unfold strings.ToLower. rewrite !mapBytes_append.
      fold (strings.ToLower ext). rewrite Lo.
      rewrite (Contains_append _ _ "_kustomization-err.") by reflexivity.
      now destruct (_ && _). }
    unfold errPath, configNames in *.
    destruct Hf as [<-|[<-|[]]].
    - rewrite P3. apply (G "yaml"); reflexivity.
    - rewrite P4. apply (G "yml"); reflexivity. }
  conjuncts.
  - exact C.
  - rewrite countYAMLFiles_app.
    change (regularFile errPath :: after)
      with ([regularFile errPath] ++ after)%list.
    rewrite countYAMLFiles_app. unfold main_go.countYAMLFiles at 2.
    cbn [fold_left]. now rewrite C.
  - intros v [H|H]; unfold main_go.counted; rewrite H;
      [now rewrite orb_true_r | reflexivity].
Qed.

Lemma error_files_are_not_counted_witness :
  main_go.countYAMLFiles
    [regularFile "out/app1_kustomization.yaml";
     regularFile "out/app2_kustomization-err.yaml";
     regularFile "out/_summary.json"] = 1.
Proof.
  destruct (error_files_are_not_counted "out" "app2" "kustomization.yaml"
              [regularFile "out/app1_kustomization.yaml"]
              [regularFile "out/_summary.json"])
    as [_ [H _]].
  - reflexivity.
  - discriminate.
  - discriminate.
  - now left.
  - etransitivity; [exact H | reflexivity].
Defined.

(** ** config.go: [getInput], [LoadConfig] *)

Lemma mapBytes_free (a b : ascii) (s : string) :
  freeOf a s = true -> strings.mapBytes (swapByte a b) s = s.
Proof.
  induction s as [|c s IH]; [reflexivity|].
  cbn [freeOf strings.mapBytes]. rewrite andb_true_iff, negb_true_iff.
  intros [Hc Hs]. unfold swapByte at 1. now rewrite Hc, IH.
Qed.

Lemma getInput_first (getenv : string -> string) (name defaultVal : string) :
  getInput getenv name defaultVal
  = firstNonEmpty (map getenv (inputKeys name)) defaultVal.
Proof.
  unfold getInput, inputKeys. cbv zeta. cbn [map firstNonEmpty].
  repeat match goal with
         | |- context [negb (?x =? "")] => destruct (x =? "")
         end; reflexivity.
Qed.

Lemma getInput_empty (getenv : string -> string) (name defaultVal : string) :
  getInput getenv name defaultVal = "" -> defaultVal = "".
Proof.
  rewrite getInput_first. unfold inputKeys. cbn [map firstNonEmpty].
  repeat match goal with
         | |- context [if ?x =? "" then _ else _] =>
             destruct (String.eqb_spec x "")
         end; congruence.
Qed.

(** X20: [getInput] returns the first value that is set among
    [INPUT_<NAME>] with the hyphens kept, [INPUT_<NAME>] with
    underscores, and [<NAME>] with underscores, and the default when
    none is; a variable set to the empty string counts as not set.  So
    the result is empty only when the default is, it depends on the
    environment through these three variables only, and for a name
    without hyphen the first two variables are the same. *)
Theorem getInput_takes_the_first_value_set (getenv : string -> string)
    (name defaultVal : string) :
  getInput getenv name defaultVal
  = firstNonEmpty (map getenv (inputKeys name)) defaultVal
  /\ (getInput getenv name defaultVal = "" -> defaultVal = "")
  /\ (forall getenv',
         (forall k, In k (inputKeys name) -> getenv' k = getenv k) ->
         getInput getenv' name defaultVal = getInput getenv name defaultVal)
  /\ (freeOf "-" name = true ->
      "INPUT_" ++ strings.ToUpper (strings.ReplaceAll name "-" "_")
      = "INPUT_" ++ strings.ToUpper name).
Proof.
  conjuncts.
  - apply getInput_first.
  - apply getInput_empty.
  - intros env' H. rewrite !getInput_first. unfold inputKeys in *. cbn [map].
    rewrite !H by (simpl; auto). reflexivity.
  - intros H. now rewrite (ReplaceAll_byte "-" "_"), mapBytes_free.
Qed.

Lemma splitByte_not_nil (s : string) (sep : ascii) (cur : string) :
  strings.splitByte s sep cur <> [].
Proof.
  revert cur; induction s as [|c s IH]; intros cur; simpl; [discriminate|].
  destruct (c =? sep)%char; [discriminate | apply IH].
Qed.

Lemma Join_splitByte (s : string) (sep : ascii) (cur : string) :
  strings.Join (strings.splitByte s sep cur) (String sep "") = cur ++ s.
Proof.
  revert cur; induction s as [|c s IH]; intros cur.
  - simpl. now rewrite append_nil_r.
  - cbn [strings.splitByte]. destruct (Ascii.eqb_spec c sep) as [->|N].
    + specialize (IH ""). cbn [append] in IH.
      destruct (strings.splitByte s sep "") as [|e rest] eqn:E.
      * now apply splitByte_not_nil in E.
      * cbn [strings.Join]. cbn [strings.Join] in IH. now rewrite IH.
    + rewrite IH, append_assoc. reflexivity.
Qed.

Lemma splitByte_pieces (s : string) (sep : ascii) (cur : string) :
  freeOf sep cur = true ->
  Forall (fun piece => freeOf sep piece = true) (strings.splitByte s sep cur).
Proof.
  revert cur; induction s as [|c s IH]; intros cur Hc; cbn [strings.splitByte].
  - now constructor.
  - destruct (Ascii.eqb_spec c sep) as [->|N].
    + constructor; [exact Hc | now apply IH].
    + apply IH. rewrite freeOf_append, Hc. cbn [freeOf].
      apply Ascii.eqb_neq in N. now rewrite N.
Qed.

(** X21: the configuration [LoadConfig] builds.  Whatever the
    environment, the output directory, the tool version, the load
    restrictor and the working directory are never empty (an input set
    to nothing falls back to its default); [IgnoreDirs] always has at
    least one entry, no entry holds a comma, and the entries joined by
    commas give the input back; and when no input is set the
    configuration is the default one, in which [IgnoreDirs] is the list
    of the empty string. *)
Theorem LoadConfig_settings (getenv : string -> string) :
  let c := LoadConfig getenv in
  OutputDir c <> "" /\ KustomizeVersion c <> ""
  /\ LoadRestrictor c <> "" /\ WorkingDir c <> ""
  /\ IgnoreDirs c <> []
  /\ Forall (fun d => freeOf "," d = true) (IgnoreDirs c)
  /\ strings.Join (IgnoreDirs c) "," = getInput getenv "ignore-dirs" ""
  /\ ((forall k, getenv k = "") -> c = defaultConfig).
Proof.
  cbv zeta. unfold LoadConfig.
  cbn [OutputDir KustomizeVersion LoadRestrictor WorkingDir IgnoreDirs].
  assert (N : forall name d, d <> "" -> getInput getenv name d <> "").
  { intros name d Hd E. apply Hd. eapply getInput_empty. exact E. }
  conjuncts; try (apply N; discriminate).
  - apply splitByte_not_nil.
  - now apply splitByte_pieces.
  - unfold strings.Split. apply (Join_splitByte _ ","%char "").
  - intros H. unfold getInput. cbv zeta. rewrite !H. reflexivity.
Qed.

(** ** installer.go: [verifySHA256], [ensureKustomize] *)

Lemma toLower_space (c : ascii) :
  strings.inCutset c asciiSpace = true -> strings.toLowerByte c = c.
Proof.
  destruct c as [[] [] [] [] [] [] [] []]; vm_compute; intros H;
    first [reflexivity | discriminate H].
Qed.

Lemma toLower_toUpper (c : ascii) :
  strings.toLowerByte (strings.toUpperByte c) = strings.toLowerByte c.
Proof. destruct c as [[] [] [] [] [] [] [] []]; reflexivity. Qed.

Lemma hexdigit_plain (c : ascii) :
  strings.inCutset c main_go.hextable = true ->
  strings.inCutset c asciiSpace = false
  /\ (c =? " ")%char = false /\ (c =? "s")%char = false.
Proof.
  destruct c as [[] [] [] [] [] [] [] []]; vm_compute; intros H;
    first [discriminate H | repeat split].
Qed.

Lemma ToLower_spaces (pad : string) :
  allIn asciiSpace pad = true -> strings.ToLower pad = pad.
Proof.
  unfold strings.ToLower. induction pad as [|c pad IH]; [reflexivity|].
  cbn [allIn strings.mapBytes]. rewrite andb_true_iff. intros [Hc Hp].
  now rewrite toLower_space, IH.
Qed.

Lemma trimLeft_pad (cut pad s : string) :
  allIn cut pad = true ->
  strings.trimLeftASCII (pad ++ s) cut = strings.trimLeftASCII s cut.
Proof.
  induction pad as [|c pad IH]; [reflexivity|].
  cbn [allIn append strings.trimLeftASCII]. rewrite andb_true_iff.
  intros [-> Hp]. auto.
Qed.

Lemma trimRight_pad (cut s pad : string) :
  allIn cut pad = true ->
  strings.trimRightASCII (s ++ pad) cut = strings.trimRightASCII s cut.
Proof.
  intros Hp. induction s as [|c s IH].
  - cbn [append strings.trimRightASCII].
    induction pad as [|d pad IHp]; [reflexivity|].
    cbn [allIn] in Hp. apply andb_true_iff in Hp. destruct Hp as [Hd Hp].
    cbn [strings.trimRightASCII]. now rewrite (IHp Hp), Hd.
  - cbn [append strings.trimRightASCII]. now rewrite IH.
Qed.

Lemma TrimSpace_padded (pad1 s pad2 : string) :
  allIn asciiSpace pad1 = true -> allIn asciiSpace pad2 = true ->
  s <> "" -> headOutside asciiSpace s = true -> lastOutside asciiSpace s = true ->
  strings.TrimSpace (pad1 ++ s ++ pad2) = s.
Proof.
  intros H1 H2 Ne Hh Hl. rewrite TrimSpace_Trim. unfold strings.Trim.
  rewrite <- append_assoc, trimRight_pad by exact H2.
  rewrite trimRight_fixed by (rewrite lastOutside_append; assumption).
  rewrite trimLeft_pad by exact H1. now apply trimLeft_fixed.
Qed.

Lemma replaceFrom_free (c : ascii) (new s : string) :
  freeOf c s = true -> strings.replaceFrom (String c "") new 0 s = s.
Proof.
  induction s as [|d s IH]; [reflexivity|].
  cbn [freeOf strings.replaceFrom]. rewrite andb_true_iff, negb_true_iff.
  intros [Hd Hs]. rewrite HasPrefix_cons, Hd. cbn [andb]. now rewrite IH.
Qed.

Lemma hex_text_plain (s : string) :
  allIn main_go.hextable s = true ->
  headOutside asciiSpace s = true /\ lastOutside asciiSpace s = true
  /\ freeOf " " s = true /\ strings.HasPrefix s "sha256:" = false.
Proof.
  induction s as [|c s IH]; [repeat split|].
  cbn [allIn]. rewrite andb_true_iff. intros [Hc Hs].
  destruct (hexdigit_plain c Hc) as [P1 [P2 P3]].
  destruct (IH Hs) as [_ [I2 [I3 _]]].
  conjuncts.
  - cbn [headOutside]. now rewrite P1.
  - destruct s as [|d s']; [cbn [lastOutside]; now rewrite P1 | exact I2].
  - cbn [freeOf]. now rewrite P2, I3.
  - rewrite HasPrefix_cons, P3. reflexivity.
Qed.

(** X22: the checksum may be written in any case, with the [sha256:]
    prefix or without it, and with white space around it: when the
    file can be read, [verifySHA256] accepts every such spelling of the
    digest of its content. *)
Theorem verifySHA256_accepts_the_digest (h : Host)
    (path content pad1 prefix digest pad2 : string) :
  ReadFile h path = Ok content ->
  List.length (sha256_Sum h content) = 32 ->
  allIn asciiSpace pad1 = true -> allIn asciiSpace pad2 = true ->
  prefix = "" \/ strings.ToLower prefix = "sha256:" ->
  strings.ToLower digest = hex.EncodeToString (sha256_Sum h content) ->
  verifySHA256 h path (pad1 ++ prefix ++ digest ++ pad2) = None.
Proof.
  intros Hr Hs H1 H2 Hp Hd.
  set (d := hex.EncodeToString (sha256_Sum h content)) in *.
  destruct (hexOf_shape (sha256_Sum h content)) as [L [A _]].
  fold (hex.EncodeToString (sha256_Sum h content)) in L, A. fold d in L, A.
  rewrite Hs in L.
  destruct (hex_text_plain d A) as [Dh [Dl [Df Dp]]].
  assert (Dne : d <> "") by (intros E; rewrite E in L; discriminate L).
  assert (N : strings.TrimPrefix
                (strings.TrimSpace (strings.ToLower (pad1 ++ prefix ++ digest ++ pad2)))
                "sha256:" = d).
  { unfold strings.ToLower. rewrite !mapBytes_append.
    fold (strings.ToLower pad1) (strings.ToLower prefix)
      (strings.ToLower digest) (strings.ToLower pad2).
    rewrite (ToLower_spaces pad1 H1), (ToLower_spaces pad2 H2), Hd.
    destruct Hp as [-> | ->].
    - cbn [strings.ToLower strings.mapBytes append].
      rewrite TrimSpace_padded by assumption.
      unfold strings.TrimPrefix. now rewrite Dp.
    - rewrite <- (append_assoc "sha256:" d pad2).
      rewrite TrimSpace_padded; try assumption.
      + unfold strings.TrimPrefix.
        assert (P : strings.HasPrefix ("sha256:" ++ d) "sha256:" = true)
          by (apply HasPrefix_iff; now exists d).
        rewrite P. apply (drop_length_append "sha256:" d).
      + discriminate.
      + reflexivity.
      + rewrite lastOutside_append; assumption. }
  unfold verifySHA256. cbv zeta.
  destruct (String.eqb_spec
              (strings.TrimSpace (strings.ToLower (pad1 ++ prefix ++ digest ++ pad2)))
              "") as [E|_].
  { reflexivity. }
  rewrite N. unfold strings.ReplaceAll. rewrite (replaceFrom_free " " "" d Df).
  rewrite L. cbn [Nat.eqb negb]. rewrite Hr. fold d.
  now rewrite String.eqb_refl.
Qed.

Lemma verifySHA256_accepts_the_digest_witness :
  verifySHA256 sampleHost "/tmp/kustomize-1.tar.gz"
    (" " ++ "SHA256:" ++ zeroDigest ++ newline) = None.
Proof.
  apply (verifySHA256_accepts_the_digest sampleHost "/tmp/kustomize-1.tar.gz"
           "archive" " " "SHA256:" zeroDigest newline);
    try reflexivity.
  right. reflexivity.
Defined.

Lemma ToLower_ToUpper (s : string) :
  strings.ToLower (strings.ToUpper s) = strings.ToLower s.
Proof.
  unfold strings.ToLower, strings.ToUpper.
  induction s as [|c s IH]; [reflexivity|].
  cbn [strings.mapBytes]. now rewrite toLower_toUpper, IH.
Qed.

(** X23: what [verifySHA256] lets through, for a checksum of ASCII
    bytes.  A blank checksum switches
    the verification off, whatever the file; otherwise the function
    returns nil only when the checksum, normalized, has 64 bytes, the
    file could be read, and the lower-case hexadecimal digest of its
    content is that very text; and the answer does not depend on the
    case the checksum is written in. *)
Theorem verifySHA256_passes_only_the_digest (h : Host) (path expected : string) :
  (strings.TrimSpace (strings.ToLower expected) = "" ->
   verifySHA256 h path expected = None)
  /\ (verifySHA256 h path expected = None ->
      strings.TrimSpace (strings.ToLower expected) = ""
      \/ exists content,
           ReadFile h path = Ok content
           /\ hex.EncodeToString (sha256_Sum h content) = normalizedChecksum expected
           /\ String.length (normalizedChecksum expected) = 64)
  /\ verifySHA256 h path (strings.ToUpper expected) = verifySHA256 h path expected.
Proof.
  conjuncts.
  - intros E. unfold verifySHA256. now rewrite E.
  - unfold verifySHA256. cbv zeta. fold (normalizedChecksum expected).
    destruct (String.eqb_spec (strings.TrimSpace (strings.ToLower expected)) "")
      as [E|N]; [now left|].
    destruct (Nat.eqb_spec (String.length (normalizedChecksum expected)) 64)
      as [L|L]; cbn [negb]; [|discriminate].
    destruct (ReadFile h path) as [content|e]; [|discriminate].
    destruct (String.eqb_spec (hex.EncodeToString (sha256_Sum h content))
                (normalizedChecksum expected)) as [A|A]; cbn [negb];
      [|discriminate].
    intros _. right. exists content. auto.
  - unfold verifySHA256. now rewrite ToLower_ToUpper.
Qed.

(** X24: a tool that is already there is kept.  When [kustomize] is on
    the PATH and its [version --short] output contains the version
    asked for, [ensureKustomize] returns its path after running that
    one command: nothing is downloaded and the checksum is not looked
    at.  An empty or blank version is refused before anything is
    done. *)
Theorem installed_tool_is_kept (h : Host)
    (version expectedSHA256 path out : string) :
  strings.TrimSpace version <> "" ->
  LookPath h "kustomize" = Ok path ->
  CombinedOutput h path ["version"; "--short"] = (out, None) ->
  strings.Contains out (strings.TrimSpace version) = true ->
  ensureKustomize h version expectedSHA256
  = ([Ran path ["version"; "--short"]], Ok path)
  /\ (forall blank sha,
         strings.TrimSpace blank = "" ->
         ensureKustomize h blank sha
         = ([], Err (errorString "kustomize version is empty"))).
Proof.
  intros Hv Hl Hc Hs. split.
  - unfold ensureKustomize, installed. cbv zeta.
    apply String.eqb_neq in Hv. rewrite Hv, Hl, Hc, Hs. reflexivity.
  - intros blank sha Hb. unfold ensureKustomize. now rewrite Hb.
Qed.

Lemma installed_tool_is_kept_witness :
  ensureKustomize hostWithTool "v5.8.0" "not a checksum"
  = ([Ran "/usr/bin/kustomize" ["version"; "--short"]], Ok "/usr/bin/kustomize").
Proof.
  destruct (installed_tool_is_kept hostWithTool "v5.8.0" "not a checksum"
              "/usr/bin/kustomize" "v5.8.0") as [H _].
  - discriminate.
  - reflexivity.
  - reflexivity.
  - reflexivity.
  - exact H.
Defined.

Lemma extract_acts (h : Host) (tmpPath : string) :
  let acts := fst (extract h tmpPath) in
  let r := snd (extract h tmpPath) in
  (forall a, In a acts ->
     match a with
     | Created _ | Removed _ | Requested _ | Stored _ => False
     | Ran name args =>
         name = "tar" /\ exists dir, args = ["-xzf"; tmpPath; "-C"; dir]
     | _ => True
     end)
  /\ match r with
     | Ok bin =>
         In (Chmodded bin) acts
         /\ (bin = filepath.Join ["/usr/local/bin"; "kustomize"]
             \/ exists dir,
                  MkdirTemp h = Ok dir
                  /\ bin = filepath.Join [dir; "kustomize"]
                  /\ In (SetEnv "PATH" (dir ++ ":" ++ Getenv h "PATH")) acts)
     | Err _ => forall p, ~ In (Chmodded p) acts
     end.
Proof.
  unfold extract. cbv zeta.
  remember (filepath.Join ["/usr/local/bin"; "kustomize"]) as bin0 eqn:B0.
  destruct (snd (CombinedOutput h "tar" _)) as [e0|].
  - destruct (MkdirTemp h) as [tmpBin|e1].
    + remember (filepath.Join [tmpBin; "kustomize"]) as bin1 eqn:B1.
      destruct (CombinedOutput h "tar" ["-xzf"; tmpPath; "-C"; tmpBin])
        as [output [e2|]].
      * cbn [fst snd app]. split.
        -- intros a Ha. cbn [In] in Ha.
           destruct Ha as [<-|[<-|[<-|[<-|[]]]]]; eauto.
        -- intros p Hp. cbn [In] in Hp. intuition discriminate.
      * destruct (Setenv h "PATH" _) as [e3|].
        -- cbn [fst snd app]. split.
           ++ intros a Ha. cbn [In] in Ha.
              destruct Ha as [<-|[<-|[<-|[<-|[]]]]]; eauto.
           ++ intros p Hp. cbn [In] in Hp. intuition discriminate.
        -- destruct (Chmod h bin1) as [e4|]; cbn [fst snd app]; split.
           ++ intros a Ha. cbn [In] in Ha.
              destruct Ha as [<-|[<-|[<-|[<-|[<-|[<-|[]]]]]]]; eauto.
           ++ intros p Hp. cbn [In] in Hp. intuition discriminate.
           ++ intros a Ha. cbn [In] in Ha.
              destruct Ha as [<-|[<-|[<-|[<-|[<-|[<-|[<-|[]]]]]]]]; eauto.
           ++ split; [cbn [In]; tauto|]. right. exists tmpBin.
              rewrite <- B1. cbn [In]. auto 10.
    + cbn [fst snd]. split.
      * intros a Ha. cbn [In] in Ha. destruct Ha as [<-|[<-|[]]]; eauto.
      * intros p Hp. cbn [In] in Hp. intuition discriminate.
  - destruct (Chmod h bin0) as [e4|]; cbn [fst snd]; split.
    + intros a Ha. cbn [In] in Ha. destruct Ha as [<-|[]]; eauto.
    + intros p Hp. cbn [In] in Hp. intuition discriminate.
    + intros a Ha. cbn [In] in Ha. destruct Ha as [<-|[<-|[]]]; eauto.
    + split; [cbn [In]; tauto | now left].
Qed.

Lemma download_acts (h : Host) (url tmpPath expectedSHA256 : string) :
  let acts := fst (download h url tmpPath expectedSHA256) in
  let r := snd (download h url tmpPath expectedSHA256) in
  (forall a, In a acts ->
     match a with
     | Created _ | Removed _ => False
     | Requested u => u = url
     | Stored p => p = tmpPath
     | Ran name args =>
         name = "tar" /\ (exists dir, args = ["-xzf"; tmpPath; "-C"; dir])
         /\ verifySHA256 h tmpPath expectedSHA256 = None
         /\ In (Stored tmpPath) acts
     | _ => True
     end)
  /\ match r with
     | Ok bin =>
         In (Chmodded bin) acts
         /\ (bin = filepath.Join ["/usr/local/bin"; "kustomize"]
             \/ exists dir,
                  MkdirTemp h = Ok dir
                  /\ bin = filepath.Join [dir; "kustomize"]
                  /\ In (SetEnv "PATH" (dir ++ ":" ++ Getenv h "PATH")) acts)
     | Err _ => forall p, ~ In (Chmodded p) acts
     end.
Proof.
  assert (Small : forall (acts : list act) (e : error),
             (forall a, In a acts -> a = Requested url \/ a = Stored tmpPath) ->
             (forall a, In a acts ->
                match a with
                | Created _ | Removed _ => False
                | Requested u => u = url
                | Stored p => p = tmpPath
                | Ran name args =>
                    name = "tar" /\ (exists dir, args = ["-xzf"; tmpPath; "-C"; dir])
                    /\ verifySHA256 h tmpPath expectedSHA256 = None
                    /\ In (Stored tmpPath) acts
                | _ => True
                end)
             /\ forall p, ~ In (Chmodded p) acts).
  { intros acts e H. split.
    - intros a Ha. destruct (H a Ha) as [-> | ->]; reflexivity.
    - intros p Hp. destruct (H _ Hp); discriminate. }
  unfold download. cbv zeta.
  destruct (NewRequest h url) as [e|];
    [cbn [fst snd]; apply (Small [] e); intros a []|].
  destruct (Do h url) as [resp|e];
    [|cbn [fst snd]; apply (Small _ e); cbn [In]; intuition].
  destruct ((StatusCode resp <? 200)%nat || (299 <? StatusCode resp)%nat);
    [cbn [fst snd]; apply (Small _ context_Canceled); cbn [In]; intuition|].
  destruct (OpenFile h tmpPath) as [e|];
    [cbn [fst snd]; apply (Small _ e); cbn [In]; intuition|].
  destruct (Copy h tmpPath (Body resp)) as [e|];
    [cbn [fst snd]; apply (Small _ e); cbn [In]; intuition|].
  destruct (Close h tmpPath) as [e|];
    [cbn [fst snd]; apply (Small _ e); cbn [In]; intuition|].
  destruct (verifySHA256 h tmpPath expectedSHA256) as [e|] eqn:V;
    [cbn [fst snd]; apply (Small _ e); cbn [In]; intuition|].
  pose proof (extract_acts h tmpPath) as [X1 X2]. cbv zeta in X1, X2.
  destruct (extract h tmpPath) as [acts r]. cbn [fst snd] in *.
  split.
  - intros a [<-|[<-|Ha]]; try reflexivity.
    specialize (X1 a Ha). destruct a; auto; try contradiction.
    destruct X1 as [-> [dir ->]]. conjuncts; eauto. cbn [In]. auto.
  - destruct r as [bin|e].
    + destruct X2 as [C P]. split; [cbn [In]; auto|].
      destruct P as [P|[dir [P1 [P2 P3]]]]; [now left|].
      right. exists dir. cbn [In]. auto.
    + intros p [Hp|[Hp|Hp]]; try discriminate. exact (X2 p Hp).
Qed.

(** X25: what a download leaves behind.  In every run of
    [ensureKustomize]: the temporary archive, once created, is removed
    at the very end, however the run ends; the only URL requested is
    the release URL of the trimmed version for the platform; [tar]
    unpacks nothing but that archive, and only after it was stored and
    passed [verifySHA256]; a path returned after a download was made
    executable and is [kustomize] in [/usr/local/bin] or in a new
    directory that was put in front of the PATH; and when the run
    fails nothing was made executable. *)
Theorem download_is_checked_and_cleaned_up (h : Host)
    (version expectedSHA256 : string) :
  let acts := fst (ensureKustomize h version expectedSHA256) in
  let r := snd (ensureKustomize h version expectedSHA256) in
  (forall tmp, In (Created tmp) acts ->
     CreateTemp h = Ok tmp /\ exists front, acts = (front ++ [Removed tmp])%list)
  /\ (forall url, In (Requested url) acts ->
        url = downloadURL h (strings.TrimSpace version))
  /\ (forall tmp dir, In (Ran "tar" ["-xzf"; tmp; "-C"; dir]) acts ->
        CreateTemp h = Ok tmp
        /\ verifySHA256 h tmp expectedSHA256 = None
        /\ In (Stored tmp) acts)
  /\ match r with
     | Ok bin =>
         (LookPath h "kustomize" = Ok bin
          /\ acts = [Ran bin ["version"; "--short"]])
         \/ (In (Chmodded bin) acts
             /\ (bin = filepath.Join ["/usr/local/bin"; "kustomize"]
                 \/ exists dir,
                      MkdirTemp h = Ok dir
                      /\ bin = filepath.Join [dir; "kustomize"]
                      /\ In (SetEnv "PATH" (dir ++ ":" ++ Getenv h "PATH")) acts))
     | Err _ => forall p, ~ In (Chmodded p) acts
     end.
Proof.
  unfold ensureKustomize. cbv zeta.
  destruct (strings.TrimSpace version =? "").
  { cbn [fst snd]. conjuncts; try (intros; contradiction). intros p []. }
  assert (I : exists acts0 found,
             installed h (strings.TrimSpace version) = (acts0, found)
             /\ (acts0 = [] /\ found = None \/ exists path,
                   LookPath h "kustomize" = Ok path
                   /\ acts0 = [Ran path ["version"; "--short"]]
                   /\ (found = None \/ found = Some path))).
  { unfold installed. destruct (LookPath h "kustomize") as [path|e].
    - destruct (CombinedOutput h path _) as [out err].
      eexists; eexists; split; [reflexivity|]. right. exists path.
      destruct (negb (notNil err) && _); auto.
    - eexists; eexists; split; [reflexivity|]. left. split; reflexivity. }
  destruct I as [acts0 [found [-> I]]].
  assert (I0 : forall a, In a acts0 ->
                 exists path, a = Ran path ["version"; "--short"]).
  { intros a Ha. destruct I as [[-> _]|[path [_ [-> _]]]]; [destruct Ha|].
    destruct Ha as [<-|[]]. eauto. }
  destruct found as [path|].
  { cbn [fst snd]. conjuncts.
    - intros tmp Ht. destruct (I0 _ Ht) as [p [=]].
    - intros url Ht. destruct (I0 _ Ht) as [p [=]].
    - intros tmp dir Ht. destruct (I0 _ Ht) as [p [=]].
    - left. destruct I as [[_ [=]]|[p [L [-> [[=]|[= ->]]]]]]; auto. }
  destruct (CreateTemp h) as [tmpPath|e].
  2:{ cbn [fst snd]. conjuncts.
      - intros tmp Ht. destruct (I0 _ Ht) as [p [=]].
      - intros url Ht. destruct (I0 _ Ht) as [p [=]].
      - intros tmp dir Ht. destruct (I0 _ Ht) as [p [=]].
      - intros p Hp. destruct (I0 _ Hp) as [q [=]]. }
  pose proof (download_acts h (downloadURL h (strings.TrimSpace version))
                tmpPath expectedSHA256) as [D1 D2].
  cbv zeta in D1, D2.
  destruct (download h _ tmpPath expectedSHA256) as [acts' r].
  cbn [fst snd] in *.
  assert (Mem : forall a,
             In a (acts0 ++ (Created tmpPath :: acts') ++ [Removed tmpPath])%list ->
             (exists path, a = Ran path ["version"; "--short"])
             \/ a = Created tmpPath \/ In a acts' \/ a = Removed tmpPath).
  { intros a Ha. apply in_app_iff in Ha. destruct Ha as [Ha|Ha]; [left; auto|].
    apply in_app_iff in Ha. destruct Ha as [[<-|Ha]|[<-|[]]]; auto. }
  assert (Sub : forall a, In a acts' ->
             In a (acts0 ++ (Created tmpPath :: acts') ++ [Removed tmpPath])%list).
  { intros a Ha. apply in_app_iff. right. apply in_app_iff. left. now right. }
  conjuncts.
  - intros tmp Ht.
    destruct (Mem _ Ht) as [[p [=]]|[[= <-]|[Ha|[=]]]].
    + split; [reflexivity|].
      exists (acts0 ++ Created tmp :: acts')%list.
      now rewrite <- !app_assoc.
    + destruct (D1 _ Ha).
  - intros url Ht.
    destruct (Mem _ Ht) as [[p [=]]|[[=]|[Ha|[=]]]]. exact (D1 _ Ha).
  - intros tmp dir Ht.
    destruct (Mem _ Ht) as [[p [=]]|[[=]|[Ha|[=]]]].
    destruct (D1 _ Ha) as [_ [[dir' [= <- <-]] [V S]]]. auto.
  - destruct r as [bin|e].
    + right. destruct D2 as [C P]. split; [auto|].
      destruct P as [P|[dir [P1 [P2 P3]]]]; [now left|].
      right. exists dir. auto.
    + intros p Hp.
      destruct (Mem _ Hp) as [[q [=]]|[[=]|[Ha|[=]]]]. exact (D2 p Ha).
Qed.

Example download_on_the_sample_host :
  ensureKustomize sampleHost " v5.8.0 " ""
  = ([Created "/tmp/kustomize-1.tar.gz";
      Requested "https://github.com/kubernetes-sigs/kustomize/releases/download/kustomize%2Fv5.8.0/kustomize_v5.8.0_linux_amd64.tar.gz";
      Stored "/tmp/kustomize-1.tar.gz";
      Ran "tar" ["-xzf"; "/tmp/kustomize-1.tar.gz"; "-C"; "/usr/local/bin"];
      Chmodded "/usr/local/bin/kustomize";
      Removed "/tmp/kustomize-1.tar.gz"],
     Ok "/usr/local/bin/kustomize").
Proof. reflexivity. Qed.

(** ** [buildKustomizations]: one goroutine *)

Lemma history_counts (s : taskState) (h : list obs) :
  taskHistory s h ->
  times isInvoked h <= 1 /\ times isWrote h <= 1
  /\ times isWrote h <= times isInvoked h
  /\ times isRecorded h = (if isFinished {| t_dir := ""; t_state := s |}
                           then 1 else 0)
  /\ (In ObsCanceledBeforeStart h -> times isInvoked h = 0).
Proof.
  unfold times.
  induction 1 as [| | | | | | |logMsg err h H IH]; cbn [isFinished t_state] in *;
    try (cbn; conjuncts; try lia; intuition discriminate).
  unfold times in *. rewrite !filter_app, !length_app.
  cbn [filter isInvoked isWrote isRecorded List.length].
  destruct IH as [I1 [I2 [I3 [I4 I5]]]].
  conjuncts; try lia.
  intros Hin. apply in_app_iff in Hin. destruct Hin as [Hin|[Hin|[]]];
    [|discriminate].
  rewrite (I5 Hin). reflexivity.
Qed.

(** X26: what one goroutine does.  In every state of every run, a
    launched root has called the runner at most once and written at
    most one file, and only after calling the runner; it has been
    counted in the summary exactly once if it has finished and not at
    all before, so no root is counted twice; and a root that found the
    context canceled before it started never calls the runner. *)
Theorem each_root_runs_and_counts_once (conf : Config) (kustomizePath : string)
    (wo : WriteOracle) (roots : list string) (fs : FS) (st : state)
    (i : nat) (t : task) :
  reachable conf kustomizePath wo roots fs st ->
  nth_error (tasks st) i = Some t ->
  let h := taskTrace i (trace st) in
  times isInvoked h <= 1 /\ times isWrote h <= 1
  /\ times isWrote h <= times isInvoked h
  /\ times isRecorded h = (if isFinished t then 1 else 0)
  /\ (In ObsCanceledBeforeStart h -> times isInvoked h = 0).
Proof.
  intros R Ht h.
  pose proof (invariant_reachable _ _ _ _ _ _ R) as [_ [_ [H _]]].
  specialize (H i t Ht). fold h in H.
  destruct (history_counts _ _ H) as [C1 [C2 [C3 [C4 C5]]]].
  conjuncts; auto.
Qed.

Lemma each_root_runs_and_counts_once_witness :
  let st := stateAfter (sampleConfig false false true) failFastRun
              ["app1"; "app2"; "app3"] sampleFS in
  times isInvoked (taskTrace 1 (trace st)) = 1
  /\ times isWrote (taskTrace 1 (trace st)) = 1
  /\ times isRecorded (taskTrace 1 (trace st)) = 1.
Proof.
  intros st.
  destruct (each_root_runs_and_counts_once (sampleConfig false false true)
              "kustomize" neverDenied ["app1"; "app2"; "app3"] sampleFS st 1
              {| t_dir := "app2"; t_state := Finished |})
    as [_ [_ [_ [H _]]]].
  - exists failFastRun. vm_compute. reflexivity.
  - vm_compute. reflexivity.
  - split; [vm_compute; reflexivity|]. split; [vm_compute; reflexivity|].
    exact H.
Defined.

(** ** [sanitizeOutName]: roots that share a name *)

Lemma trimRight_behind_pad (cut pad s : string) :
  allIn cut pad = true ->
  strings.trimLeftASCII (strings.trimRightASCII (pad ++ s) cut) cut
  = strings.trimLeftASCII (strings.trimRightASCII s cut) cut.
Proof.
  intros Hp. induction pad as [|c pad IH]; [reflexivity|].
  cbn [allIn] in Hp. apply andb_true_iff in Hp. destruct Hp as [Hc Hp].
  specialize (IH Hp). cbn [append strings.trimRightASCII].
  destruct (strings.trimRightASCII (pad ++ s) cut) as [|x r].
  - rewrite Hc. exact IH.
  - cbn [strings.trimLeftASCII]. rewrite Hc. exact IH.
Qed.

Lemma Trim_padded (cut pad1 s pad2 : string) :
  allIn cut pad1 = true -> allIn cut pad2 = true ->
  strings.Trim (pad1 ++ s ++ pad2) cut = strings.Trim s cut.
Proof.
  intros H1 H2. unfold strings.Trim.
  rewrite <- append_assoc, trimRight_pad by exact H2.
  now apply trimRight_behind_pad.
Qed.

(** X28: dots and slashes around a root do not count.  Two roots that
    differ only by bytes [.] and [/] at their two ends get the same
    sanitized name, hence the same output and error paths: [./apps],
    [apps/], [.apps] and [apps] all share the artifacts of [apps]. *)
Theorem roots_share_artifacts_up_to_dots_and_slashes
    (before dir after outputDir : string) :
  allIn "./" before = true -> allIn "./" after = true ->
  sanitizeOutName (before ++ dir ++ after) = sanitizeOutName dir
  /\ artifactsOf outputDir (before ++ dir ++ after) = artifactsOf outputDir dir.
Proof.
  intros H1 H2.
  assert (E : sanitizeOutName (before ++ dir ++ after) = sanitizeOutName dir).
  { rewrite !sanitizeOutName_eq. cbv zeta. now rewrite Trim_padded. }
  split; [exact E|].
  unfold artifactsOf, outNameOf. now rewrite E.
Qed.

Lemma roots_share_artifacts_up_to_dots_and_slashes_witness :
  sanitizeOutName ".github" = sanitizeOutName "github"
  /\ artifactsOf "out" "./apps/" = artifactsOf "out" "apps".
Proof.
  split.
  - apply (roots_share_artifacts_up_to_dots_and_slashes "." "github" "" "out");
      reflexivity.
  - apply (roots_share_artifacts_up_to_dots_and_slashes "./" "apps" "/" "out");
      reflexivity.
Defined.
